(** * Workers AI chat system: conversation store, stream relay, task workflow

    A shallow embedding of [worker/memory_do.ts], [worker/index.ts],
    [worker/task_workflow.ts] and the streaming part of [src/App.tsx], with
    the properties of the written specification stated and proved (or
    refuted) over it.

    Conventions.
    - A JavaScript string is its sequence of UTF-16 code units ([list N]).
    - A byte chunk ([Uint8Array]) is a [list byte].
    - The values handled as [any] are JSON values ([JSON]), [undefined]
      being [None] of [option JSON].
    - Code that can throw returns a [Completion]. *)

From Stdlib Require Import ZArith NArith Ascii String Strings.Byte Lia.
From stdpp Require Import gmap strings list.
From Equations Require Import Equations.
From Equations.Prop Require Import Logic.

Set Default Proof Using "Type".
Set Warnings "-register-all".
Local Open Scope Z_scope.

(** ** JavaScript strings *)

Abbreviation jsstring := (list N).

(** An ASCII literal as a JavaScript string. *)
Definition js (s : string) : jsstring :=
  N_of_ascii <$> list_ascii_of_string s.

(** The double quote, for literals that contain it. *)
Definition dquote : string := String "034"%char EmptyString.

Definition quoted (s : string) : string := dquote +:+ s +:+ dquote.

(** ** JSON values, as [JSON.parse] builds them.  An object keeps its members
    in source order; a number keeps its lexeme. *)
Inductive JSON : Type :=
| JNull
| JBool (b : bool)
| JNumber (lexeme : jsstring)
| JString (s : jsstring)
| JArray (elems : list JSON)
| JObject (members : list (jsstring * JSON)).

(** Outcome of code that may throw. *)
Inductive Completion (A : Type) : Type :=
| Normal (a : A)
| Throw.
Arguments Normal {A} a.
Arguments Throw {A}.

(** ** Array and string [slice]

    [rel_index len i] is the clamping both [Array.prototype.slice] and
    [String.prototype.slice] apply to an index: a negative index counts from
    the end. *)
Definition rel_index (len : nat) (i : Z) : nat :=
  if i <? 0 then Z.to_nat (Z.max (Z.of_nat len + i) 0)
  else Nat.min (Z.to_nat i) len.

Definition slice {A} (l : list A) (start : Z) (stop : option Z) : list A :=
  let len := length l in
  let from := rel_index len start in
  let to := match stop with None => len | Some e => rel_index len e end in
  take (to - from) (drop from l).

(** ** String built-ins used by the relay *)

(** [s.startsWith(prefix)] *)
Fixpoint startsWith (s prefix : jsstring) : bool :=
  match prefix, s with
  | [], _ => true
  | p :: prefix', c :: s' => (c =? p)%N && startsWith s' prefix'
  | _ :: _, [] => false
  end.

(** [s.indexOf(needle)]: the least position at which [needle] occurs in [s],
    [-1] when there is none.  [k] is the position of the head of [s]. *)
Fixpoint indexOf_from (s needle : jsstring) (k : Z) : Z :=
  if startsWith s needle then k
  else match s with
       | [] => -1
       | _ :: s' => indexOf_from s' needle (k + 1)
       end.

Definition indexOf (s needle : jsstring) : Z := indexOf_from s needle 0.

(** [s.split(sep)] for a separator of one code unit. *)
Fixpoint split_on (sep : N) (s : jsstring) : list jsstring :=
  match s with
  | [] => [[]]
  | c :: s' =>
      if (c =? sep)%N then [] :: split_on sep s'
      else match split_on sep s' with
           | seg :: segs => (c :: seg) :: segs
           | [] => [[c]]
           end
  end.

(** White space and line terminators, as [String.prototype.trim] strips
    them (ECMAScript WhiteSpace and LineTerminator). *)
Definition is_js_space (c : N) : bool :=
  ((0x09 <=? c) && (c <=? 0x0D) || (c =? 0x20) || (c =? 0xA0) || (c =? 0x1680)
   || (0x2000 <=? c) && (c <=? 0x200A) || (c =? 0x2028) || (c =? 0x2029)
   || (c =? 0x202F) || (c =? 0x205F) || (c =? 0x3000) || (c =? 0xFEFF))%N.

Fixpoint trimStart (s : jsstring) : jsstring :=
  match s with
  | c :: s' => if is_js_space c then trimStart s' else s
  | [] => []
  end.

Definition trimEnd (s : jsstring) : jsstring := reverse (trimStart (reverse s)).

Definition trim (s : jsstring) : jsstring := trimEnd (trimStart s).

(** * [TextDecoder] for UTF-8 (the default), used with [{stream: true}]

    The WHATWG Encoding standard's UTF-8 decoder, in replacement mode, with
    the byte order mark stripped once ([ignoreBOM] is false).  With
    [stream: true] the decoder never flushes: its state carries over from one
    call of [decode] to the next. *)
Module TextDecoder.

Record State := {
  code_point : N;
  bytes_seen : N;
  bytes_needed : N;
  lower : N;
  upper : N;
  bom_seen : bool
}.

Definition init : State :=
  {| code_point := 0; bytes_seen := 0; bytes_needed := 0;
     lower := 0x80; upper := 0xBF; bom_seen := false |}.

Inductive Item := Continue | Error | Scalar (cp : N).

Definition reset (st : State) : State :=
  {| code_point := 0; bytes_seen := 0; bytes_needed := 0;
     lower := 0x80; upper := 0xBF; bom_seen := bom_seen st |}.

Definition in_range (lo b hi : N) : bool := ((lo <=? b) && (b <=? hi))%N.

(** The handler when no continuation byte is awaited. *)
Definition lead (b : N) (st : State) : Item * State :=
  if in_range 0x00 b 0x7F then (Scalar b, st)
  else if in_range 0xC2 b 0xDF then
    (Continue, {| code_point := N.land b 0x1F; bytes_seen := 0; bytes_needed := 1;
                  lower := lower st; upper := upper st; bom_seen := bom_seen st |})
  else if in_range 0xE0 b 0xEF then
    (Continue, {| code_point := N.land b 0xF; bytes_seen := 0; bytes_needed := 2;
                  lower := if (b =? 0xE0)%N then 0xA0 else lower st;
                  upper := if (b =? 0xED)%N then 0x9F else upper st;
                  bom_seen := bom_seen st |})
  else if in_range 0xF0 b 0xF4 then
    (Continue, {| code_point := N.land b 0x7; bytes_seen := 0; bytes_needed := 3;
                  lower := if (b =? 0xF0)%N then 0x90 else lower st;
                  upper := if (b =? 0xF4)%N then 0x8F else upper st;
                  bom_seen := bom_seen st |})
  else (Error, st).

(** The handler for one byte.  A byte that is no valid continuation is an
    error and is then read again as a lead byte. *)
Definition handler (b : N) (st : State) : list Item * State :=
  if (bytes_needed st =? 0)%N then
    let '(item, st') := lead b st in ([item], st')
  else if negb (in_range (lower st) b (upper st)) then
    let '(item, st') := lead b (reset st) in ([Error; item], st')
  else
    let cp := N.lor (N.shiftl (code_point st) 6) (N.land b 0x3F) in
    let seen := (bytes_seen st + 1)%N in
    if (seen =? bytes_needed st)%N then ([Scalar cp], reset st)
    else ([Continue], {| code_point := cp; bytes_seen := seen;
                         bytes_needed := bytes_needed st;
                         lower := 0x80; upper := 0xBF; bom_seen := bom_seen st |}).

(** A scalar value as UTF-16 code units. *)
Definition utf16 (cp : N) : jsstring :=
  if (cp <? 0x10000)%N then [cp]
  else let c := (cp - 0x10000)%N in
       [(0xD800 + N.shiftr c 10)%N; (0xDC00 + N.land c 0x3FF)%N].

(** Serialising one item of the output queue. *)
Definition emit (item : Item) (st : State) : jsstring * State :=
  match item with
  | Continue => ([], st)
  | _ =>
      let cp := match item with Scalar cp => cp | _ => 0xFFFD%N end in
      if bom_seen st then (utf16 cp, st)
      else
        let st' := {| code_point := code_point st; bytes_seen := bytes_seen st;
                      bytes_needed := bytes_needed st; lower := lower st;
                      upper := upper st; bom_seen := true |} in
        if (cp =? 0xFEFF)%N then ([], st') else (utf16 cp, st')
  end.

Fixpoint emit_all (items : list Item) (st : State) : jsstring * State :=
  match items with
  | [] => ([], st)
  | item :: items' =>
      let '(t1, st1) := emit item st in
      let '(t2, st2) := emit_all items' st1 in
      (t1 ++ t2, st2)
  end.

Definition step (b : byte) (st : State) : jsstring * State :=
  let '(items, st1) := handler (Byte.to_N b) st in
  emit_all items st1.

(** [decoder.decode(value, {stream: true})] *)
Fixpoint decode (value : list byte) (st : State) : jsstring * State :=
  match value with
  | [] => ([], st)
  | b :: value' =>
      let '(t1, st1) := step b st in
      let '(t2, st2) := decode value' st1 in
      (t1 ++ t2, st2)
  end.

End TextDecoder.

(** * [JSON.parse] and the reads made on its result *)
Module Json.

Definition is_ws (c : N) : bool :=
  ((c =? 0x20) || (c =? 0x09) || (c =? 0x0A) || (c =? 0x0D))%N.

Definition is_digit (c : N) : bool := ((0x30 <=? c) && (c <=? 0x39))%N.

Definition is_hex (c : N) : bool :=
  (is_digit c || (0x41 <=? c) && (c <=? 0x46) || (0x61 <=? c) && (c <=? 0x66))%N.

Definition hex_val (c : N) : N :=
  (if is_digit c then c - 0x30
   else if (0x41 <=? c) && (c <=? 0x46) then c - 0x41 + 10
   else c - 0x61 + 10)%N.

Fixpoint skip_ws (s : jsstring) : jsstring :=
  match s with
  | c :: s' => if is_ws c then skip_ws s' else s
  | [] => []
  end.

(** The longest prefix of digits, and what follows it. *)
Fixpoint span_digits (s : jsstring) : jsstring * jsstring :=
  match s with
  | c :: s' =>
      if is_digit c then let '(ds, r) := span_digits s' in (c :: ds, r)
      else ([], s)
  | [] => ([], [])
  end.

(** The characters of a string after its opening quote, up to the closing
    one; escapes are decoded. *)
Fixpoint parse_chars (s : jsstring) : option (jsstring * jsstring) :=
  match s with
  | [] => None
  | c :: s' =>
      if (c =? 0x22)%N then Some ([], s')
      else if (c <? 0x20)%N then None
      else if (c =? 0x5C)%N then
        match s' with
        | [] => None
        | e :: s'' =>
            let simple (u : N) :=
              match parse_chars s'' with
              | Some (t, r) => Some (u :: t, r)
              | None => None
              end in
            if (e =? 0x22)%N then simple 0x22%N
            else if (e =? 0x5C)%N then simple 0x5C%N
            else if (e =? 0x2F)%N then simple 0x2F%N
            else if (e =? 0x62)%N then simple 0x08%N
            else if (e =? 0x66)%N then simple 0x0C%N
            else if (e =? 0x6E)%N then simple 0x0A%N
            else if (e =? 0x72)%N then simple 0x0D%N
            else if (e =? 0x74)%N then simple 0x09%N
            else if (e =? 0x75)%N then
              match s'' with
              | h1 :: h2 :: h3 :: h4 :: s3 =>
                  if is_hex h1 && is_hex h2 && is_hex h3 && is_hex h4 then
                    match parse_chars s3 with
                    | Some (t, r) =>
                        Some ((hex_val h1 * 4096 + hex_val h2 * 256
                               + hex_val h3 * 16 + hex_val h4)%N :: t, r)
                    | None => None
                    end
                  else None
              | _ => None
              end
            else None
        end
      else
        match parse_chars s' with
        | Some (t, r) => Some (c :: t, r)
        | None => None
        end
  end.

(** A number: an optional minus sign; then a zero, or a digit from 1 to 9
    and any digits; then optionally a point and one digit or more; then
    optionally e or E, an optional sign and one digit or more.  The result
    is the lexeme. *)
Definition parse_number (s : jsstring) : option (jsstring * jsstring) :=
  let '(sign, s1) :=
    match s with
    | c :: s' => if (c =? 0x2D)%N then ([c], s') else ([], s)
    | [] => ([], s)
    end in
  match s1 with
  | [] => None
  | d :: s2 =>
      if negb (is_digit d) then None
      else
        let '(int, s3) :=
          if (d =? 0x30)%N then ([d], s2)
          else let '(ds, r) := span_digits s2 in (d :: ds, r) in
        let frac :=
          match s3 with
          | c :: s4 =>
              if (c =? 0x2E)%N then
                let '(ds, r) := span_digits s4 in
                match ds with [] => None | _ => Some (c :: ds, r) end
              else Some ([], s3)
          | [] => Some ([], s3)
          end in
        match frac with
        | None => None
        | Some (fr, s5) =>
            let exp :=
              match s5 with
              | c :: s6 =>
                  if ((c =? 0x65) || (c =? 0x45))%N then
                    let '(sg, s7) :=
                      match s6 with
                      | g :: s' =>
                          if ((g =? 0x2B) || (g =? 0x2D))%N then ([g], s') else ([], s6)
                      | [] => ([], s6)
                      end in
                    let '(ds, r) := span_digits s7 in
                    match ds with [] => None | _ => Some (c :: sg ++ ds, r) end
                  else Some ([], s5)
              | [] => Some ([], s5)
              end in
            match exp with
            | None => None
            | Some (ex, r) => Some (sign ++ int ++ fr ++ ex, r)
            end
        end
  end.

(** A value, after optional white space.  [parse_elements] reads the
    elements of an array after its opening bracket (at least one is due),
    [parse_members] the members of an object likewise.  Every call spends
    one unit of [fuel]; [2 * length s + 2] units are enough for any [s]. *)
Fixpoint parse_value (fuel : nat) (s : jsstring) : option (JSON * jsstring) :=
  match fuel with
  | O => None
  | S fuel' =>
      match skip_ws s with
      | [] => None
      | c :: s1 =>
          if (c =? 0x7B)%N then                            (* { *)
            match skip_ws s1 with
            | c' :: s2 =>
                if (c' =? 0x7D)%N then Some (JObject [], s2)
                else match parse_members fuel' s1 with
                     | Some (ms, r) => Some (JObject ms, r)
                     | None => None
                     end
            | [] => None
            end
          else if (c =? 0x5B)%N then                       (* [ *)
            match skip_ws s1 with
            | c' :: s2 =>
                if (c' =? 0x5D)%N then Some (JArray [], s2)
                else match parse_elements fuel' s1 with
                     | Some (es, r) => Some (JArray es, r)
                     | None => None
                     end
            | [] => None
            end
          else if (c =? 0x22)%N then
            match parse_chars s1 with
            | Some (t, r) => Some (JString t, r)
            | None => None
            end
          else if startsWith (c :: s1) (js "true") then Some (JBool true, drop 4 (c :: s1))
          else if startsWith (c :: s1) (js "false") then Some (JBool false, drop 5 (c :: s1))
          else if startsWith (c :: s1) (js "null") then Some (JNull, drop 4 (c :: s1))
          else match parse_number (c :: s1) with
               | Some (lx, r) => Some (JNumber lx, r)
               | None => None
               end
      end
  end
with parse_elements (fuel : nat) (s : jsstring) : option (list JSON * jsstring) :=
  match fuel with
  | O => None
  | S fuel' =>
      match parse_value fuel' s with
      | None => None
      | Some (v, r) =>
          match skip_ws r with
          | c :: r1 =>
              if (c =? 0x5D)%N then Some ([v], r1)
              else if (c =? 0x2C)%N then
                match parse_elements fuel' r1 with
                | Some (vs, r2) => Some (v :: vs, r2)
                | None => None
                end
              else None
          | [] => None
          end
      end
  end
with parse_members (fuel : nat) (s : jsstring) : option (list (jsstring * JSON) * jsstring) :=
  match fuel with
  | O => None
  | S fuel' =>
      match skip_ws s with
      | q :: s1 =>
          if (q =? 0x22)%N then
            match parse_chars s1 with
            | None => None
            | Some (key, s2) =>
                match skip_ws s2 with
                | c :: s3 =>
                    if (c =? 0x3A)%N then
                      match parse_value fuel' s3 with
                      | None => None
                      | Some (v, r) =>
                          match skip_ws r with
                          | c' :: r1 =>
                              if (c' =? 0x7D)%N then Some ([(key, v)], r1)
                              else if (c' =? 0x2C)%N then
                                match parse_members fuel' r1 with
                                | Some (ms, r2) => Some ((key, v) :: ms, r2)
                                | None => None
                                end
                              else None
                          | [] => None
                          end
                      end
                    else None
                | [] => None
                end
            end
          else None
      | [] => None
      end
  end.

(** [JSON.parse(text)]; [None] is a thrown [SyntaxError]. *)
Definition parse (text : jsstring) : option JSON :=
  match parse_value (2 * length text + 2) text with
  | Some (v, r) => match skip_ws r with [] => Some v | _ => None end
  | None => None
  end.

(** The own property [key] of an object built by [JSON.parse]; of two
    members with one key the later one stays. *)
Fixpoint own (key : jsstring) (members : list (jsstring * JSON)) : option JSON :=
  match members with
  | [] => None
  | (k, v) :: members' =>
      match own key members' with
      | Some v' => Some v'
      | None => if decide (k = key) then Some v else None
      end
  end.

(** [v.key], for a [key] that no built-in prototype defines ([response],
    [output_text], [plan], [message], [goal]): reading it off [null] throws
    a [TypeError], off anything but an object gives [undefined]. *)
Definition get (v : JSON) (key : jsstring) : Completion (option JSON) :=
  match v with
  | JNull => Throw
  | JObject members => Normal (own key members)
  | _ => Normal None
  end.

(** [v?.key], for [v] possibly [undefined]. *)
Definition get_opt (v : option JSON) (key : jsstring) : option JSON :=
  match v with
  | None | Some JNull => None
  | Some (JObject members) => own key members
  | Some _ => None
  end.

(** [a ?? b] *)
Definition nullish (a b : option JSON) : option JSON :=
  match a with
  | None | Some JNull => b
  | Some _ => a
  end.

(** An object literal as [JSON.stringify] followed by [JSON.parse] hands it
    over: a member whose value is [undefined] is left out. *)
Fixpoint object (members : list (jsstring * option JSON)) : list (jsstring * JSON) :=
  match members with
  | [] => []
  | (k, Some v) :: members' => (k, v) :: object members'
  | (_, None) :: members' => object members'
  end.

(** ** A parsed value sent on as JSON text and read back

    [JSON.parse(JSON.stringify(v))] for a value [v] that [JSON.parse] built.
    A number is held as the double nearest to what its lexeme denotes, ties
    going to the even one.  A magnitude of [2^1024 - 2^970] or more is held
    as an infinity, which [JSON.stringify] writes as [null].  A negative
    lexeme whose magnitude is [2^-1075] or less is held as [-0], which is
    written as [0].  Everything else is written so that it reads back as the
    value it was. *)

(** The number that a run of digits writes, read after [acc]. *)
Fixpoint digits_value (ds : jsstring) (acc : Z) : Z :=
  match ds with
  | d :: ds' => digits_value ds' (acc * 10 + Z.of_N (d - 0x30))
  | [] => acc
  end.

(** A number lexeme as [(negative, m, e)]: it denotes [m * 10^e], or the
    opposite when [negative]. *)
Definition decimal (lexeme : jsstring) : bool * Z * Z :=
  let '(negative, s) :=
    match lexeme with
    | c :: s' => if (c =? 0x2D)%N then (true, s') else (false, lexeme)
    | [] => (false, [])
    end in
  let '(int, s) := span_digits s in
  let '(frac, s) :=
    match s with
    | c :: s' => if (c =? 0x2E)%N then span_digits s' else ([], s)
    | [] => ([], [])
    end in
  let exp :=
    match s with
    | c :: s' =>
        if ((c =? 0x65) || (c =? 0x45))%N then
          match s' with
          | g :: s'' =>
              if (g =? 0x2D)%N then - digits_value (fst (span_digits s'')) 0
              else if (g =? 0x2B)%N then digits_value (fst (span_digits s'')) 0
              else digits_value (fst (span_digits s')) 0
          | [] => 0
          end
        else 0
    | [] => 0
    end in
  (negative, digits_value (int ++ frac) 0, exp - Z.of_nat (length frac)).

(** [m * 10^e] is held as an infinity. *)
Definition is_infinite (m e : Z) : bool :=
  let limit := 2 ^ 1024 - 2 ^ 970 in
  if 0 <=? e then limit <=? m * 10 ^ e else limit * 10 ^ (- e) <=? m.

(** [m * 10^e] is held as a zero. *)
Definition is_zero (m e : Z) : bool :=
  if 0 <=? e then m =? 0 else m * 2 ^ 1075 <=? 10 ^ (- e).

Definition wire_number (lexeme : jsstring) : JSON :=
  let '(negative, m, e) := decimal lexeme in
  if is_infinite m e then JNull
  else if negative && is_zero m e then JNumber (js "0")
  else JNumber lexeme.

Fixpoint wire (v : JSON) : JSON :=
  match v with
  | JNumber lexeme => wire_number lexeme
  | JArray elems => JArray (List.map wire elems)
  | JObject members => JObject (List.map (fun kv => (fst kv, wire (snd kv))) members)
  | JNull | JBool _ | JString _ => v
  end.

End Json.

(** * The Conversation Store: [MemoryDO] (worker/memory_do.ts) *)
Module MemoryDO.

(** The durable object's transactional key-value storage.  The only key the
    class uses is ["history"], and it only ever holds an array. *)
Abbreviation Storage := (gmap string (list JSON)).

Record Request := {
  method : string;
  pathname : string;
  body : option JSON       (* [None]: [request.json()] rejects *)
}.

Inductive Response : Type :=
| RespHistory (history : list JSON)          (* {history} *)
| RespAppended (size : nat)                  (* {ok: true, size} *)
| RespOk                                     (* {ok: true} *)
| RespNotFound.                              (* "Not found", 404 *)

(** [(await this.state.storage.get("history")) ?? []] *)
Definition load_history (st : Storage) : list JSON :=
  default [] (st !! "history"%string).

(** [async fetch(request)] *)
Definition fetch (req : Request) (st : Storage) : Completion Response * Storage :=
  if decide (method req = "GET"%string ∧ pathname req = "/get"%string) then
    let history := load_history st in
    (Normal (RespHistory history), st)
  else if decide (method req = "POST"%string ∧ pathname req = "/append"%string) then
    match body req with
    | None => (Throw, st)
    | Some msg =>
        let history := load_history st in
        let history := history ++ [msg] in            (* history.push(msg) *)
        let trimmed := slice history (-20) None in
        (Normal (RespAppended (length trimmed)), <["history"%string := trimmed]> st)
    end
  else if decide (method req = "POST"%string ∧ pathname req = "/clear"%string) then
    (Normal RespOk, delete "history"%string st)
  else
    (Normal RespNotFound, st).

(** The namespace [env.MEMORY]: one object, with its own storage, for each
    name given to [idFromName]. *)
Abbreviation Namespace := (gmap jsstring Storage).

Definition storage_of (user : jsstring) (mem : Namespace) : Storage :=
  default ∅ (mem !! user).

(** The object named [user] handles [req]. *)
Definition dispatch (user : jsstring) (req : Request) (mem : Namespace)
  : Completion Response * Namespace :=
  let '(r, st) := fetch req (storage_of user mem) in
  (r, <[user := st]> mem).

End MemoryDO.

(** * The three operations of the Conversation Store, as the Worker calls them *)
Module ConversationStore.

Definition get (user : jsstring) (mem : MemoryDO.Namespace) : Completion MemoryDO.Response :=
  fst (MemoryDO.dispatch user
         {| MemoryDO.method := "GET"; MemoryDO.pathname := "/get"; MemoryDO.body := None |}
         mem).

Definition append (user : jsstring) (mem : MemoryDO.Namespace) (msg : JSON) : MemoryDO.Namespace :=
  snd (MemoryDO.dispatch user
         {| MemoryDO.method := "POST"; MemoryDO.pathname := "/append";
            MemoryDO.body := Some msg |}
         mem).

Definition clear (user : jsstring) (mem : MemoryDO.Namespace) : MemoryDO.Namespace :=
  snd (MemoryDO.dispatch user
         {| MemoryDO.method := "POST"; MemoryDO.pathname := "/clear"; MemoryDO.body := None |}
         mem).

(** A sequence of appends, oldest first. *)
Definition appends (user : jsstring) (msgs : list JSON) (mem : MemoryDO.Namespace)
  : MemoryDO.Namespace :=
  foldl (append user) mem msgs.

(** The history stored for [user]; an object never used has none. *)
Definition stored (user : jsstring) (mem : MemoryDO.Namespace) : option (list JSON) :=
  MemoryDO.storage_of user mem !! "history"%string.

Definition stored_length (user : jsstring) (mem : MemoryDO.Namespace) : nat :=
  length (default [] (stored user mem)).

End ConversationStore.

(** * The Worker (worker/index.ts) *)
Module Worker.

(** ** The decoding half of the stream relay (the body of the inner loops) *)

(** The frame delimiter ["\n\n"]. *)
Definition delimiter : jsstring := [0x0A; 0x0A]%N.

(** One line of a frame: the body of [for (const line of frame.split("\n"))].
    Returns the new value of [full]. *)
Definition process_line (full line : jsstring) : jsstring :=
  let trimmed := trim line in
  if negb (startsWith trimmed (js "data:")) then full
  else
    let payload := trim (slice trimmed 5 None) in
    if bool_decide (payload = []) || bool_decide (payload = js "[DONE]") then full
    else
      match Json.parse payload with
      | None => full                                   (* catch: not JSON *)
      | Some obj =>
          match Json.get obj (js "response") with
          | Normal (Some (JString response)) => full ++ response
          | Normal _ => full
          | Throw => full                              (* catch: obj is null *)
          end
      end.

Definition process_frame (full frame : jsstring) : jsstring :=
  foldl process_line full (split_on 0x0A%N frame).

(** [while ((idx = buffer.indexOf("\n\n")) !== -1) { ... }]: returns the
    final [full] and [buffer]. *)
Equations? drain (full buffer : jsstring) : jsstring * jsstring
  by wf (length buffer) lt :=
  drain full buffer with inspect (indexOf buffer delimiter) => {
    | exist _ idx Hidx with inspect (idx =? -1) => {
        | exist _ true _ => (full, buffer)
        | exist _ false Hne =>
            let frame := slice buffer 0 (Some idx) in
            drain (process_frame full frame) (slice buffer (idx + 2) None) } }.
Proof.
  apply Z.eqb_neq in Hne.
  assert (Hge : forall s k, indexOf_from s delimiter k = -1 \/ k <= indexOf_from s delimiter k).
  { induction s as [|c s IH]; intros k; simpl.
    - left; reflexivity.
    - match goal with |- context [if ?b then _ else _] => destruct b end; [right; lia|].
      destruct (IH (k + 1)); [left; assumption | right; lia]. }
  destruct (Hge buffer 0) as [H|H]; [unfold indexOf in Hne; congruence|].
  fold (indexOf buffer delimiter) in H.
  destruct buffer as [|c buffer]; [exfalso; apply Hne; reflexivity|].
  unfold slice, rel_index. rewrite length_take, length_drop.
  destruct (indexOf (c :: buffer) delimiter + 2 <? 0) eqn:E;
    [apply Z.ltb_lt in E; lia|].
  simpl length. lia.
Qed.

(** ** What a request can observe and change *)

(** Calls on the bindings, in the order they are made. *)
Inductive Event : Type :=
| EvStubFetch (user : jsstring) (req : MemoryDO.Request)
| EvAIRun (messages : list JSON) (stream : bool)
| EvWorkflowCreate (id : jsstring) (goal : option JSON)
| EvWorkflowGet (id : jsstring)
| EvInstanceStatus
| EvClose.                                   (* [controller.close()] *)

(** The outbound [ReadableStream] and its default controller. *)
Inductive StreamState := Readable | Closed | Errored.

Record Controller := {
  state : StreamState;
  queue : list (list byte);        (* the chunks enqueued so far, oldest first *)
  cancel_after : option nat        (* the client cancels on receiving that many chunks *)
}.

Record World := {
  memory : gmap jsstring MemoryDO.Storage;   (* [env.MEMORY], by [idFromName] *)
  stub_faults : list bool;                   (* which [stub.fetch] calls reject, in order *)
  trace : list Event;
  (* the variables of the stream route that its closure updates *)
  full : jsstring;
  buffer : jsstring;
  decoder : TextDecoder.State;
  out : Controller
}.

Definition set_memory (f : gmap jsstring MemoryDO.Storage -> gmap jsstring MemoryDO.Storage)
    (w : World) : World :=
  {| memory := f (memory w); stub_faults := stub_faults w; trace := trace w;
     full := full w; buffer := buffer w; decoder := decoder w; out := out w |}.

Definition set_stub_faults (fs : list bool) (w : World) : World :=
  {| memory := memory w; stub_faults := fs; trace := trace w;
     full := full w; buffer := buffer w; decoder := decoder w; out := out w |}.

Definition log (ev : Event) (w : World) : World :=
  {| memory := memory w; stub_faults := stub_faults w; trace := trace w ++ [ev];
     full := full w; buffer := buffer w; decoder := decoder w; out := out w |}.

Definition set_text (full' buffer' : jsstring) (dec : TextDecoder.State) (w : World) : World :=
  {| memory := memory w; stub_faults := stub_faults w; trace := trace w;
     full := full'; buffer := buffer'; decoder := dec; out := out w |}.

Definition set_out (c : Controller) (w : World) : World :=
  {| memory := memory w; stub_faults := stub_faults w; trace := trace w;
     full := full w; buffer := buffer w; decoder := decoder w; out := c |}.

(** ** Code that changes the world and may throw *)
Definition M (A : Type) : Type := World -> Completion A * World.

Definition ret {A} (a : A) : M A := fun w => (Normal a, w).

Definition throw {A} : M A := fun w => (Throw, w).

Definition bind {A B} (m : M A) (k : A -> M B) : M B :=
  fun w =>
    match m w with
    | (Normal a, w') => k a w'
    | (Throw, w') => (Throw, w')
    end.

(** [try { body } finally { fin }]: [fin] runs whatever [body] did; when it
    throws, that is the outcome. *)
Definition try_finally {A} (body : M A) (fin : M unit) : M A :=
  fun w =>
    let '(r, w1) := body w in
    match fin w1 with
    | (Normal _, w2) => (r, w2)
    | (Throw, w2) => (Throw, w2)
    end.

Definition lift {A} (c : Completion A) : M A := fun w => (c, w).

Definition emit (ev : Event) : M unit := fun w => (Normal tt, log ev w).

Declare Scope worker_scope.
Delimit Scope worker_scope with worker.
Notation "x <- m ;; k" := (bind m (fun x => k))
  (at level 100, m at next level, right associativity) : worker_scope.
Notation "m ;; k" := (bind m (fun _ => k))
  (at level 100, right associativity) : worker_scope.
Local Open Scope worker_scope.

(** ** The bindings *)

(** How the upstream ends: [done], or a rejected [read]. *)
Inductive ReadEnd := EndDone | EndError.

(** What [reader.read()] resolves to, call after call: the chunks, then
    [done], or a rejection. *)
Record Upstream := {
  chunks : list (list byte);
  ending : ReadEnd
}.

Record WorkflowInstance := {
  instance_id : option JSON;
  instance_status : Completion (option JSON)
}.

Record Env := {
  AI_run : list JSON -> Completion (option JSON);         (* without [stream] *)
  AI_run_stream : list JSON -> Completion Upstream;       (* with [stream: true] *)
  client_cancel : option nat;
  randomUUID : jsstring;
  TASK_WORKFLOW_create : jsstring -> option JSON -> Completion WorkflowInstance;
  TASK_WORKFLOW_get : jsstring -> Completion WorkflowInstance
}.

(** [env.MEMORY.get(env.MEMORY.idFromName(user)).fetch(req)]: the object of
    that name handles the request on its own storage, unless the call
    itself fails. *)
Definition stub_fetch (user : jsstring) (req : MemoryDO.Request) : M MemoryDO.Response :=
  fun w =>
    let w := log (EvStubFetch user req) w in
    let '(fault, faults) :=
      match stub_faults w with
      | [] => (false, [])
      | f :: fs => (f, fs)
      end in
    let w := set_stub_faults faults w in
    if fault then (Throw, w)
    else
      let '(r, mem) := MemoryDO.dispatch user req (memory w) in
      (r, set_memory (fun _ => mem) w).

(** [{ role, content }] *)
Definition message (role : string) (content : option JSON) : JSON :=
  JObject (Json.object [(js "role", Some (JString (js role))); (js "content", content)]).

(** The request with the body [JSON.stringify({ role, content })], which the
    object reads with [request.json()]. *)
Definition append_request (role : string) (content : option JSON) : MemoryDO.Request :=
  {| MemoryDO.method := "POST"; MemoryDO.pathname := "/append";
     MemoryDO.body := Some (Json.wire (message role content)) |}.

Definition get_request : MemoryDO.Request :=
  {| MemoryDO.method := "GET"; MemoryDO.pathname := "/get"; MemoryDO.body := None |}.

Definition clear_request : MemoryDO.Request :=
  {| MemoryDO.method := "POST"; MemoryDO.pathname := "/clear"; MemoryDO.body := None |}.

(** [const { history } = await memRes.json()], then spread in an array:
    the history as it reads back from the text of [Response.json]. *)
Definition history_of (r : MemoryDO.Response) : M (list JSON) :=
  match r with
  | MemoryDO.RespHistory history => ret (Json.wire <$> history)
  | _ => throw
  end.

Definition system : JSON :=
  message "system"
    (Some (JString (js "You are a helpful assistant. Use chat history for context. Be concise unless asked otherwise."))).

(** ** The forwarding half of the stream relay *)

Definition new_controller (cancel : option nat) : Controller :=
  {| state := match cancel with Some O => Closed | _ => Readable end;
     queue := []; cancel_after := cancel |}.

(** [controller.enqueue(value)]: a [TypeError] unless the stream is readable. *)
Definition controller_enqueue (value : list byte) : M unit :=
  fun w =>
    let c := out w in
    match state c with
    | Readable =>
        let q := queue c ++ [value] in
        let st := if decide (cancel_after c = Some (length q)) then Closed else Readable in
        (Normal tt, set_out {| state := st; queue := q; cancel_after := cancel_after c |} w)
    | _ => (Throw, w)
    end.

(** [controller.close()]: a [TypeError] unless the stream is readable.  The
    stream is taken to close at the call, as it does when the client has
    read every chunk enqueued. *)
Definition controller_close : M unit :=
  fun w =>
    let w := log EvClose w in
    let c := out w in
    match state c with
    | Readable =>
        (Normal tt, set_out {| state := Closed; queue := queue c;
                               cancel_after := cancel_after c |} w)
    | _ => (Throw, w)
    end.

(** What the stream does when the promise of [start] rejects. *)
Definition controller_error (c : Controller) : Controller :=
  match state c with
  | Readable => {| state := Errored; queue := queue c; cancel_after := cancel_after c |}
  | _ => c
  end.

(** Lines 139 to 163: decode the chunk, extend the buffer, take the frames. *)
Definition feed (value : list byte) : M unit :=
  fun w =>
    let '(chunkText, dec) := TextDecoder.decode value (decoder w) in
    let '(full', buffer') := drain (full w) (buffer w ++ chunkText) in
    (Normal tt, set_text full' buffer' dec w).

(** [while (true) { const { value, done } = await reader.read(); ... }] *)
Fixpoint read_loop (chunks : list (list byte)) (ending : ReadEnd) : M unit :=
  match chunks with
  | [] => match ending with EndDone => ret tt | EndError => throw end
  | value :: rest =>
      controller_enqueue value ;;
      feed value ;;
      read_loop rest ending
  end.

Definition read_full : M jsstring := fun w => (Normal (full w), w).

Definition when (b : bool) (m : M unit) : M unit := if b then m else ret tt.

(** The [finally] block of [start]: the store, best-effort, then the close. *)
Definition finish (user : jsstring) : M unit :=
  full <- read_full ;;
  when (0 <? Z.of_nat (length (trim full)))
    (_ <- stub_fetch user (append_request "assistant" (Some (JString full))) ;;
     ret tt) ;;
  controller_close.

(** [async start(controller) { try { ... } finally { ... } }] *)
Definition start (user : jsstring) (aiStream : Upstream) : M unit :=
  try_finally (read_loop (chunks aiStream) (ending aiStream)) (finish user).

(** [new ReadableStream({ start })]: a rejection of [start] errors the
    stream, it does not reach the caller. *)
Definition new_ReadableStream (cancel : option nat) (start : M unit) : M unit :=
  fun w =>
    match start (set_out (new_controller cancel) w) with
    | (Normal _, w') => (Normal tt, w')
    | (Throw, w') => (Normal tt, set_out (controller_error (out w')) w')
    end.

(** The stream route from [let full] on: the variables, then the
    outbound stream, whose [start] runs the relay. *)
Definition relay (cancel : option nat) (user : jsstring) (aiStream : Upstream) : M unit :=
  (fun w => (Normal tt, set_text [] [] TextDecoder.init w)) ;;
  new_ReadableStream cancel (start user aiStream).

(** ** The handler *)

Record Request := {
  method : string;
  pathname : string;                          (* [url.pathname] *)
  searchParams : list (jsstring * jsstring);  (* [url.searchParams], decoded *)
  body : option JSON                          (* [None]: [request.json()] rejects *)
}.

Inductive Body : Type :=
| BodyNull
| BodyText (text : string)
| BodyJson (value : JSON)
| BodyStream.                                 (* the stream [out] of the world *)

Record Response := {
  status : Z;
  content : Body
}.

(** [Response.json(members)]: the body as it reads back from its text. *)
Definition Response_json (members : list (jsstring * option JSON)) : Response :=
  {| status := 200; content := BodyJson (Json.wire (JObject (Json.object members))) |}.

(** [url.searchParams.get(name)] *)
Fixpoint search_get (name : jsstring) (params : list (jsstring * jsstring)) : option jsstring :=
  match params with
  | [] => None
  | (k, v) :: params' => if decide (k = name) then Some v else search_get name params'
  end.

(** [url.searchParams.get("user") ?? "demo"] *)
Definition userId (req : Request) : jsstring :=
  default (js "demo") (search_get (js "user") (searchParams req)).

(** [const { key } = await request.json()] *)
Definition request_field (req : Request) (key : string) : M (option JSON) :=
  match body req with
  | None => throw
  | Some v => lift (Json.get v (js key))
  end.

Section Handler.

(** [JSON.stringify] of a value; not modelled further. *)
Variable JSON_stringify : JSON -> jsstring.

Variable env : Env.

Definition ai_run (messages : list JSON) : M (option JSON) :=
  emit (EvAIRun messages false) ;; lift (AI_run env messages).

Definition ai_run_stream (messages : list JSON) : M Upstream :=
  emit (EvAIRun messages true) ;; lift (AI_run_stream env messages).

Definition instance_status_of (instance : WorkflowInstance) : M (option JSON) :=
  emit EvInstanceStatus ;; lift (instance_status instance).

(** [POST /api/chat]: store the user message, load the history, call the
    model, store the reply, return the reply. *)
Definition chat (req : Request) : M Response :=
  let user := userId req in
  message <- request_field req "message" ;;
  _ <- stub_fetch user (append_request "user" message) ;;
  memRes <- stub_fetch user get_request ;;
  history <- history_of memRes ;;
  result <- ai_run (system :: history) ;;
  let reply :=
    Json.nullish
      (Json.nullish (Json.get_opt result (js "response"))
                    (Json.get_opt result (js "output_text")))
      (JString <$> (JSON_stringify <$> result)) in
  _ <- stub_fetch user (append_request "assistant" reply) ;;
  ret (Response_json [(js "reply", reply)]).

(** [POST /api/task]: start a workflow instance. *)
Definition task_start (req : Request) : M Response :=
  goal <- request_field req "goal" ;;
  let newId := randomUUID env in
  emit (EvWorkflowCreate newId goal) ;;
  instance <- lift (TASK_WORKFLOW_create env newId goal) ;;
  st <- instance_status_of instance ;;
  ret (Response_json [(js "id", instance_id instance); (js "status", st)]).

(** [GET /api/task?instanceId=...]: the status of an instance. *)
Definition task_poll (req : Request) : M Response :=
  match search_get (js "instanceId") (searchParams req) with
  | None | Some [] =>
      ret {| status := 400; content := BodyText "Missing instanceId" |}
  | Some instanceId =>
      emit (EvWorkflowGet instanceId) ;;
      instance <- lift (TASK_WORKFLOW_get env instanceId) ;;
      st <- instance_status_of instance ;;
      ret (Response_json [(js "status", st)])
  end.

(** [POST /api/clear]: clear the memory. *)
Definition clear (req : Request) : M Response :=
  _ <- stub_fetch (userId req) clear_request ;;
  ret (Response_json [(js "ok", Some (JBool true))]).

(** [POST /api/chat/stream]: store the user message, load the history, ask
    the model for a stream, relay it. *)
Definition chat_stream (req : Request) : M Response :=
  let user := userId req in
  message <- request_field req "message" ;;
  _ <- stub_fetch user (append_request "user" message) ;;
  memRes <- stub_fetch user get_request ;;
  history <- history_of memRes ;;
  aiStream <- ai_run_stream (system :: history) ;;
  relay (client_cancel env) user aiStream ;;
  ret {| status := 200; content := BodyStream |}.

(** [async fetch(request, env)] *)
Definition fetch (req : Request) : M Response :=
  if negb (String.prefix "/api/" (pathname req)) then
    ret {| status := 404; content := BodyNull |}
  else if decide (method req = "POST"%string ∧ pathname req = "/api/chat"%string) then
    chat req
  else if decide (method req = "POST"%string ∧ pathname req = "/api/task"%string) then
    task_start req
  else if decide (method req = "GET"%string ∧ pathname req = "/api/task"%string) then
    task_poll req
  else if decide (method req = "POST"%string ∧ pathname req = "/api/clear"%string) then
    clear req
  else if decide (method req = "POST"%string ∧ pathname req = "/api/chat/stream"%string) then
    chat_stream req
  else
    ret (Response_json [(js "name", Some (JString (js "Cloudflare")))]).

End Handler.

End Worker.

(** * The task workflow (worker/task_workflow.ts) *)
Module TaskWorkflow.

Section Run.

(** Host functions that are not modelled further: the text and the truth
    value of the number a lexeme denotes (floating point), and
    [JSON.stringify]. *)
Variable Number_toString : jsstring -> jsstring.
Variable Number_truthy : jsstring -> bool.
Variable JSON_stringify : JSON -> jsstring.

(** The model, with [stream] absent. *)
Variable AI_run : list JSON -> Completion (option JSON).

(** [String(v)] for a value built by [JSON.parse].  An array joins the
    texts of its elements, [null] giving the empty text.  An object goes
    through [Object.prototype.toString], unless it has a member
    [toString] of its own: that one is not callable, [valueOf] does not
    give a primitive either, and the conversion throws a [TypeError]. *)
Fixpoint ToString (v : JSON) : Completion jsstring :=
  match v with
  | JNull => Normal (js "null")
  | JBool true => Normal (js "true")
  | JBool false => Normal (js "false")
  | JNumber lexeme => Normal (Number_toString lexeme)
  | JString s => Normal s
  | JArray elems =>
      (fix join (l : list JSON) : Completion jsstring :=
         match l with
         | [] => Normal []
         | e :: l' =>
             match (match e with JNull => Normal [] | _ => ToString e end) with
             | Throw => Throw
             | Normal t =>
                 match l' with
                 | [] => Normal t
                 | _ => match join l' with
                        | Throw => Throw
                        | Normal r => Normal (t ++ js "," ++ r)
                        end
                 end
             end
         end) elems
  | JObject members =>
      match Json.own (js "toString") members with
      | Some _ => Throw
      | None => Normal (js "[object Object]")
      end
  end.

(** [String(x)] for [x] possibly [undefined]; also a template literal's
    conversion. *)
Definition String_ (x : option JSON) : Completion jsstring :=
  match x with
  | None => Normal (js "undefined")
  | Some v => ToString v
  end.

(** [ToBoolean] *)
Definition truthy (v : JSON) : bool :=
  match v with
  | JNull => false
  | JBool b => b
  | JNumber lexeme => Number_truthy lexeme
  | JString s => negb (bool_decide (s = []))
  | JArray _ | JObject _ => true
  end.

(** [safeJsonParse(text)]: [null] when [JSON.parse] throws. *)
Definition safeJsonParse (text : jsstring) : JSON :=
  match Json.parse text with
  | Some v => v
  | None => JNull
  end.

(** [list.map((s) => String(s))] *)
Fixpoint map_String (l : list JSON) : Completion (list jsstring) :=
  match l with
  | [] => Normal []
  | s :: l' =>
      match ToString s with
      | Throw => Throw
      | Normal t =>
          match map_String l' with
          | Throw => Throw
          | Normal ts => Normal (t :: ts)
          end
      end
  end.

Definition fallback : list jsstring :=
  [js "Clarify goal"; js "Do the main work"; js "Summarize output"].

(** Lines 35 to 42: from the model's text to the plan. *)
Definition plan_of_text (text : jsstring) : Completion (list jsstring) :=
  let obj := safeJsonParse text in
  let steps : Completion (option (list jsstring)) :=
    if truthy obj then
      match Json.get obj (js "plan") with
      | Normal (Some (JArray plan)) =>
          match map_String plan with
          | Normal ts => Normal (Some (slice ts 0 (Some 3)))
          | Throw => Throw
          end
      | Normal _ => Normal None
      | Throw => Throw
      end
    else Normal None in
  match steps with
  | Normal (Some steps) => Normal steps
  | Normal None => Normal fallback
  | Throw => Throw
  end.

(** [String(r?.response ?? r?.output_text ?? e)], [e] the empty string. *)
Definition text_of (r : option JSON) : Completion jsstring :=
  String_ (Json.nullish
             (Json.nullish (Json.get_opt r (js "response"))
                           (Json.get_opt r (js "output_text")))
             (Some (JString []))).

Definition plan_messages (goal : option JSON) : list JSON :=
  [Worker.message "system"
     (Some (JString (js ("You must respond with ONLY valid JSON of the form {"
                          +:+ quoted "plan" +:+ ":[" +:+ quoted "step 1" +:+ ","
                          +:+ quoted "step 2" +:+ "," +:+ quoted "step 3"
                          +:+ "]}. No extra keys. No prose."))));
   Worker.message "user" goal].

(** The callback of [step.do("plan", ...)]. *)
Definition plan_step (goal : option JSON) : Completion (list jsstring) :=
  match AI_run (plan_messages goal) with
  | Throw => Throw
  | Normal r =>
      match text_of r with
      | Throw => Throw
      | Normal text => plan_of_text text
      end
  end.

(** The callback of [step.do("execute", ...)]. *)
Definition execute_step (goal : option JSON) (plan : list jsstring) : Completion jsstring :=
  match String_ goal with
  | Throw => Throw
  | Normal g =>
      let content :=
        js "Goal: " ++ g ++ [0x0A%N] ++ js "Plan: "
           ++ JSON_stringify (JArray (JString <$> plan)) in
      match AI_run
              [Worker.message "system"
                 (Some (JString (js "Return a concise final answer (max ~8 sentences). Do not repeat the plan. No 'final answer is' phrasing.")));
               Worker.message "user" (Some (JString content))] with
      | Throw => Throw
      | Normal r => text_of r
      end
  end.

Record TaskOutput := {
  plan : list jsstring;
  result : jsstring
}.

(** [run(event, step)] on a new instance: each step's callback runs once. *)
Definition run (goal : option JSON) : Completion TaskOutput :=
  match plan_step goal with
  | Throw => Throw
  | Normal plan =>
      match execute_step goal plan with
      | Throw => Throw
      | Normal result => Normal {| plan := plan; result := result |}
      end
  end.

End Run.

End TaskWorkflow.

(** * The chat page (src/App.tsx) *)
Module App.

Record Msg := {
  role : string;
  content : jsstring
}.

(** The updaters [sendStream] hands to [setMessages]: the one of line 117,
    and the one of lines 156 to 163, which reads [full] when React runs
    it. *)
Inductive Updater : Type :=
| AddTurn (text : jsstring)
| ShowReply.

(** Lines 117 and 156 to 163: an updater run on [prev], while the variable
    [full] holds [full]. *)
Definition apply_updater (full : jsstring) (prev : list Msg) (u : Updater) : list Msg :=
  match u with
  | AddTurn text =>
      prev ++ [ {| role := "user"; content := text |};
                {| role := "assistant"; content := [] |} ]
  | ShowReply =>
      let next := prev in
      let last := (Z.of_nat (length next) - 1)%Z in
      if (0 <=? last)%Z
         && match next !! Z.to_nat last with
            | Some m => String.eqb (role m) "assistant"
            | None => false
            end
      then <[Z.to_nat last := {| role := "assistant"; content := full |}]> next
      else next
  end.

(** The variable [full], and the updaters handed to [setMessages] that
    React has not run yet, oldest first. *)
Record Reply := {
  full : jsstring;
  pending : list Updater
}.

(** Lines 145 to 167, the body of [for (const line of frame.split("\n"))]. *)
Definition process_line (r : Reply) (line : jsstring) : Reply :=
  let trimmed := trim line in
  if negb (startsWith trimmed (js "data:")) then r
  else
    let payload := trim (slice trimmed 5 None) in
    if bool_decide (payload = []) || bool_decide (payload = js "[DONE]") then r
    else
      match Json.parse payload with
      | None => r                                      (* catch *)
      | Some obj =>
          match Json.get obj (js "response") with
          | Normal (Some (JString response)) =>
              {| full := full r ++ response; pending := pending r ++ [ShowReply] |}
          | Normal _ => r
          | Throw => r                                 (* catch: obj is null *)
          end
      end.

Definition process_frame (r : Reply) (frame : jsstring) : Reply :=
  foldl process_line r (split_on 0x0A%N frame).

(** Lines 140 to 169, [while ((idx = buffer.indexOf("\n\n")) !== -1)]. *)
Equations? drain (r : Reply) (buffer : jsstring) : Reply * jsstring
  by wf (length buffer) lt :=
  drain r buffer with inspect (indexOf buffer Worker.delimiter) => {
    | exist _ idx Hidx with inspect (idx =? -1) => {
        | exist _ true _ => (r, buffer)
        | exist _ false Hne =>
            let frame := slice buffer 0 (Some idx) in
            drain (process_frame r frame) (slice buffer (idx + 2) None) } }.
Proof.
  apply Z.eqb_neq in Hne.
  assert (Hge : forall s k, indexOf_from s Worker.delimiter k = -1
                            \/ k <= indexOf_from s Worker.delimiter k).
  { induction s as [|c s IH]; intros k; simpl.
    - left; reflexivity.
    - match goal with |- context [if ?b then _ else _] => destruct b end; [right; lia|].
      destruct (IH (k + 1)); [left; assumption | right; lia]. }
  destruct (Hge buffer 0) as [H|H]; [unfold indexOf in Hne; congruence|].
  fold (indexOf buffer Worker.delimiter) in H.
  destruct buffer as [|c buffer]; [exfalso; apply Hne; reflexivity|].
  unfold slice, rel_index. rewrite length_take, length_drop.
  destruct (indexOf (c :: buffer) Worker.delimiter + 2 <? 0) eqn:E;
    [apply Z.ltb_lt in E; lia|].
  simpl length. lia.
Qed.

(** The state [messages], and what [sendStream] holds in its variables. *)
Record Page := {
  messages : list Msg;
  reply : Reply;
  buffer : jsstring;
  decoder : TextDecoder.State
}.

(** React renders: the pending updaters run in the order they were handed
    over, each on the result of the one before. *)
Definition render (p : Page) : Page :=
  {| messages := foldl (apply_updater (full (reply p))) (messages p) (pending (reply p));
     reply := {| full := full (reply p); pending := [] |};
     buffer := buffer p; decoder := decoder p |}.

(** Lines 137 to 169: one chunk. *)
Definition feed (value : list byte) (p : Page) : Page :=
  let '(chunkText, dec) := TextDecoder.decode value (decoder p) in
  let '(reply', buffer') := drain (reply p) (buffer p ++ chunkText) in
  {| messages := messages p; reply := reply'; buffer := buffer'; decoder := dec |}.

(** Lines 133 to 170, for the reads that give a chunk.  [renders] tells, for
    each [await reader.read()], whether React renders while the page waits.
    The read that ends the loop, by reporting the end or by failing, changes
    neither [full] nor the messages. *)
Fixpoint read_loop (chunks : list (list byte)) (renders : list bool) (p : Page) : Page :=
  match chunks with
  | [] => p
  | value :: chunks' =>
      let p := if hd false renders then render p else p in
      read_loop chunks' (tl renders) (feed value p)
  end.

(** Lines 117 to 131: the page when the loop starts. *)
Definition start (text : jsstring) (messages : list Msg) : Page :=
  {| messages := messages;
     reply := {| full := []; pending := [AddTurn text] |};
     buffer := []; decoder := TextDecoder.init |}.

(** The page once the stream is over and React has rendered, when no other
    handler has changed the messages meanwhile. *)
Definition sendStream (text : jsstring) (messages0 : list Msg)
    (chunks : list (list byte)) (renders : list bool) : Page :=
  render (read_loop chunks renders (start text messages0)).

End App.

(** * Notions used in the statements *)

(** The calls made on the Conversation Store, oldest first. *)
Fixpoint store_calls (tr : list Worker.Event) : list (jsstring * MemoryDO.Request) :=
  match tr with
  | [] => []
  | Worker.EvStubFetch user req :: tr' => (user, req) :: store_calls tr'
  | _ :: tr' => store_calls tr'
  end.

(** The number of calls of [controller.close()]. *)
Fixpoint close_calls (tr : list Worker.Event) : nat :=
  match tr with
  | [] => 0
  | Worker.EvClose :: tr' => S (close_calls tr')
  | _ :: tr' => close_calls tr'
  end.

(** No frame is pending in the line buffer. *)
Definition settled (w : Worker.World) : Prop :=
  indexOf (Worker.buffer w) Worker.delimiter = (-1)%Z.

(** The next call on the store fails. *)
Definition next_call_fails (w : Worker.World) : bool :=
  match Worker.stub_faults w with
  | true :: _ => true
  | _ => false
  end.

(** The world in which [start] begins. *)
Definition relay_start (cancel : option nat) (w : Worker.World) : Worker.World :=
  Worker.set_out (Worker.new_controller cancel) (Worker.set_text [] [] TextDecoder.init w).

(** The [if] of the [finally] block. *)
Definition worth_storing (full : jsstring) : bool :=
  (0 <? Z.of_nat (length (trim full)))%Z.

(** The text that a line of a frame carries for the relay, when it carries
    one (lines 150 to 158): the line, trimmed, starts with [data:]; what
    follows, trimmed, is neither empty nor [[DONE]]; it is JSON; and the
    [response] of the value is a string. *)
Definition data_text (line : jsstring) : option jsstring :=
  let trimmed := trim line in
  if startsWith trimmed (js "data:") then
    let payload := trim (slice trimmed 5 None) in
    if bool_decide (payload = []) || bool_decide (payload = js "[DONE]") then None
    else
      match Json.parse payload with
      | Some obj =>
          match Json.get obj (js "response") with
          | Normal (Some (JString response)) => Some response
          | _ => None
          end
      | None => None
      end
  else None.

(** A recognized frame: one of its lines carries a text. *)
Definition recognized (frame : jsstring) : bool :=
  existsb (fun line => bool_decide (is_Some (data_text line))) (split_on 0x0A%N frame).

(** The frames of a text: the pieces that end at a blank line, taken from
    the left as the relay's inner loop takes them (lines 144 to 146).  What
    follows the last blank line is no frame. *)
Equations? frames (text : jsstring) : list jsstring
  by wf (length text) lt :=
  frames text with inspect (indexOf text Worker.delimiter) => {
    | exist _ idx Hidx with inspect (idx =? -1)%Z => {
        | exist _ true _ => []
        | exist _ false Hne =>
            slice text 0 (Some idx) :: frames (slice text (idx + 2) None) } }.
Proof.
  apply Z.eqb_neq in Hne.
  assert (Hge : forall s k, indexOf_from s Worker.delimiter k = (-1)%Z
                            \/ (k <= indexOf_from s Worker.delimiter k)%Z).
  { induction s as [|c s IH]; intros k; simpl.
    - left; reflexivity.
    - match goal with |- context [if ?b then _ else _] => destruct b end; [right; lia|].
      destruct (IH (k + 1)%Z); [left; assumption | right; lia]. }
  destruct (Hge text 0%Z) as [H|H]; [unfold indexOf in Hne; congruence|].
  fold (indexOf text Worker.delimiter) in H.
  destruct text as [|c text]; [exfalso; apply Hne; reflexivity|].
  unfold slice, rel_index. rewrite length_take, length_drop.
  destruct (indexOf (c :: text) Worker.delimiter + 2 <? 0)%Z eqn:E;
    [apply Z.ltb_lt in E; lia|].
  simpl length. lia.
Qed.

(** The text of everything the upstream sends. *)
Definition upstream_text (ups : Worker.Upstream) : jsstring :=
  fst (TextDecoder.decode (concat (Worker.chunks ups)) TextDecoder.init).

(** The world with another queue of forwarded chunks. *)
Definition requeue (q : list (list byte)) (w : Worker.World) : Worker.World :=
  Worker.set_out {| Worker.state := Worker.state (Worker.out w); Worker.queue := q;
                    Worker.cancel_after := Worker.cancel_after (Worker.out w) |} w.

(** Code that neither reads nor writes the queue. *)
Definition queue_blind {A} (m : Worker.M A) : Prop :=
  ∀ q w, m (requeue q w) = (fst (m w), requeue q (snd (m w))).

(** The outcome of the read loop, by the way the upstream ends. *)
Definition loop_exit (e : Worker.ReadEnd) : Completion unit :=
  match e with Worker.EndDone => Normal tt | Worker.EndError => Throw end.

(** The request has no [instanceId], or an empty one. *)
Definition search_get_missing (req : Worker.Request) : Prop :=
  Worker.search_get (js "instanceId") (Worker.searchParams req) = None
  ∨ Worker.search_get (js "instanceId") (Worker.searchParams req) = Some [].

(** The route and method pairs that [fetch] tests for. *)
Definition defined_routes : list (string * string) :=
  [("POST", "/api/chat"); ("POST", "/api/task"); ("GET", "/api/task");
   ("POST", "/api/clear"); ("POST", "/api/chat/stream")]%string.

(** Code whose calls on the store all go to [user], and which leaves the
    storage of every other identity as it is. *)
Definition confined {A} (user : jsstring) (m : Worker.M A) : Prop :=
  ∀ w, let w' := snd (m w) in
       (∃ calls, store_calls (Worker.trace w') = store_calls (Worker.trace w) ++ calls
                 ∧ Forall (fun c => fst c = user) calls)
       ∧ ∀ other, other ≠ user -> Worker.memory w' !! other = Worker.memory w !! other.

(** ** Sample inputs *)
Module Sample.

Definition newline : string := String "010"%char EmptyString.

Definition frame (payload : string) : string :=
  "data: " +:+ payload +:+ newline +:+ newline.

(** [{"response":text}] *)
Definition response (text : string) : string :=
  "{" +:+ quoted "response" +:+ ":" +:+ quoted text +:+ "}".

Definition frame1 : list byte := list_byte_of_string (frame (response "Hel")).
Definition frame2 : list byte := list_byte_of_string (frame (response "lo")).
Definition frame3 : list byte := list_byte_of_string (frame "[DONE]").

Definition messages : list JSON := (fun n => JString [N.of_nat n]) <$> seq 0 25.

Definition world : Worker.World :=
  {| Worker.memory := ∅; Worker.stub_faults := []; Worker.trace := [];
     Worker.full := []; Worker.buffer := []; Worker.decoder := TextDecoder.init;
     Worker.out := Worker.new_controller None |}.

(** The first frame of the example without the blank line after it. *)
Definition unfinished_frame : list byte :=
  list_byte_of_string ("data: " +:+ response "Hel" +:+ newline).

(** A frame whose text is one space. *)
Definition blank_frame : list byte := list_byte_of_string (frame (response " ")).

(** An upstream with data lines that the relay does not recognise: one
    that is not JSON, the end marker, and a value without [response]. *)
Definition unrecognized_upstream : Worker.Upstream :=
  {| Worker.chunks :=
       [list_byte_of_string (frame "hello");
        list_byte_of_string (frame "[DONE]");
        list_byte_of_string (frame ("{" +:+ quoted "text" +:+ ":" +:+ quoted "Hel" +:+ "}"))];
     Worker.ending := Worker.EndDone |}.

(** The same, with a store whose next call fails. *)
Definition failing_world : Worker.World := Worker.set_stub_faults [true] world.

(** The three frames in one piece, and cut inside the first payload and
    inside the second frame. *)
Definition whole : list byte := frame1 ++ frame2 ++ frame3.

Definition rechunked : list (list byte) :=
  [take 13 whole; take 27 (drop 13 whole); drop 40 whole].

(** A model output with a plan whose one item is an object that has a
    member [toString]: [{"plan":[{"toString":0}]}]. *)
Definition bad_plan : string :=
  "{" +:+ quoted "plan" +:+ ":[{" +:+ quoted "toString" +:+ ":0}]}".

(** A model output with five steps. *)
Definition five_steps : string :=
  "{" +:+ quoted "plan" +:+ ":[" +:+ quoted "a" +:+ "," +:+ quoted "b" +:+ ","
      +:+ quoted "c" +:+ "," +:+ quoted "d" +:+ "," +:+ quoted "e" +:+ "]}".

(** A model output that is JSON but has its steps under another name. *)
Definition no_plan : string := "{" +:+ quoted "steps" +:+ ":[]}".

(** A model that answers with that text. *)
Definition bad_model (messages : list JSON) : Completion (option JSON) :=
  Normal (Some (JObject [(js "response", JString (js bad_plan))])).

(** A model that answers with an object that has no text. *)
Definition silent_model (messages : list JSON) : Completion (option JSON) :=
  Normal (Some (JObject [(js "usage", JObject [])])).

(** [JSON.stringify] is not called on the sample requests. *)
Definition stringify (v : JSON) : jsstring := [].

(** [POST /api/chat] with the body [{"message":1e400}]. *)
Definition chat_huge : Worker.Request :=
  {| Worker.method := "POST"; Worker.pathname := "/api/chat";
     Worker.searchParams := [];
     Worker.body := Json.parse (js ("{" +:+ quoted "message" +:+ ":1e400}")) |}.

(** [POST /api/chat] with the body [{}]: no [message]. *)
Definition chat_without_message : Worker.Request :=
  {| Worker.method := "POST"; Worker.pathname := "/api/chat";
     Worker.searchParams := []; Worker.body := Some (JObject []) |}.

(** [POST /api/chat] with the message [hi] and no [user]. *)
Definition chat_hi : Worker.Request :=
  {| Worker.method := "POST"; Worker.pathname := "/api/chat";
     Worker.searchParams := [];
     Worker.body := Some (JObject [(js "message", JString (js "hi"))]) |}.

(** [POST /api/chat/stream?user=alice] with the message [hi]. *)
Definition stream_hi_alice : Worker.Request :=
  {| Worker.method := "POST"; Worker.pathname := "/api/chat/stream";
     Worker.searchParams := [(js "user", js "alice")];
     Worker.body := Some (JObject [(js "message", JString (js "hi"))]) |}.

(** [POST /api/clear?user=alice] *)
Definition clear_alice : Worker.Request :=
  {| Worker.method := "POST"; Worker.pathname := "/api/clear";
     Worker.searchParams := [(js "user", js "alice")]; Worker.body := None |}.

(** [POST /api/chat] with a body that is not JSON. *)
Definition chat_not_json : Worker.Request :=
  {| Worker.method := "POST"; Worker.pathname := "/api/chat";
     Worker.searchParams := []; Worker.body := None |}.

(** A model that fails. *)
Definition failing_env : Worker.Env :=
  {| Worker.AI_run := fun _ => Throw;
     Worker.AI_run_stream := fun _ => Throw;
     Worker.client_cancel := None;
     Worker.randomUUID := js "00000000-0000-4000-8000-000000000000";
     Worker.TASK_WORKFLOW_create := fun _ _ => Throw;
     Worker.TASK_WORKFLOW_get := fun _ => Throw |}.

(** [POST /api/task] with the body [{}]: no [goal]. *)
Definition task_without_goal : Worker.Request :=
  {| Worker.method := "POST"; Worker.pathname := "/api/task";
     Worker.searchParams := []; Worker.body := Some (JObject []) |}.

(** [POST /api/chat/stream] with the body [{}]: no [message]. *)
Definition stream_without_message : Worker.Request :=
  {| Worker.method := "POST"; Worker.pathname := "/api/chat/stream";
     Worker.searchParams := []; Worker.body := Some (JObject []) |}.

(** [GET /api/task] with no [instanceId]. *)
Definition poll_without_id : Worker.Request :=
  {| Worker.method := "GET"; Worker.pathname := "/api/task";
     Worker.searchParams := []; Worker.body := None |}.

(** [GET /api/nothing] *)
Definition unknown_route : Worker.Request :=
  {| Worker.method := "GET"; Worker.pathname := "/api/nothing";
     Worker.searchParams := []; Worker.body := None |}.

(** [GET /index.html] *)
Definition page : Worker.Request :=
  {| Worker.method := "GET"; Worker.pathname := "/index.html";
     Worker.searchParams := []; Worker.body := None |}.

Definition env : Worker.Env :=
  {| Worker.AI_run := fun _ => Normal (Some (JObject [(js "response", JString (js "Hi"))]));
     Worker.AI_run_stream := fun _ =>
       Normal {| Worker.chunks := [frame1; frame2; frame3]; Worker.ending := Worker.EndDone |};
     Worker.client_cancel := None;
     Worker.randomUUID := js "00000000-0000-4000-8000-000000000000";
     Worker.TASK_WORKFLOW_create := fun id _ =>
       Normal {| Worker.instance_id := Some (JString id);
                 Worker.instance_status := Normal (Some (JString (js "queued"))) |};
     Worker.TASK_WORKFLOW_get := fun id =>
       Normal {| Worker.instance_id := Some (JString id);
                 Worker.instance_status := Normal (Some (JString (js "running"))) |} |}.

End Sample.

(** * Further notions *)

(** Any traffic on the namespace: each call names the object and the request. *)
Definition run_calls (calls : list (jsstring * MemoryDO.Request)) (mem : MemoryDO.Namespace)
  : MemoryDO.Namespace :=
  foldl (fun m c => snd (MemoryDO.dispatch (fst c) (snd c) m)) mem calls.

(** The requests that write: an append with a body, and a clear. *)
Definition writes (req : MemoryDO.Request) : Prop :=
  MemoryDO.method req = "POST"%string
  ∧ ((MemoryDO.pathname req = "/append"%string ∧ MemoryDO.body req ≠ None)
     ∨ MemoryDO.pathname req = "/clear"%string).

(** The three text variables of the relay. *)
Definition text_state (w : Worker.World) : jsstring * jsstring * TextDecoder.State :=
  (Worker.full w, Worker.buffer w, Worker.decoder w).

(** The transcript the relay accumulates from the whole input [bytes]. *)
Definition transcript (bytes : list byte) : jsstring :=
  fst (Worker.drain [] (fst (TextDecoder.decode bytes TextDecoder.init))).

(** Code that makes no call on the store and leaves it as it is. *)
Definition storeless {A} (m : Worker.M A) : Prop :=
  ∀ w, Worker.memory (snd (m w)) = Worker.memory w
       ∧ store_calls (Worker.trace (snd (m w))) = store_calls (Worker.trace w).

(** The routes that read a JSON body. *)
Definition body_routes : list string :=
  ["/api/chat"; "/api/task"; "/api/chat/stream"]%string.

(** The [plan] array of a model output, when the output is JSON for an
    object whose [plan] is an array. *)
Definition parsed_plan (text : jsstring) : option (list JSON) :=
  match Json.parse text with
  | Some (JObject members) =>
      match Json.own (js "plan") members with
      | Some (JArray items) => Some items
      | _ => None
      end
  | _ => None
  end.

(** A value that is an object with a member [toString] of its own, or an
    array with such a value among its elements, at any depth of arrays. *)
Fixpoint unconvertible (v : JSON) : bool :=
  match v with
  | JObject members => bool_decide (is_Some (Json.own (js "toString") members))
  | JArray elems =>
      (fix any (l : list JSON) : bool :=
         match l with
         | [] => false
         | e :: l' => unconvertible e || any l'
         end) elems
  | _ => false
  end.

(** [undefined] or [null]. *)
Definition nullish_value (x : option JSON) : Prop := x = None ∨ x = Some JNull.

(** The two messages of a turn, as the page shows them. *)
Definition turn (text reply : jsstring) : list App.Msg :=
  [ {| App.role := "user"; App.content := text |};
    {| App.role := "assistant"; App.content := reply |} ].

(** What the page's loop holds in [full], [buffer] and the decoder. *)
Definition page_text (p : App.Page) : jsstring * jsstring * TextDecoder.State :=
  (App.full (App.reply p), App.buffer p, App.decoder p).

(** The same for a loop that has read [bytes] from the start. *)
Definition text_after (bytes : list byte) : jsstring * jsstring * TextDecoder.State :=
  let '(t, st) := TextDecoder.decode bytes TextDecoder.init in
  let '(f, b) := Worker.drain [] t in
  (f, b, st).

(** The page is in the middle of the turn [text], begun on the messages
    [m]: the turn is on screen or about to be, and what will be on screen
    after the next render is the current [full]. *)
Definition mid_turn (text : jsstring) (m : list App.Msg) (p : App.Page) : Prop :=
  ∃ k : nat,
    (App.messages p = m
     ∧ App.pending (App.reply p) = App.AddTurn text :: replicate k App.ShowReply
     ∧ (k = 0%nat -> App.full (App.reply p) = []))
    ∨ (∃ c, App.messages p = m ++ turn text c
            ∧ App.pending (App.reply p) = replicate k App.ShowReply
            ∧ (k = 0%nat -> c = App.full (App.reply p))).

(** From [r] to [r'] the page's loop has brought [full] to [full'], and has
    handed over a [ShowReply] whenever it changed [full]. *)
Definition follows (r r' : App.Reply) (full' : jsstring) : Prop :=
  App.full r' = full'
  ∧ ∃ k : nat, App.pending r' = App.pending r ++ replicate k App.ShowReply
               ∧ (k = 0%nat -> full' = App.full r).


(** * Properties *)

Local Open Scope nat_scope.

(** ** The built-ins on small inputs *)

Example indexOf_examples :
  indexOf (js "abcabc") (js "ca") = 2%Z
  ∧ indexOf (js "abc") (js "x") = (-1)%Z
  ∧ indexOf (js "abc") [] = 0%Z.
Proof. repeat split. Qed.

Example split_examples :
  split_on 0x0A%N (js "a" ++ [0x0A; 0x0A]%N ++ js "b") = [js "a"; []; js "b"]
  ∧ split_on 0x0A%N [] = [[]].
Proof. repeat split. Qed.

Example trim_examples :
  trim (js "  a b  ") = js "a b"
  ∧ trim ([0x09; 0x0A; 0xA0; 0x2028; 0xFEFF]%N ++ js "x" ++ [0x0D; 0x3000]%N) = js "x"
  ∧ trim (js "   ") = [].
Proof. repeat split. Qed.

Example slice_examples :
  slice [1; 2; 3; 4; 5] (-2) None = [4; 5]
  ∧ slice [1; 2; 3; 4; 5] 1 (Some 3%Z) = [2; 3]
  ∧ slice [1; 2] (-20) None = [1; 2]
  ∧ slice [1; 2; 3; 4; 5] 0 (Some 3%Z) = [1; 2; 3]
  ∧ slice [1; 2] 0 (Some 3%Z) = [1; 2].
Proof. repeat split. Qed.

(** A scalar value of three bytes cut after its second byte, a pair of
    surrogates, a byte order mark, and bytes that are not UTF-8. *)
Example decode_examples :
  fst (TextDecoder.decode [xe2; x82] TextDecoder.init) = []
  ∧ fst (TextDecoder.decode [xac; x41]
           (snd (TextDecoder.decode [xe2; x82] TextDecoder.init))) = [0x20AC; 0x41]%N
  ∧ fst (TextDecoder.decode [xf0; x9f; x98; x80] TextDecoder.init) = [0xD83D; 0xDE00]%N
  ∧ fst (TextDecoder.decode [xef; xbb; xbf; x41] TextDecoder.init) = [0x41]%N
  ∧ fst (TextDecoder.decode [xff; xc3; x41; xed; xa0; x80] TextDecoder.init)
    = [0xFFFD; 0xFFFD; 0x41; 0xFFFD; 0xFFFD; 0xFFFD]%N.
Proof. repeat split. Qed.

Example parse_examples :
  Json.parse (js (Sample.response "Hel")) = Some (JObject [(js "response", JString (js "Hel"))])
  ∧ Json.parse (js " [1, -2.5e10, true, null, {}, []] ")
    = Some (JArray [JNumber (js "1"); JNumber (js "-2.5e10"); JBool true; JNull;
                    JObject []; JArray []])
  ∧ Json.parse (js (quoted "a\nbA")) = Some (JString [0x61; 0x0A; 0x62; 0x41]%N)
  ∧ Json.parse (js "[DONE]") = None
  ∧ Json.parse (js "[1,]") = None
  ∧ Json.parse (js "01") = None
  ∧ Json.parse (js "{} x") = None
  ∧ Json.parse [] = None.
Proof. repeat split. Qed.

(** The lines of a frame that count, and those that do not. *)
Example process_line_examples :
  Worker.process_line (js "Hel") (js ("data: " +:+ Sample.response "lo")) = js "Hello"
  ∧ Worker.process_line (js "Hel") (js ("  data:" +:+ Sample.response "lo" +:+ "  ")) = js "Hello"
  ∧ Worker.process_line (js "Hel") (js "data: [DONE]") = js "Hel"
  ∧ Worker.process_line (js "Hel") (js "data:") = js "Hel"
  ∧ Worker.process_line (js "Hel") (js "data: null") = js "Hel"
  ∧ Worker.process_line (js "Hel") (js "data: {not json") = js "Hel"
  ∧ Worker.process_line (js "Hel") (js "event: x") = js "Hel"
  ∧ Worker.process_line (js "Hel") (js "data: {" ++ js (quoted "response") ++ js ":1}") = js "Hel".
Proof. vm_compute. repeat split. Qed.

(** ** The Conversation Store *)

Section StoreFacts.

Context {A : Type}.
Implicit Types l h : list A.

(** [slice(-20)] keeps the last 20 elements. *)
Lemma slice_last_20 l : slice l (-20) None = drop (length l - 20) l.
Proof.
  unfold slice, rel_index. simpl.
  replace (Z.to_nat (Z.max (Z.of_nat (length l) + -20) 0)) with (length l - 20) by lia.
  apply take_ge. rewrite length_drop. lia.
Qed.

Lemma slice_last_20_length l : length (slice l (-20) None) <= 20.
Proof. rewrite slice_last_20, length_drop. lia. Qed.

(** Trimming before and after a push is trimming after it. *)
Lemma slice_last_20_push l x :
  slice (slice l (-20) None ++ [x]) (-20) None = slice (l ++ [x]) (-20) None.
Proof.
  rewrite !slice_last_20, !length_app, length_drop. simpl.
  destruct (decide (length l <= 20)) as [Hle|Hgt].
  - replace (length l - 20) with 0 by lia. rewrite Nat.sub_0_r. reflexivity.
  - replace (length l - (length l - 20) + 1 - 20) with 1 by lia.
    replace (length l + 1 - 20) with (S (length l - 20)) by lia.
    rewrite !drop_app_le by (rewrite ?length_drop; lia).
    rewrite drop_drop. do 2 f_equal. lia.
Qed.

End StoreFacts.

Lemma dispatch_get user mem :
  ConversationStore.get user mem
  = Normal (MemoryDO.RespHistory (default [] (ConversationStore.stored user mem))).
Proof. reflexivity. Qed.

Lemma stored_append user mem msg :
  ConversationStore.stored user (ConversationStore.append user mem msg)
  = Some (slice (default [] (ConversationStore.stored user mem) ++ [msg]) (-20) None).
Proof.
  unfold ConversationStore.stored, ConversationStore.append, MemoryDO.dispatch,
    MemoryDO.storage_of, MemoryDO.fetch, MemoryDO.load_history. simpl.
  rewrite lookup_insert_eq. simpl. rewrite lookup_insert_eq. reflexivity.
Qed.

Lemma stored_clear user mem :
  ConversationStore.stored user (ConversationStore.clear user mem) = None.
Proof.
  unfold ConversationStore.stored, ConversationStore.clear, MemoryDO.dispatch,
    MemoryDO.storage_of, MemoryDO.fetch. simpl.
  rewrite lookup_insert_eq. simpl. apply lookup_delete_eq.
Qed.

(** Another identity's history is out of reach. *)
Lemma stored_append_other user other mem msg :
  other ≠ user ->
  ConversationStore.stored other (ConversationStore.append user mem msg)
  = ConversationStore.stored other mem.
Proof.
  intros Hne.
  unfold ConversationStore.stored, ConversationStore.append, MemoryDO.dispatch,
    MemoryDO.storage_of. simpl.
  rewrite lookup_insert_ne by congruence. reflexivity.
Qed.

(** Whatever the request, an object whose history is within the bound keeps
    it within the bound, and no other object is touched. *)
Lemma dispatch_keeps_bound user req mem :
  ConversationStore.stored_length user mem <= 20 ->
  ConversationStore.stored_length user (snd (MemoryDO.dispatch user req mem)) <= 20.
Proof.
  intros Hb.
  unfold ConversationStore.stored_length, ConversationStore.stored, MemoryDO.dispatch in *.
  destruct (MemoryDO.fetch req (MemoryDO.storage_of user mem)) as [r st] eqn:E. cbn [snd].
  unfold MemoryDO.storage_of at 1. rewrite lookup_insert_eq. cbn [default from_option id].
  unfold MemoryDO.fetch in E.
  repeat (destruct (decide _) as [_|_] in E); try destruct (MemoryDO.body req);
    injection E as <- <-; try exact Hb;
    rewrite ?lookup_insert_eq, ?lookup_delete_eq; cbn [default from_option id length];
    first [apply slice_last_20_length|lia|exact Hb].
Qed.

Lemma dispatch_other user other req mem :
  other ≠ user ->
  ConversationStore.stored other (snd (MemoryDO.dispatch user req mem))
  = ConversationStore.stored other mem.
Proof.
  intros Hne. unfold ConversationStore.stored, MemoryDO.dispatch, MemoryDO.storage_of.
  destruct (MemoryDO.fetch _ _). cbn. rewrite lookup_insert_ne by congruence. reflexivity.
Qed.

Lemma appends_snoc user msgs msg mem :
  ConversationStore.appends user (msgs ++ [msg]) mem
  = ConversationStore.append user (ConversationStore.appends user msgs mem) msg.
Proof. unfold ConversationStore.appends. apply foldl_snoc. Qed.

(** After at least one append the history is the last 20 of what was there
    followed by what was appended. *)
Lemma stored_appends user msgs mem :
  msgs ≠ [] ->
  ConversationStore.stored user (ConversationStore.appends user msgs mem)
  = Some (slice (default [] (ConversationStore.stored user mem) ++ msgs) (-20) None).
Proof.
  induction msgs as [|msg msgs IH] using rev_ind; [congruence|]. intros _.
  rewrite appends_snoc, stored_append.
  destruct (decide (msgs = [])) as [->|Hne].
  - reflexivity.
  - rewrite IH by assumption. simpl. rewrite slice_last_20_push, app_assoc. reflexivity.
Qed.

(** C1.  After more than 20 appends to one identity, whatever was stored
    before, [get] returns exactly the last 20 appended messages in the order
    they were appended; and after each of the appends the stored history has
    at most 20 entries. *)
Theorem append_keeps_last_20 (user : jsstring) (mem : MemoryDO.Namespace) (msgs : list JSON) :
  20 < length msgs ->
  ConversationStore.get user (ConversationStore.appends user msgs mem)
  = Normal (MemoryDO.RespHistory (drop (length msgs - 20) msgs))
  ∧ ∀ k, 0 < k <= length msgs ->
      ConversationStore.stored_length user
        (ConversationStore.appends user (take k msgs) mem) <= 20.
Proof.
  intros Hlen. split.
  - rewrite dispatch_get, stored_appends by (intros ->; simpl in Hlen; lia).
    simpl. generalize (default [] (ConversationStore.stored user mem)). intros h.
    rewrite slice_last_20, length_app.
    rewrite drop_app_ge by lia. do 3 f_equal. lia.
  - intros k Hk. unfold ConversationStore.stored_length.
    rewrite stored_appends.
    + simpl. apply slice_last_20_length.
    + intros E. apply (f_equal length) in E. rewrite length_take in E. simpl in E. lia.
Qed.

Lemma append_keeps_last_20_witness :
  20 < length Sample.messages
  ∧ (ConversationStore.get (js "demo") (ConversationStore.appends (js "demo") Sample.messages ∅)
     = Normal (MemoryDO.RespHistory (drop (length Sample.messages - 20) Sample.messages))
     ∧ ∀ k, 0 < k <= length Sample.messages ->
         ConversationStore.stored_length (js "demo")
           (ConversationStore.appends (js "demo") (take k Sample.messages) ∅) <= 20).
Proof.
  split; [simpl; lia|].
  apply (append_keeps_last_20 (js "demo") ∅ Sample.messages). simpl; lia.
Defined.

(** C8.  [clear] followed by [get] returns an empty history, whatever was
    stored; and for an identity with no stored history [get] returns an empty
    history rather than failing. *)
Theorem clear_then_get_is_empty (user : jsstring) (mem : MemoryDO.Namespace) :
  ConversationStore.get user (ConversationStore.clear user mem)
  = Normal (MemoryDO.RespHistory [])
  ∧ (ConversationStore.stored user mem = None ->
     ConversationStore.get user mem = Normal (MemoryDO.RespHistory [])).
Proof.
  split.
  - rewrite dispatch_get, stored_clear. reflexivity.
  - intros Hnone. rewrite dispatch_get, Hnone. reflexivity.
Qed.

Lemma clear_then_get_is_empty_witness :
  ConversationStore.stored (js "demo") ∅ = None
  ∧ ConversationStore.get (js "demo") ∅ = Normal (MemoryDO.RespHistory []).
Proof.
  split; [reflexivity|].
  apply (clear_then_get_is_empty (js "demo") ∅). reflexivity.
Defined.

(** ** The stream relay: frames *)

Lemma startsWith_app s t needle :
  length needle <= length s -> startsWith (s ++ t) needle = startsWith s needle.
Proof.
  revert s. induction needle as [|p needle IH]; intros [|c s] Hlen; simpl in *;
    try reflexivity; try lia.
  - destruct t; reflexivity.
  - rewrite IH by lia. reflexivity.
Qed.

Lemma startsWith_length s needle :
  startsWith s needle = true -> length needle <= length s.
Proof.
  revert s. induction needle as [|p needle IH]; intros [|c s]; simpl;
    try lia; try discriminate.
  intros [_ H]%andb_true_iff. apply IH in H. lia.
Qed.

(** Where [indexOf] finds the needle, the needle fits. *)
Lemma indexOf_from_bounds s needle k :
  indexOf_from s needle k = (-1)%Z
  ∨ (k <= indexOf_from s needle k
     ∧ indexOf_from s needle k - k + Z.of_nat (length needle) <= Z.of_nat (length s))%Z.
Proof.
  revert k. induction s as [|c s IH]; intros k.
  - cbn [indexOf_from]. destruct (startsWith [] needle) eqn:E; [|left; reflexivity].
    right. apply startsWith_length in E. simpl in E. lia.
  - cbn [indexOf_from]. destruct (startsWith (c :: s) needle) eqn:E.
    + right. apply startsWith_length in E. lia.
    + destruct (IH (k + 1)%Z) as [H|H]; [left; assumption|right].
      cbn [length]. lia.
Qed.

(** Text added at the end does not move the first occurrence. *)
Lemma indexOf_from_app s t needle k :
  (0 <= k)%Z -> indexOf_from s needle k ≠ (-1)%Z ->
  indexOf_from (s ++ t) needle k = indexOf_from s needle k.
Proof.
  revert k. induction s as [|c s IH]; intros k Hk Hfound.
  - cbn [indexOf_from] in Hfound. destruct (startsWith [] needle) eqn:E; [|congruence].
    destruct needle; [|discriminate]. destruct t; reflexivity.
  - cbn [indexOf_from app] in *. change (c :: s ++ t) with ((c :: s) ++ t).
    destruct (startsWith (c :: s) needle) eqn:E.
    + rewrite startsWith_app, E by (apply startsWith_length; assumption). reflexivity.
    + destruct (indexOf_from_bounds s needle (k + 1)) as [H|H]; [congruence|].
      rewrite startsWith_app, E by (cbn [length]; lia).
      apply IH; [lia|assumption].
Qed.

Lemma indexOf_app s t needle :
  indexOf s needle ≠ (-1)%Z -> indexOf (s ++ t) needle = indexOf s needle.
Proof. apply indexOf_from_app. lia. Qed.

Lemma indexOf_bounds s needle :
  indexOf s needle = (-1)%Z
  ∨ (0 <= indexOf s needle
     ∧ indexOf s needle + Z.of_nat (length needle) <= Z.of_nat (length s))%Z.
Proof.
  unfold indexOf. destruct (indexOf_from_bounds s needle 0) as [H|H]; [left|right]; lia.
Qed.

Lemma slice_prefix {A} (l : list A) (i : Z) :
  (0 <= i <= Z.of_nat (length l))%Z -> slice l 0 (Some i) = take (Z.to_nat i) l.
Proof.
  intros Hi. unfold slice, rel_index. simpl.
  destruct (i <? 0)%Z eqn:E; [apply Z.ltb_lt in E; lia|].
  rewrite drop_0. f_equal. lia.
Qed.

Lemma slice_suffix {A} (l : list A) (i : Z) :
  (0 <= i <= Z.of_nat (length l))%Z -> slice l i None = drop (Z.to_nat i) l.
Proof.
  intros Hi. unfold slice, rel_index.
  destruct (i <? 0)%Z eqn:E; [apply Z.ltb_lt in E; lia|].
  replace (Nat.min (Z.to_nat i) (length l)) with (Z.to_nat i) by lia.
  apply take_ge. rewrite length_drop. lia.
Qed.

(** One turn of the [while] loop. *)
Lemma drain_step full buffer :
  Worker.drain full buffer
  = let idx := indexOf buffer Worker.delimiter in
    if (idx =? -1)%Z then (full, buffer)
    else Worker.drain (Worker.process_frame full (slice buffer 0 (Some idx)))
                      (slice buffer (idx + 2) None).
Proof.
  simp drain. unfold inspect at 1. simp drain. cbn zeta.
  generalize (inspect (indexOf buffer Worker.delimiter =? -1)%Z).
  intros [b Hb]. destruct b; simp drain; rewrite Hb; reflexivity.
Qed.

(** The loop leaves no frame in the buffer. *)
Lemma drain_settled full buffer :
  indexOf (snd (Worker.drain full buffer)) Worker.delimiter = (-1)%Z.
Proof.
  remember (length buffer) as n eqn:Hn.
  revert full buffer Hn. induction n as [n IH] using lt_wf_ind. intros full buffer ->.
  rewrite drain_step. cbn zeta.
  destruct (indexOf buffer Worker.delimiter =? -1)%Z eqn:E.
  - apply Z.eqb_eq in E. exact E.
  - apply Z.eqb_neq in E.
    destruct (indexOf_bounds buffer Worker.delimiter) as [H|[H0 H2]]; [congruence|].
    simpl length in H2.
    eapply IH; [|reflexivity].
    rewrite slice_suffix, length_drop by lia. lia.
Qed.

(** Frames are taken from the front: text that arrives later does not change
    the frames already complete. *)
Lemma drain_app full buffer t :
  Worker.drain full (buffer ++ t)
  = let '(f, b) := Worker.drain full buffer in Worker.drain f (b ++ t).
Proof.
  remember (length buffer) as n eqn:Hn.
  revert full buffer Hn. induction n as [n IH] using lt_wf_ind. intros full buffer ->.
  rewrite (drain_step full buffer). cbn zeta.
  destruct (indexOf buffer Worker.delimiter =? -1)%Z eqn:E; [reflexivity|].
  pose proof E as Hfound. apply Z.eqb_neq in Hfound.
  destruct (indexOf_bounds buffer Worker.delimiter) as [H|[H0 H2]]; [congruence|].
  simpl length in H2.
  rewrite (drain_step full (buffer ++ t)). cbn zeta.
  rewrite indexOf_app, E by assumption.
  rewrite (slice_prefix (buffer ++ t)), (slice_suffix (buffer ++ t))
    by (rewrite length_app; lia).
  rewrite take_app_le, drop_app_le by lia.
  rewrite <- slice_prefix, <- slice_suffix by lia.
  eapply IH; [|reflexivity].
  rewrite slice_suffix, length_drop by lia. lia.
Qed.

(** ** The stream relay: chunks *)

Lemma decode_app a b st :
  TextDecoder.decode (a ++ b) st
  = let '(t1, st1) := TextDecoder.decode a st in
    let '(t2, st2) := TextDecoder.decode b st1 in
    (t1 ++ t2, st2).
Proof.
  revert st. induction a as [|x a IH]; intros st; simpl.
  - destruct (TextDecoder.decode b st). reflexivity.
  - destruct (TextDecoder.step x st) as [t0 st0]. rewrite IH.
    destruct (TextDecoder.decode a st0) as [t1 st1].
    destruct (TextDecoder.decode b st1) as [t2 st2].
    rewrite app_assoc. reflexivity.
Qed.

(** Feeding two chunks is feeding their concatenation. *)
Lemma feed_app a b w :
  snd (Worker.feed (a ++ b) w) = snd (Worker.feed b (snd (Worker.feed a w))).
Proof.
  unfold Worker.feed. rewrite decode_app.
  destruct (TextDecoder.decode a (Worker.decoder w)) as [t1 st1].
  destruct (Worker.drain (Worker.full w) (Worker.buffer w ++ t1)) as [f1 b1] eqn:E1.
  cbn [snd Worker.set_text Worker.decoder Worker.full Worker.buffer].
  destruct (TextDecoder.decode b st1) as [t2 st2].
  rewrite app_assoc, drain_app, E1.
  destruct (Worker.drain f1 (b1 ++ t2)) as [f2 b2].
  reflexivity.
Qed.

Lemma feed_normal value w : fst (Worker.feed value w) = Normal tt.
Proof.
  unfold Worker.feed.
  destruct (TextDecoder.decode value (Worker.decoder w)).
  destruct (Worker.drain _ _). reflexivity.
Qed.

Lemma feed_settled value w : settled (snd (Worker.feed value w)).
Proof.
  unfold settled, Worker.feed.
  destruct (TextDecoder.decode value (Worker.decoder w)) as [t st].
  destruct (Worker.drain (Worker.full w) (Worker.buffer w ++ t)) as [f b] eqn:E.
  cbn. change b with (snd (f, b)). rewrite <- E. apply drain_settled.
Qed.

(** An empty chunk changes nothing once the buffer is settled. *)
Lemma feed_nil w : settled w -> snd (Worker.feed [] w) = w.
Proof.
  unfold settled, Worker.feed. intros Hs. cbn [TextDecoder.decode].
  rewrite app_nil_r, drain_step. cbn zeta. rewrite Hs. simpl.
  destruct w; reflexivity.
Qed.

(** Feeding reads and writes the three text variables only. *)
Lemma feed_set_out value c w :
  snd (Worker.feed value (Worker.set_out c w)) = Worker.set_out c (snd (Worker.feed value w)).
Proof.
  unfold Worker.feed. cbn [Worker.set_out Worker.decoder Worker.full Worker.buffer].
  destruct (TextDecoder.decode value (Worker.decoder w)) as [t st].
  destruct (Worker.drain _ _). reflexivity.
Qed.

Lemma feed_frame value w :
  let w' := snd (Worker.feed value w) in
  Worker.memory w' = Worker.memory w ∧ Worker.stub_faults w' = Worker.stub_faults w
  ∧ Worker.trace w' = Worker.trace w ∧ Worker.out w' = Worker.out w.
Proof.
  unfold Worker.feed.
  destruct (TextDecoder.decode value (Worker.decoder w)) as [t st].
  destruct (Worker.drain _ _). cbn. auto.
Qed.

(** With a client that stays, the loop forwards every chunk as it is and
    leaves the text variables as one feed of the whole input would. *)
Lemma read_loop_forward cs e w :
  Worker.state (Worker.out w) = Worker.Readable ->
  Worker.cancel_after (Worker.out w) = None ->
  settled w ->
  Worker.read_loop cs e w
  = (loop_exit e,
     requeue (Worker.queue (Worker.out w) ++ cs) (snd (Worker.feed (concat cs) w))).
Proof.
  revert w. induction cs as [|v cs IH]; intros w Hst Hc Hs.
  - cbn [concat]. rewrite feed_nil, app_nil_r by assumption.
    unfold requeue. destruct w as [? ? ? ? ? ? [? ? ?]]. destruct e; reflexivity.
  - cbn [Worker.read_loop concat]. unfold Worker.bind at 1.
    unfold Worker.controller_enqueue. rewrite Hst, Hc.
    destruct (decide _) as [?|_]; [discriminate|].
    unfold Worker.bind at 1.
    rewrite (surjective_pairing (Worker.feed v _)), feed_normal, feed_set_out.
    rewrite IH.
    + rewrite feed_set_out, feed_app. unfold requeue.
      destruct (feed_frame (concat cs) (snd (Worker.feed v w))) as (_ & _ & _ & Ho').
      destruct (feed_frame v w) as (_ & _ & _ & Ho).
      destruct (Worker.feed (concat cs) (snd (Worker.feed v w))) as [r w'].
      cbn in *. rewrite Ho', Ho, Hst, Hc, <- app_assoc. reflexivity.
    + reflexivity.
    + reflexivity.
    + unfold settled. cbn. apply feed_settled.
Qed.

(** The loop touches the text variables and the outbound stream only. *)
Lemma read_loop_frame cs e w :
  let w' := snd (Worker.read_loop cs e w) in
  Worker.memory w' = Worker.memory w ∧ Worker.stub_faults w' = Worker.stub_faults w
  ∧ Worker.trace w' = Worker.trace w.
Proof.
  revert w. induction cs as [|v cs IH]; intros w.
  - destruct e; cbn; auto.
  - cbn [Worker.read_loop]. unfold Worker.bind, Worker.controller_enqueue.
    destruct (Worker.state (Worker.out w)); cbn zeta; auto.
    match goal with |- context [Worker.feed v ?x] => set (w1 := x) end.
    pose proof (feed_normal v w1) as Hn. pose proof (feed_frame v w1) as Hf.
    destruct (Worker.feed v w1) as [r w2]. cbn in Hn, Hf. subst r.
    destruct Hf as (Hm & Hf & Ht & _). specialize (IH w2). cbn zeta in IH.
    destruct IH as (IHm & IHf & IHt).
    rewrite IHm, IHf, IHt, Hm, Hf, Ht. auto.
Qed.

(** ** The stream relay: the [finally] block and the stream *)

Lemma queue_blind_ret {A} (a : A) : queue_blind (Worker.ret a).
Proof. intros q w. reflexivity. Qed.

Lemma queue_blind_bind {A B} (m : Worker.M A) (k : A -> Worker.M B) :
  queue_blind m -> (∀ a, queue_blind (k a)) -> queue_blind (Worker.bind m k).
Proof.
  intros Hm Hk q w. unfold Worker.bind. rewrite Hm.
  destruct (m w) as [[a|] w']; cbn [fst snd]; [apply Hk|reflexivity].
Qed.

Lemma queue_blind_read_full : queue_blind Worker.read_full.
Proof. intros q w. reflexivity. Qed.

Lemma queue_blind_stub_fetch user req : queue_blind (Worker.stub_fetch user req).
Proof.
  intros q w. unfold Worker.stub_fetch. cbn.
  destruct (Worker.stub_faults w) as [|[] fs]; cbn; try reflexivity;
    destruct (MemoryDO.dispatch user req (Worker.memory w)); reflexivity.
Qed.

Lemma queue_blind_close : queue_blind Worker.controller_close.
Proof.
  intros q w. unfold Worker.controller_close. cbn.
  destruct (Worker.state (Worker.out w)); reflexivity.
Qed.

Lemma queue_blind_finish user : queue_blind (Worker.finish user).
Proof.
  unfold Worker.finish.
  apply queue_blind_bind; [apply queue_blind_read_full|]. intros full.
  apply queue_blind_bind; [|intros _; apply queue_blind_close].
  unfold Worker.when. destruct (_ <? _)%Z; [|apply queue_blind_ret].
  apply queue_blind_bind; [apply queue_blind_stub_fetch|intros; apply queue_blind_ret].
Qed.

Lemma requeue_requeue q q' w : requeue q (requeue q' w) = requeue q w.
Proof. reflexivity. Qed.

(** The whole of [start], with a client that stays. *)
Lemma start_forward user cs e w :
  Worker.state (Worker.out w) = Worker.Readable ->
  Worker.cancel_after (Worker.out w) = None ->
  settled w ->
  Worker.start user {| Worker.chunks := cs; Worker.ending := e |} w
  = let '(r, w') := Worker.finish user (snd (Worker.feed (concat cs) w)) in
    (match r with Normal _ => loop_exit e | Throw => Throw end,
     requeue (Worker.queue (Worker.out w) ++ cs) w').
Proof.
  intros Hst Hc Hs. unfold Worker.start, Worker.try_finally. cbn [Worker.chunks Worker.ending].
  rewrite read_loop_forward by assumption. rewrite queue_blind_finish.
  destruct (Worker.finish user _) as [[[]|] w']; reflexivity.
Qed.

(** The relay on any chunking ends as on the whole input in one chunk, up to
    the chunks in the queue. *)
Lemma relay_forward user cs e w :
  snd (Worker.relay None user {| Worker.chunks := cs; Worker.ending := e |} w)
  = requeue cs
      (snd (Worker.relay None user
              {| Worker.chunks := [concat cs]; Worker.ending := e |} w)).
Proof.
  unfold Worker.relay, Worker.bind, Worker.new_ReadableStream.
  rewrite !start_forward by reflexivity.
  cbn [concat]. rewrite app_nil_r.
  destruct (Worker.finish user _) as [[[]|] w']; cbn [fst snd];
    destruct e; cbn [loop_exit]; unfold requeue, Worker.controller_error; cbn;
    try reflexivity; destruct (Worker.state (Worker.out w')); reflexivity.
Qed.

Lemma full_requeue q w : Worker.full (requeue q w) = Worker.full w.
Proof. reflexivity. Qed.

(** C3.  However the upstream bytes are split into chunks, the relay (with a
    client that stays connected) ends with the same accumulated transcript,
    the same stored histories, the same calls made, and the same bytes
    forwarded. *)
Theorem rechunking_keeps_transcript
    (user : jsstring) (cs1 cs2 : list (list byte)) (e : Worker.ReadEnd) (w : Worker.World) :
  concat cs1 = concat cs2 ->
  let w1 := snd (Worker.relay None user {| Worker.chunks := cs1; Worker.ending := e |} w) in
  let w2 := snd (Worker.relay None user {| Worker.chunks := cs2; Worker.ending := e |} w) in
  Worker.full w1 = Worker.full w2
  ∧ Worker.memory w1 = Worker.memory w2
  ∧ Worker.trace w1 = Worker.trace w2
  ∧ concat (Worker.queue (Worker.out w1)) = concat (Worker.queue (Worker.out w2)).
Proof.
  intros Hcat w1 w2. subst w1 w2.
  rewrite (relay_forward user cs1), (relay_forward user cs2), Hcat.
  cbn. auto.
Qed.

Lemma rechunking_keeps_transcript_witness :
  concat [Sample.frame1; Sample.frame2; Sample.frame3] = concat Sample.rechunked
  ∧ let w1 := snd (Worker.relay None (js "demo")
                     {| Worker.chunks := [Sample.frame1; Sample.frame2; Sample.frame3];
                        Worker.ending := Worker.EndDone |} Sample.world) in
    let w2 := snd (Worker.relay None (js "demo")
                     {| Worker.chunks := Sample.rechunked;
                        Worker.ending := Worker.EndDone |} Sample.world) in
    Worker.full w1 = Worker.full w2
    ∧ Worker.memory w1 = Worker.memory w2
    ∧ Worker.trace w1 = Worker.trace w2
    ∧ concat (Worker.queue (Worker.out w1)) = concat (Worker.queue (Worker.out w2)).
Proof.
  split; [reflexivity|].
  apply (rechunking_keeps_transcript (js "demo")
           [Sample.frame1; Sample.frame2; Sample.frame3] Sample.rechunked
           Worker.EndDone Sample.world).
  reflexivity.
Defined.

Lemma store_calls_app tr1 tr2 : store_calls (tr1 ++ tr2) = store_calls tr1 ++ store_calls tr2.
Proof.
  induction tr1 as [|[] tr1 IH]; simpl; rewrite ?IH; reflexivity.
Qed.

Lemma close_calls_app tr1 tr2 : close_calls (tr1 ++ tr2) = close_calls tr1 + close_calls tr2.
Proof.
  induction tr1 as [|[] tr1 IH]; simpl; rewrite ?IH; reflexivity.
Qed.

Lemma dispatch_append user role content mem :
  MemoryDO.dispatch user (Worker.append_request role content) mem
  = (Normal (MemoryDO.RespAppended
               (length (slice (MemoryDO.load_history (MemoryDO.storage_of user mem)
                               ++ [Json.wire (Worker.message role content)]) (-20) None))),
     ConversationStore.append user mem (Json.wire (Worker.message role content))).
Proof. reflexivity. Qed.

(** A message whose content is a text reaches the object as it is. *)
Lemma wire_message_text role text :
  Json.wire (Worker.message role (Some (JString text)))
  = Worker.message role (Some (JString text)).
Proof. reflexivity. Qed.

(** Numbers on the way to the store: one too large for a double arrives as
    [null], a negative zero as [0], the largest double and the smallest as
    they are; so do texts, also inside arrays and objects. *)
Example wire_examples :
  Json.wire (JNumber (js "1e400")) = JNull
  ∧ Json.wire (JNumber (js "-1E+400")) = JNull
  ∧ Json.wire (JNumber (js "1.7976931348623159e308")) = JNull
  ∧ Json.wire (JNumber (js "1.7976931348623157e308")) = JNumber (js "1.7976931348623157e308")
  ∧ Json.wire (JNumber (js "-0")) = JNumber (js "0")
  ∧ Json.wire (JNumber (js "-0.0e7")) = JNumber (js "0")
  ∧ Json.wire (JNumber (js "-1e-400")) = JNumber (js "0")
  ∧ Json.wire (JNumber (js "-5e-324")) = JNumber (js "-5e-324")
  ∧ Json.wire (JNumber (js "12.50")) = JNumber (js "12.50")
  ∧ Json.wire (JObject [(js "a", JArray [JNumber (js "1e999"); JString (js "1e999")])])
    = JObject [(js "a", JArray [JNull; JString (js "1e999")])].
Proof. vm_compute. repeat split. Qed.

(** A chat message that is a number too large for a double is stored, and
    shown to the model, with the content [null]. *)
Example chat_huge_number_stored_as_null :
  let r := Worker.fetch Sample.stringify Sample.env Sample.chat_huge Sample.world in
  ConversationStore.stored (js "demo") (Worker.memory (snd r))
  = Some [JObject [(js "role", JString (js "user")); (js "content", JNull)];
          Worker.message "assistant" (Some (JString (js "Hi")))]
  ∧ store_calls (Worker.trace (snd r))
    = [(js "demo", Worker.append_request "user" (Some JNull));
       (js "demo", Worker.get_request);
       (js "demo", Worker.append_request "assistant" (Some (JString (js "Hi"))))].
Proof. vm_compute. split; reflexivity. Qed.

(** What the [finally] block does, case by case: the text is stored when it
    has a character that is not white space; [close] is called unless that
    call on the store failed. *)
Lemma finish_spec user w :
  let w' := snd (Worker.finish user w) in
  let wanted := worth_storing (Worker.full w) in
  let failed := wanted && next_call_fails w in
  Worker.full w' = Worker.full w
  ∧ Worker.trace w'
    = Worker.trace w
      ++ (if wanted
          then [Worker.EvStubFetch user
                  (Worker.append_request "assistant" (Some (JString (Worker.full w))))]
          else [])
      ++ (if failed then [] else [Worker.EvClose])
  ∧ Worker.memory w'
    = (if wanted && negb failed
       then ConversationStore.append user (Worker.memory w)
              (Worker.message "assistant" (Some (JString (Worker.full w))))
       else Worker.memory w)
  ∧ Worker.state (Worker.out w')
    = (if failed then Worker.state (Worker.out w)
       else match Worker.state (Worker.out w) with
            | Worker.Readable => Worker.Closed
            | st => st
            end)
  ∧ Worker.queue (Worker.out w') = Worker.queue (Worker.out w)
  ∧ fst (Worker.finish user w)
    = (if failed then Throw
       else match Worker.state (Worker.out w) with
            | Worker.Readable => Normal tt
            | _ => Throw
            end).
Proof.
  destruct w as [mem faults tr full buffer dec [st q c]].
  unfold Worker.finish, Worker.bind, Worker.read_full, Worker.when, next_call_fails,
    worth_storing.
  cbn [Worker.full Worker.stub_faults Worker.trace Worker.memory Worker.out
       Worker.state Worker.queue fst].
  destruct (0 <? Z.of_nat (length (trim full)))%Z; cbn zeta.
  - unfold Worker.stub_fetch, Worker.ret, Worker.controller_close.
    cbn [Worker.log Worker.stub_faults Worker.set_stub_faults Worker.memory].
    rewrite dispatch_append.
    destruct faults as [|[] fs]; destruct st; cbn;
      rewrite <- ?app_assoc; repeat split; reflexivity.
  - unfold Worker.ret, Worker.controller_close.
    destruct st; cbn; repeat split; reflexivity.
Qed.

(** The relay as a whole, for any upstream, any client and any store: where
    the loop leaves the world, the [finally] block takes over, and a
    rejection of [start] errors the stream. *)
Lemma relay_spec cancel user ups w :
  let w1 := snd (Worker.read_loop (Worker.chunks ups) (Worker.ending ups)
                   (relay_start cancel w)) in
  let w' := snd (Worker.relay cancel user ups w) in
  let wanted := worth_storing (Worker.full w1) in
  let failed := wanted && next_call_fails w in
  Worker.full w' = Worker.full w1
  ∧ Worker.trace w'
    = Worker.trace w
      ++ (if wanted
          then [Worker.EvStubFetch user
                  (Worker.append_request "assistant" (Some (JString (Worker.full w1))))]
          else [])
      ++ (if failed then [] else [Worker.EvClose])
  ∧ Worker.memory w'
    = (if wanted && negb failed
       then ConversationStore.append user (Worker.memory w)
              (Worker.message "assistant" (Some (JString (Worker.full w1))))
       else Worker.memory w)
  ∧ Worker.state (Worker.out w')
    = match Worker.state (Worker.out w1) with
      | Worker.Readable => if failed then Worker.Errored else Worker.Closed
      | st => st
      end
  ∧ Worker.queue (Worker.out w') = Worker.queue (Worker.out w1).
Proof.
  cbn zeta.
  unfold Worker.relay, Worker.bind, Worker.new_ReadableStream, Worker.start,
    Worker.try_finally.
  fold (relay_start cancel w).
  pose proof (read_loop_frame (Worker.chunks ups) (Worker.ending ups) (relay_start cancel w))
    as (Hm & Hf & Ht).
  destruct (Worker.read_loop _ _ (relay_start cancel w)) as [r w1]. cbn [snd] in *.
  pose proof (finish_spec user w1) as (Hfull & Htr & Hmem & Hst & Hq & Hres).
  unfold next_call_fails in *. rewrite Hf, Ht, Hm in *.
  cbn [relay_start Worker.set_out Worker.set_text Worker.stub_faults Worker.trace
       Worker.memory] in *.
  destruct (Worker.finish user w1) as [r2 w2]. cbn [fst snd] in *.
  destruct w2 as [mem2 faults2 tr2 full2 buffer2 dec2 [st2 q2 c2]].
  cbn [Worker.full Worker.trace Worker.memory Worker.out Worker.state Worker.queue] in *.
  subst full2 tr2 mem2 q2 st2 r2.
  destruct (worth_storing (Worker.full w1)), (Worker.stub_faults w) as [|[] ?],
    (Worker.state (Worker.out w1)), r as [[]|]; cbn; repeat split; reflexivity.
Qed.

Lemma relay_start_ready cancel w :
  settled (relay_start cancel w)
  ∧ Worker.full (relay_start cancel w) = []
  ∧ Worker.buffer (relay_start cancel w) = []
  ∧ Worker.decoder (relay_start cancel w) = TextDecoder.init.
Proof. repeat split. Qed.

(** With a client that stays, the loop ends with every chunk in the queue and
    with the text of the whole input. *)
Lemma read_loop_from_start cs e w :
  let w1 := snd (Worker.read_loop cs e (relay_start None w)) in
  Worker.queue (Worker.out w1) = cs
  ∧ Worker.state (Worker.out w1) = Worker.Readable
  ∧ Worker.full w1
    = fst (Worker.drain [] (fst (TextDecoder.decode (concat cs) TextDecoder.init))).
Proof.
  cbn zeta. rewrite read_loop_forward by reflexivity. cbn [snd].
  unfold Worker.feed, relay_start.
  cbn [Worker.decoder Worker.full Worker.buffer Worker.set_out Worker.set_text].
  destruct (TextDecoder.decode (concat cs) TextDecoder.init) as [t st]. cbn [app fst].
  destruct (Worker.drain [] t) as [f b]. repeat split.
Qed.

Lemma sample_text :
  Worker.drain [] (fst (TextDecoder.decode Sample.whole TextDecoder.init)) = (js "Hello", []).
Proof. vm_compute. reflexivity. Qed.

(** C4.  For the three frames of the example, however they arrive in chunks,
    the bytes forwarded are the three frames as they are, and one call is made
    on the Conversation Store: the append of the message with role assistant
    and content Hello, which the store then holds (unless the call fails). *)
Theorem hello_forwarded_and_stored
    (user : jsstring) (cs : list (list byte)) (w : Worker.World) :
  concat cs = Sample.frame1 ++ Sample.frame2 ++ Sample.frame3 ->
  let w' := snd (Worker.relay None user
                   {| Worker.chunks := cs; Worker.ending := Worker.EndDone |} w) in
  let hello := JObject [(js "role", JString (js "assistant"));
                        (js "content", JString (js "Hello"))] in
  concat (Worker.queue (Worker.out w')) = Sample.frame1 ++ Sample.frame2 ++ Sample.frame3
  ∧ store_calls (Worker.trace w')
    = store_calls (Worker.trace w)
      ++ [(user, {| MemoryDO.method := "POST"; MemoryDO.pathname := "/append";
                    MemoryDO.body := Some hello |})]
  ∧ (next_call_fails w = false ->
     Worker.memory w' = ConversationStore.append user (Worker.memory w) hello)
  ∧ Worker.state (Worker.out w') = (if next_call_fails w then Worker.Errored else Worker.Closed).
Proof.
  intros Hcat. cbn zeta.
  pose proof (relay_spec None user
                {| Worker.chunks := cs; Worker.ending := Worker.EndDone |} w)
    as (_ & Htr & Hmem & Hst & Hq).
  pose proof (read_loop_from_start cs Worker.EndDone w) as (Hq1 & Hst1 & Hfull1).
  cbn [Worker.chunks Worker.ending] in *.
  fold Sample.whole in Hcat. rewrite Hcat, sample_text in Hfull1. cbn [fst] in Hfull1.
  rewrite Hfull1 in Htr, Hmem, Hst. rewrite Hst1 in Hst. rewrite Hq1 in Hq.
  change (worth_storing (js "Hello")) with true in *. cbn [andb] in *.
  rewrite Hq, Hst, Htr, Hmem, !store_calls_app.
  repeat split.
  - assumption.
  - destruct (next_call_fails w); reflexivity.
  - intros ->. reflexivity.
Qed.

Lemma hello_forwarded_and_stored_witness :
  concat [Sample.frame1; Sample.frame2; Sample.frame3]
  = Sample.frame1 ++ Sample.frame2 ++ Sample.frame3
  ∧ next_call_fails Sample.world = false
  ∧ let w' := snd (Worker.relay None (js "demo")
                     {| Worker.chunks := [Sample.frame1; Sample.frame2; Sample.frame3];
                        Worker.ending := Worker.EndDone |} Sample.world) in
    let hello := JObject [(js "role", JString (js "assistant"));
                          (js "content", JString (js "Hello"))] in
    concat (Worker.queue (Worker.out w'))
    = Sample.frame1 ++ Sample.frame2 ++ Sample.frame3
    ∧ Worker.memory w' = ConversationStore.append (js "demo") ∅ hello.
Proof.
  split; [reflexivity|]. split; [reflexivity|].
  pose proof (hello_forwarded_and_stored (js "demo")
                [Sample.frame1; Sample.frame2; Sample.frame3] Sample.world eq_refl)
    as (Hq & _ & Hmem & _).
  split; [exact Hq|exact (Hmem eq_refl)].
Defined.

(** [close] is called once on every run, whatever the upstream and the client
    do, unless the call on the store fails: then it is not called at all. *)
Lemma relay_close_calls cancel user ups w :
  let w' := snd (Worker.relay cancel user ups w) in
  close_calls (Worker.trace w')
  = close_calls (Worker.trace w)
    + (if worth_storing (Worker.full w') && next_call_fails w then 0 else 1).
Proof.
  cbn zeta. destruct (relay_spec cancel user ups w) as (Hfull & Htr & _).
  rewrite Htr, Hfull, !close_calls_app.
  destruct (worth_storing _), (next_call_fails w); reflexivity.
Qed.

(** C5, at a failing input.  The upstream sends the first frame of the
    example and ends; the append of the transcript fails.  Then [close] is
    never called and the outbound stream ends errored, not closed, although
    the read loop itself ended without error. *)
Theorem store_failure_prevents_close :
  let ups := {| Worker.chunks := [Sample.frame1]; Worker.ending := Worker.EndDone |} in
  let w' := snd (Worker.relay None (js "demo") ups Sample.failing_world) in
  fst (Worker.read_loop (Worker.chunks ups) (Worker.ending ups)
         (relay_start None Sample.failing_world)) = Normal tt
  ∧ Worker.full w' = js "Hel"
  ∧ store_calls (Worker.trace w')
    = [(js "demo", Worker.append_request "assistant" (Some (JString (js "Hel"))))]
  ∧ close_calls (Worker.trace w') = 0
  ∧ Worker.state (Worker.out w') = Worker.Errored.
Proof. vm_compute. repeat split. Qed.

(** What [trim] leaves is empty exactly when every character is white space. *)
Lemma trimStart_nil s : trimStart s = [] <-> Forall (fun c => is_js_space c = true) s.
Proof.
  induction s as [|c s IH]; cbn.
  - split; [constructor|reflexivity].
  - destruct (is_js_space c) eqn:E.
    + rewrite IH. split; [constructor; assumption|inversion 1; assumption].
    + split; [discriminate|]. inversion 1; congruence.
Qed.

Lemma trimStart_split s :
  ∃ spaces, s = spaces ++ trimStart s ∧ Forall (fun c => is_js_space c = true) spaces.
Proof.
  induction s as [|c s (sp & Hs & Hsp)]; cbn.
  - exists []. split; [reflexivity|constructor].
  - destruct (is_js_space c) eqn:E.
    + exists (c :: sp). split; [cbn; f_equal; exact Hs|constructor; assumption].
    + exists []. split; [reflexivity|constructor].
Qed.

Lemma trim_nil s : trim s = [] <-> Forall (fun c => is_js_space c = true) s.
Proof.
  unfold trim, trimEnd. split.
  - intros H. apply (f_equal reverse) in H. rewrite reverse_involutive in H.
    cbn in H. apply trimStart_nil, Forall_reverse in H.
    rewrite reverse_involutive in H.
    destruct (trimStart_split s) as (sp & Hs & Hsp).
    rewrite Hs. apply Forall_app. split; assumption.
  - intros H. apply trimStart_nil in H. rewrite H. reflexivity.
Qed.

(** The transcript is stored exactly when it has a character that is not
    white space. *)
Lemma worth_storing_spec full :
  worth_storing full = true <-> Exists (fun c => is_js_space c = false) full.
Proof.
  unfold worth_storing. rewrite Z.ltb_lt.
  assert (Hlen : (0 < Z.of_nat (length (trim full)))%Z <-> trim full ≠ [])
    by (destruct (trim full); cbn; split; intros; try lia; congruence).
  rewrite Hlen, trim_nil. clear Hlen.
  induction full as [|c full IH].
  - split; [intros H; exfalso; apply H; constructor|inversion 1].
  - split.
    + intros H. destruct (is_js_space c) eqn:E; [|left; assumption].
      right. apply IH. intros Hall. apply H. constructor; assumption.
    + intros H Hall. inversion Hall; subst.
      inversion H; subst; [congruence|]. apply IH in H1; auto.
Qed.

(** C6 as stated fails: a transcript of one space is not empty, and it is
    not stored. *)
Lemma blank_transcript_not_stored :
  ¬ (∀ (user : jsstring) (ups : Worker.Upstream) (w : Worker.World),
       let w' := snd (Worker.relay None user ups w) in
       Worker.full w' ≠ [] ->
       store_calls (Worker.trace w')
       = store_calls (Worker.trace w)
         ++ [(user, Worker.append_request "assistant" (Some (JString (Worker.full w'))))]).
Proof.
  intros H.
  specialize (H (js "demo")
                {| Worker.chunks := [Sample.blank_frame]; Worker.ending := Worker.EndDone |}
                Sample.world).
  vm_compute in H. specialize (H ltac:(discriminate)). discriminate H.
Qed.

(** One turn of the extraction of frames. *)
Lemma frames_step text :
  frames text
  = let idx := indexOf text Worker.delimiter in
    if (idx =? -1)%Z then []
    else slice text 0 (Some idx) :: frames (slice text (idx + 2) None).
Proof.
  simp frames. unfold inspect at 1. simp frames. cbn zeta.
  generalize (inspect (indexOf text Worker.delimiter =? -1)%Z).
  intros [b Hb]. destruct b; simp frames; rewrite Hb; reflexivity.
Qed.

(** A line adds the text it carries, and nothing when it carries none. *)
Lemma process_line_text full line :
  Worker.process_line full line = full ++ default [] (data_text line).
Proof.
  unfold Worker.process_line, data_text.
  destruct (startsWith (trim line) (js "data:")); cbn [negb];
    [|rewrite app_nil_r; reflexivity].
  destruct (_ || _); [rewrite app_nil_r; reflexivity|].
  destruct (Json.parse _) as [obj|]; [|rewrite app_nil_r; reflexivity].
  destruct (Json.get obj (js "response")) as [[[]|]|];
    cbn [default from_option id]; rewrite ?app_nil_r; reflexivity.
Qed.

(** A frame that is not recognized leaves the accumulator as it is. *)
Lemma process_frame_unrecognized full frame :
  recognized frame = false -> Worker.process_frame full frame = full.
Proof.
  unfold recognized, Worker.process_frame.
  generalize (split_on 10%N frame). intros lines.
  induction lines as [|line lines IH]; [reflexivity|].
  cbn [existsb foldl]. intros H. apply orb_false_iff in H as [Hl Hr].
  rewrite process_line_text.
  destruct (data_text line) as [t|]; [|cbn; rewrite app_nil_r; apply IH, Hr].
  exfalso. apply bool_decide_eq_false in Hl. apply Hl. eauto.
Qed.

Lemma drain_unrecognized full buffer :
  Forall (fun frame => recognized frame = false) (frames buffer) ->
  fst (Worker.drain full buffer) = full.
Proof.
  remember (length buffer) as n eqn:Hn.
  revert full buffer Hn. induction n as [n IH] using lt_wf_ind. intros full buffer ->.
  rewrite drain_step, frames_step. cbn zeta.
  destruct (indexOf buffer Worker.delimiter =? -1)%Z eqn:E; [reflexivity|].
  apply Z.eqb_neq in E.
  destruct (indexOf_bounds buffer Worker.delimiter) as [H|[H0 H2]]; [congruence|].
  simpl length in H2.
  intros Hall. inversion Hall as [|? ? Hframe Hrest]; subst.
  rewrite process_frame_unrecognized by exact Hframe.
  eapply IH; [|reflexivity|exact Hrest].
  rewrite slice_suffix, length_drop by lia. lia.
Qed.

(** The frames of the beginning of a text are among the frames of the
    text. *)
Lemma frames_prefix (P : jsstring -> Prop) text more :
  Forall P (frames (text ++ more)) -> Forall P (frames text).
Proof.
  remember (length text) as n eqn:Hn.
  revert text Hn. induction n as [n IH] using lt_wf_ind. intros text ->.
  rewrite (frames_step text). cbn zeta.
  destruct (indexOf text Worker.delimiter =? -1)%Z eqn:E; [constructor|].
  pose proof E as Hfound. apply Z.eqb_neq in Hfound.
  destruct (indexOf_bounds text Worker.delimiter) as [H|[H0 H2]]; [congruence|].
  simpl length in H2.
  rewrite (frames_step (text ++ more)). cbn zeta.
  rewrite indexOf_app, E by assumption.
  rewrite (slice_prefix (text ++ more)), (slice_suffix (text ++ more))
    by (rewrite length_app; lia).
  rewrite take_app_le, drop_app_le by lia.
  rewrite <- slice_prefix, <- slice_suffix by lia.
  intros Hall. inversion Hall as [|? ? Hframe Hrest]; subst.
  constructor; [exact Hframe|].
  eapply IH; [|reflexivity|exact Hrest].
  rewrite slice_suffix, length_drop by lia. lia.
Qed.

Lemma feed_text value w w' :
  text_state w = text_state w' ->
  text_state (snd (Worker.feed value w)) = text_state (snd (Worker.feed value w')).
Proof.
  unfold text_state, Worker.feed. intros [= -> -> ->].
  destruct (TextDecoder.decode value (Worker.decoder w')) as [t st].
  destruct (Worker.drain _ _). reflexivity.
Qed.

Lemma feed_from_start cancel bytes w :
  Worker.full (snd (Worker.feed bytes (relay_start cancel w))) = transcript bytes.
Proof.
  unfold Worker.feed, transcript, relay_start.
  cbn [Worker.decoder Worker.full Worker.buffer Worker.set_out Worker.set_text].
  destruct (TextDecoder.decode bytes TextDecoder.init) as [t st]. cbn [app fst].
  destruct (Worker.drain [] t). reflexivity.
Qed.

(** Whoever the client is, the loop leaves the text variables as one feed of
    the chunks it has taken would, and these are the first ones. *)
Lemma read_loop_consumes cs e w :
  settled w ->
  ∃ j, text_state (snd (Worker.read_loop cs e w))
       = text_state (snd (Worker.feed (concat (take j cs)) w)).
Proof.
  revert w. induction cs as [|v cs IH]; intros w Hs.
  - exists 0%nat. cbn [take concat]. rewrite feed_nil by assumption.
    destruct e; reflexivity.
  - cbn [Worker.read_loop]. unfold Worker.bind at 1, Worker.controller_enqueue.
    destruct (Worker.state (Worker.out w));
      [|exists 0%nat; cbn [take concat snd]; rewrite feed_nil by assumption; reflexivity..].
    cbn zeta. unfold Worker.bind at 1.
    rewrite (surjective_pairing (Worker.feed v _)), feed_normal, feed_set_out.
    match goal with |- context [Worker.set_out ?c (snd (Worker.feed v w))] =>
      set (w2 := Worker.set_out c (snd (Worker.feed v w))) end.
    assert (Hs2 : settled w2) by (unfold settled, w2; cbn; apply feed_settled).
    destruct (IH w2 Hs2) as [j Hj]. exists (S j). cbn [take concat].
    rewrite Hj, feed_app. apply feed_text. reflexivity.
Qed.

(** The transcript the relay ends with is that of the first chunks of the
    upstream, up to where the client left. *)
Lemma relay_consumed cancel user ups w :
  ∃ j, Worker.full (snd (Worker.relay cancel user ups w))
       = transcript (concat (take j (Worker.chunks ups))).
Proof.
  destruct (relay_spec cancel user ups w) as (Hfull & _).
  destruct (relay_start_ready cancel w) as (Hs & _).
  destruct (read_loop_consumes (Worker.chunks ups) (Worker.ending ups)
              (relay_start cancel w) Hs) as [j Hj].
  exists j. rewrite Hfull, <- feed_from_start with (cancel := cancel) (w := w).
  unfold text_state in Hj. congruence.
Qed.

(** An upstream without a recognized frame leaves the transcript empty. *)
Lemma unrecognized_transcript ups j :
  Forall (fun frame => recognized frame = false) (frames (upstream_text ups)) ->
  transcript (concat (take j (Worker.chunks ups))) = [].
Proof.
  unfold upstream_text, transcript.
  rewrite <- (take_drop j (Worker.chunks ups)) at 1. rewrite concat_app, decode_app.
  destruct (TextDecoder.decode (concat (take j (Worker.chunks ups))) TextDecoder.init)
    as [t1 st1].
  destruct (TextDecoder.decode (concat (drop j (Worker.chunks ups))) st1) as [t2 st2].
  cbn [fst]. intros Hall. apply frames_prefix in Hall.
  apply drain_unrecognized. exact Hall.
Qed.

(** C6, amended.  On every exit of the loop, by the end of the upstream, by
    its failure or by the client's leaving: when the transcript has a
    character that is not white space, exactly one call is made on the
    Conversation Store, the append of the assistant message with the
    transcript, for the requesting identity; otherwise no call is made and
    nothing is stored.  In particular, when no frame of the upstream's text
    is recognized (none has a [data:] line whose payload is JSON with a
    string [response]), the transcript is empty, no call is made and nothing
    is stored. *)
Theorem transcript_stored_when_not_blank
    (cancel : option nat) (user : jsstring) (ups : Worker.Upstream) (w : Worker.World) :
  let w' := snd (Worker.relay cancel user ups w) in
  let msg := JObject [(js "role", JString (js "assistant"));
                      (js "content", JString (Worker.full w'))] in
  store_calls (Worker.trace w')
  = store_calls (Worker.trace w)
    ++ (if worth_storing (Worker.full w')
        then [(user, {| MemoryDO.method := "POST"; MemoryDO.pathname := "/append";
                        MemoryDO.body := Some msg |})]
        else [])
  ∧ Worker.memory w'
    = (if worth_storing (Worker.full w') && negb (next_call_fails w)
       then ConversationStore.append user (Worker.memory w) msg
       else Worker.memory w)
  ∧ (Forall (fun frame => recognized frame = false) (frames (upstream_text ups)) ->
     Worker.full w' = []
     ∧ store_calls (Worker.trace w') = store_calls (Worker.trace w)
     ∧ Worker.memory w' = Worker.memory w).
Proof.
  cbn zeta.
  assert (H : ∀ full,
    Worker.full (snd (Worker.relay cancel user ups w)) = full ->
    store_calls (Worker.trace (snd (Worker.relay cancel user ups w)))
    = store_calls (Worker.trace w)
      ++ (if worth_storing full
          then [(user, Worker.append_request "assistant" (Some (JString full)))]
          else [])
    ∧ Worker.memory (snd (Worker.relay cancel user ups w))
      = (if worth_storing full && negb (next_call_fails w)
         then ConversationStore.append user (Worker.memory w)
                (Worker.message "assistant" (Some (JString full)))
         else Worker.memory w)).
  { intros full <-. destruct (relay_spec cancel user ups w) as (Hfull & Htr & Hmem & _).
    rewrite Htr, Hmem, Hfull, !store_calls_app.
    destruct (worth_storing _), (next_call_fails w); repeat split. }
  destruct (H _ eq_refl) as [Hcalls Hmem].
  split; [exact Hcalls|]. split; [exact Hmem|].
  intros Hall. destruct (relay_consumed cancel user ups w) as [j Hj].
  rewrite (unrecognized_transcript ups j Hall) in Hj.
  destruct (H _ Hj) as [Hc Hm]. split; [exact Hj|]. split.
  - rewrite Hc. apply app_nil_r.
  - rewrite Hm. reflexivity.
Qed.

Lemma transcript_stored_when_not_blank_witness :
  Forall (fun frame => recognized frame = false)
    (frames (upstream_text Sample.unrecognized_upstream))
  ∧ Worker.full (snd (Worker.relay None (js "demo") Sample.unrecognized_upstream
                        Sample.world)) = []
  ∧ Worker.memory (snd (Worker.relay None (js "demo") Sample.unrecognized_upstream
                          Sample.world)) = ∅.
Proof.
  assert (H : Forall (fun frame => recognized frame = false)
                (frames (upstream_text Sample.unrecognized_upstream))).
  { apply List.Forall_forall. intros frame Hin.
    assert (Hb : forallb (fun frame => negb (recognized frame))
                   (frames (upstream_text Sample.unrecognized_upstream)) = true)
      by (vm_compute; reflexivity).
    apply negb_true_iff. exact (proj1 (forallb_forall _ _) Hb frame Hin). }
  split; [exact H|].
  destruct (transcript_stored_when_not_blank None (js "demo") Sample.unrecognized_upstream
              Sample.world) as (_ & _ & Hno).
  destruct (Hno H) as (Hfull & _ & Hmem). split; [exact Hfull|exact Hmem].
Defined.

(** ** The handler *)

(** C10.  A request whose path does not start with [/api/] gets a 404 with no
    body; a request under [/api/] that matches none of the route and method
    pairs gets the JSON body with name Cloudflare and status 200.  Neither
    touches the world. *)
Theorem unmatched_requests
    (JSON_stringify : JSON -> jsstring) (env : Worker.Env)
    (req : Worker.Request) (w : Worker.World) :
  (String.prefix "/api/" (Worker.pathname req) = false ->
   Worker.fetch JSON_stringify env req w
   = (Normal {| Worker.status := 404; Worker.content := Worker.BodyNull |}, w))
  ∧ (String.prefix "/api/" (Worker.pathname req) = true ->
     (Worker.method req, Worker.pathname req) ∉ defined_routes ->
     Worker.fetch JSON_stringify env req w
     = (Normal {| Worker.status := 200;
                  Worker.content :=
                    Worker.BodyJson (JObject [(js "name", JString (js "Cloudflare"))]) |},
        w)).
Proof.
  unfold Worker.fetch. split.
  - intros ->. reflexivity.
  - intros -> Hroute. cbn [negb].
    repeat (destruct (decide _) as [[Hm Hp]|_];
            [exfalso; apply Hroute; rewrite Hm, Hp; unfold defined_routes; set_solver|]).
    reflexivity.
Qed.

Lemma unmatched_requests_witness :
  (String.prefix "/api/" (Worker.pathname Sample.page) = false
   ∧ Worker.fetch Sample.stringify Sample.env Sample.page Sample.world
     = (Normal {| Worker.status := 404; Worker.content := Worker.BodyNull |}, Sample.world))
  ∧ (String.prefix "/api/" (Worker.pathname Sample.unknown_route) = true
     ∧ ((Worker.method Sample.unknown_route, Worker.pathname Sample.unknown_route)
        ∉ defined_routes)
     ∧ Worker.fetch Sample.stringify Sample.env Sample.unknown_route Sample.world
       = (Normal {| Worker.status := 200;
                    Worker.content :=
                      Worker.BodyJson (JObject [(js "name", JString (js "Cloudflare"))]) |},
          Sample.world)).
Proof.
  assert (Hroute : (Worker.method Sample.unknown_route, Worker.pathname Sample.unknown_route)
                   ∉ defined_routes).
  { unfold defined_routes. cbn. intros H.
    repeat (apply elem_of_cons in H as [H|H]; [discriminate H|]).
    apply elem_of_nil in H. exact H. }
  split.
  - split; [reflexivity|].
    exact (proj1 (unmatched_requests Sample.stringify Sample.env Sample.page Sample.world)
             eq_refl).
  - split; [reflexivity|]. split; [exact Hroute|].
    exact (proj2 (unmatched_requests Sample.stringify Sample.env Sample.unknown_route
                    Sample.world) eq_refl Hroute).
Defined.

(** The one check the handler makes: polling without an instance id is
    refused with status 400, and nothing has happened by then. *)
Lemma poll_without_id_rejected
    (JSON_stringify : JSON -> jsstring) (env : Worker.Env)
    (req : Worker.Request) (w : Worker.World) :
  Worker.method req = "GET"%string -> Worker.pathname req = "/api/task"%string ->
  search_get_missing req ->
  Worker.fetch JSON_stringify env req w
  = (Normal {| Worker.status := 400; Worker.content := Worker.BodyText "Missing instanceId" |},
     w).
Proof.
  intros Hm Hp Hmiss. unfold Worker.fetch. rewrite Hm, Hp. cbn.
  unfold Worker.task_poll. destruct Hmiss as [-> | ->]; reflexivity.
Qed.

(** The other two routes with a body take it unchecked as well: a task is
    created without a goal, and the stream route stores a user message without
    content before it calls the model. *)
Lemma task_and_stream_not_rejected :
  let r1 := Worker.fetch Sample.stringify Sample.env Sample.task_without_goal Sample.world in
  let r2 := Worker.fetch Sample.stringify Sample.env Sample.stream_without_message
              Sample.world in
  Worker.EvWorkflowCreate (js "00000000-0000-4000-8000-000000000000") None
    ∈ Worker.trace (snd r1)
  ∧ (∃ c, fst r1 = Normal {| Worker.status := 200; Worker.content := c |})
  ∧ head (store_calls (Worker.trace (snd r2)))
    = Some (js "demo", Worker.append_request "user" None)
  ∧ fst r2 = Normal {| Worker.status := 200; Worker.content := Worker.BodyStream |}.
Proof.
  vm_compute. repeat split; [apply list_elem_of_here|eexists; reflexivity].
Qed.

(** C7, at a failing input.  [POST /api/chat] with the body [{}] has no
    [message].  It is not rejected: the handler appends a user message
    without content to the history of [demo], calls the model on it, appends
    the reply and answers 200. *)
Theorem chat_without_message_not_rejected :
  let r := fst (Worker.fetch Sample.stringify Sample.env Sample.chat_without_message
                  Sample.world) in
  let w' := snd (Worker.fetch Sample.stringify Sample.env Sample.chat_without_message
                   Sample.world) in
  let broken := JObject [(js "role", JString (js "user"))] in
  let reply := JObject [(js "role", JString (js "assistant"));
                        (js "content", JString (js "Hi"))] in
  r = Normal {| Worker.status := 200;
                Worker.content := Worker.BodyJson (JObject [(js "reply", JString (js "Hi"))]) |}
  ∧ store_calls (Worker.trace w')
    = [(js "demo", {| MemoryDO.method := "POST"; MemoryDO.pathname := "/append";
                      MemoryDO.body := Some broken |});
       (js "demo", Worker.get_request);
       (js "demo", {| MemoryDO.method := "POST"; MemoryDO.pathname := "/append";
                      MemoryDO.body := Some reply |})]
  ∧ ConversationStore.stored (js "demo") (Worker.memory w') = Some [broken; reply].
Proof. vm_compute. repeat split. Qed.

(** ** Which identity a request reaches *)

Lemma confined_ret {A} user (a : A) : confined user (Worker.ret a).
Proof.
  intros w. cbn. split; [exists []; rewrite app_nil_r; auto|auto].
Qed.

Lemma confined_throw {A} user : confined user (@Worker.throw A).
Proof.
  intros w. cbn. split; [exists []; rewrite app_nil_r; auto|auto].
Qed.

Lemma confined_lift {A} user (c : Completion A) : confined user (Worker.lift c).
Proof.
  intros w. cbn. split; [exists []; rewrite app_nil_r; auto|auto].
Qed.

Lemma confined_emit user ev :
  store_calls [ev] = [] -> confined user (Worker.emit ev).
Proof.
  intros Hev w. cbn. rewrite store_calls_app, Hev.
  split; [exists []; auto|auto].
Qed.

Lemma confined_bind {A B} user (m : Worker.M A) (k : A -> Worker.M B) :
  confined user m -> (∀ a, confined user (k a)) -> confined user (Worker.bind m k).
Proof.
  intros Hm Hk w. specialize (Hm w). unfold Worker.bind. cbn zeta in *.
  destruct (m w) as [[a|] w1]; cbn [snd] in *; [|exact Hm].
  specialize (Hk a w1). cbn zeta in Hk.
  destruct Hm as [(c1 & Ht1 & Hf1) Hm1], Hk as [(c2 & Ht2 & Hf2) Hm2]. split.
  - exists (c1 ++ c2). rewrite Ht2, Ht1, app_assoc. split; [reflexivity|].
    apply Forall_app; auto.
  - intros other Hne. rewrite Hm2, Hm1 by assumption. reflexivity.
Qed.

Lemma append_other user other mem msg :
  other ≠ user -> ConversationStore.append user mem msg !! other = mem !! other.
Proof.
  intros Hne. unfold ConversationStore.append, MemoryDO.dispatch.
  destruct (MemoryDO.fetch _ _). cbn. apply lookup_insert_ne. congruence.
Qed.

Lemma confined_stub_fetch user req : confined user (Worker.stub_fetch user req).
Proof.
  intros w. unfold Worker.stub_fetch. cbn zeta.
  cbn [Worker.log Worker.stub_faults Worker.set_stub_faults Worker.memory].
  assert (Hcalls : store_calls (Worker.trace w ++ [Worker.EvStubFetch user req])
                   = store_calls (Worker.trace w) ++ [(user, req)])
    by (rewrite store_calls_app; reflexivity).
  destruct (Worker.stub_faults w) as [|[] fs]; cbn [snd];
    try (unfold MemoryDO.dispatch; destruct (MemoryDO.fetch _ _));
    cbn; (split; [exists [(user, req)]; split; [exact Hcalls|repeat constructor]|]);
    intros other Hne; rewrite ?lookup_insert_ne by congruence; reflexivity.
Qed.

Lemma confined_relay cancel user ups : confined user (Worker.relay cancel user ups).
Proof.
  intros w. cbn zeta. destruct (relay_spec cancel user ups w) as (_ & Htr & Hmem & _).
  rewrite Htr, Hmem, !store_calls_app. split.
  - destruct (worth_storing _), (next_call_fails w); cbn;
      eexists; (split; [reflexivity|]); repeat constructor.
  - intros other Hne.
    destruct (worth_storing _), (next_call_fails w); cbn;
      rewrite ?append_other by assumption; reflexivity.
Qed.

Lemma confined_history_of user r : confined user (Worker.history_of r).
Proof. destruct r; [apply confined_ret|apply confined_throw..]. Qed.

Lemma confined_request_field user req key : confined user (Worker.request_field req key).
Proof.
  unfold Worker.request_field. destruct (Worker.body req);
    [apply confined_lift|apply confined_throw].
Qed.

Create HintDb confined.
#[local] Hint Resolve confined_ret confined_throw confined_lift confined_stub_fetch
  confined_relay confined_history_of confined_request_field : confined.

Ltac confined_steps :=
  repeat first
    [ solve [auto with confined]
    | apply confined_emit; reflexivity
    | apply confined_bind; [|intros ?]
    | progress cbn beta iota zeta ].

(** Every route keeps to the identity of the request. *)
Lemma fetch_confined JSON_stringify env req :
  confined (Worker.userId req) (Worker.fetch JSON_stringify env req).
Proof.
  unfold Worker.fetch.
  destruct (negb _); [apply confined_ret|].
  repeat (destruct (decide _) as [_|_]).
  - unfold Worker.chat, Worker.ai_run. confined_steps.
  - unfold Worker.task_start, Worker.instance_status_of. confined_steps.
  - unfold Worker.task_poll, Worker.instance_status_of.
    destruct (Worker.search_get _ _) as [[|]|]; confined_steps.
  - unfold Worker.clear. confined_steps.
  - unfold Worker.chat_stream, Worker.ai_run_stream. confined_steps.
  - apply confined_ret.
Qed.

(** C9.  A request without the [user] parameter selects the identity [demo]:
    every call it makes on the Conversation Store goes to [demo], and the
    history of every other identity stays as it is. *)
Theorem no_user_means_demo
    (JSON_stringify : JSON -> jsstring) (env : Worker.Env)
    (req : Worker.Request) (w : Worker.World) :
  Worker.search_get (js "user") (Worker.searchParams req) = None ->
  let w' := snd (Worker.fetch JSON_stringify env req w) in
  Worker.userId req = js "demo"
  ∧ (∃ calls, store_calls (Worker.trace w') = store_calls (Worker.trace w) ++ calls
              ∧ Forall (fun c => fst c = js "demo") calls)
  ∧ ∀ other, other ≠ js "demo" -> Worker.memory w' !! other = Worker.memory w !! other.
Proof.
  intros Hnone. cbn zeta.
  assert (Hid : Worker.userId req = js "demo") by (unfold Worker.userId; rewrite Hnone; reflexivity).
  split; [exact Hid|].
  rewrite <- Hid. apply (fetch_confined JSON_stringify env req w).
Qed.

Lemma no_user_means_demo_witness :
  Worker.search_get (js "user") (Worker.searchParams Sample.chat_hi) = None
  ∧ let w' := snd (Worker.fetch Sample.stringify Sample.env Sample.chat_hi Sample.world) in
    Worker.userId Sample.chat_hi = js "demo"
    ∧ (∃ calls, store_calls (Worker.trace w') = store_calls (Worker.trace Sample.world) ++ calls
                ∧ Forall (fun c => fst c = js "demo") calls)
    ∧ ∀ other, other ≠ js "demo" ->
        Worker.memory w' !! other = Worker.memory Sample.world !! other.
Proof.
  split; [reflexivity|].
  apply (no_user_means_demo Sample.stringify Sample.env Sample.chat_hi Sample.world).
  reflexivity.
Defined.

(** ** The planning step *)

Section PlanFacts.

Variable Number_toString : jsstring -> jsstring.
Variable Number_truthy : jsstring -> bool.

Let plan_of_text := TaskWorkflow.plan_of_text Number_toString Number_truthy.

Lemma map_String_length l ts :
  TaskWorkflow.map_String Number_toString l = Normal ts -> length ts = length l.
Proof.
  revert ts. induction l as [|v l IH]; intros ts; cbn [TaskWorkflow.map_String].
  - intros [= <-]. reflexivity.
  - destruct (TaskWorkflow.ToString _ v); [|discriminate].
    destruct (TaskWorkflow.map_String _ l); [|discriminate].
    intros [= <-]. cbn. f_equal. apply IH. reflexivity.
Qed.

Lemma slice_first_3_length {A} (l : list A) : length (slice l 0 (Some 3%Z)) <= 3.
Proof.
  unfold slice, rel_index. cbn. rewrite length_take. lia.
Qed.

(** A model output that is not JSON gives the three generic steps. *)
Lemma fallback_when_not_json text :
  Json.parse text = None -> plan_of_text text = Normal TaskWorkflow.fallback.
Proof.
  intros H. unfold plan_of_text, TaskWorkflow.plan_of_text, TaskWorkflow.safeJsonParse.
  rewrite H. reflexivity.
Qed.

(** So does one that parses to anything but an object whose [plan] is an
    array. *)
Lemma fallback_when_no_plan_array text v :
  Json.parse text = Some v ->
  (∀ members l, v = JObject members -> Json.own (js "plan") members ≠ Some (JArray l)) ->
  plan_of_text text = Normal TaskWorkflow.fallback.
Proof.
  intros H Hplan.
  unfold plan_of_text, TaskWorkflow.plan_of_text, TaskWorkflow.safeJsonParse.
  rewrite H. destruct v as [|[]|lx|s|l|members];
    cbn [TaskWorkflow.truthy Json.get]; try reflexivity.
  - destruct (Number_truthy lx); reflexivity.
  - destruct (negb _); reflexivity.
  - specialize (Hplan members).
    destruct (Json.own (js "plan") members) as [p|]; [|reflexivity].
    destruct p; try reflexivity.
    exfalso. eapply Hplan; reflexivity.
Qed.

(** Whenever the step gives a plan, it has at most 3 items. *)
Lemma plan_at_most_3 text steps :
  plan_of_text text = Normal steps -> length steps <= 3.
Proof.
  unfold plan_of_text, TaskWorkflow.plan_of_text.
  destruct (TaskWorkflow.truthy _ _); [|intros [= <-]; cbn; lia].
  destruct (Json.get _ _) as [[[| | | |l|]|]|]; try discriminate;
    try (intros [= <-]; cbn; lia).
  destruct (TaskWorkflow.map_String _ l) as [ts|]; [|discriminate].
  intros [= <-]. apply slice_first_3_length.
Qed.

(** C2, at a failing input.  The model answers [{"plan":[{"toString":0}]}].
    This is valid JSON with a [plan] array, but its item cannot be
    converted to text: [String] throws, so the step gives no plan, neither
    one of at most 3 text items nor the three generic steps. *)
Theorem plan_step_throws_on_unconvertible_item :
  Json.parse (js Sample.bad_plan)
  = Some (JObject [(js "plan", JArray [JObject [(js "toString", JNumber (js "0"))]])])
  ∧ plan_of_text (js Sample.bad_plan) = Throw
  ∧ ∀ JSON_stringify goal,
      TaskWorkflow.run Number_toString Number_truthy JSON_stringify Sample.bad_model goal
      = Throw.
Proof.
  split; [vm_compute; reflexivity|].
  assert (H : plan_of_text (js Sample.bad_plan) = Throw) by (vm_compute; reflexivity).
  split; [exact H|].
  intros JSON_stringify goal.
  unfold TaskWorkflow.run, TaskWorkflow.plan_step, Sample.bad_model, TaskWorkflow.text_of.
  cbn [Json.get_opt Json.own Json.nullish TaskWorkflow.String_ TaskWorkflow.ToString].
  change (Json.nullish _ _) with (Some (JString (js Sample.bad_plan))).
  cbn [TaskWorkflow.String_ TaskWorkflow.ToString].
  fold plan_of_text. rewrite H. reflexivity.
Qed.

End PlanFacts.

(** * Further properties *)

(** ** The Conversation Store *)

(** X1.  An append answers with the new size, which is the old size plus one,
    capped at 20; that many messages are stored afterwards. *)
Theorem append_reports_capped_size (user : jsstring) (mem : MemoryDO.Namespace) (msg : JSON) :
  fst (MemoryDO.dispatch user
         {| MemoryDO.method := "POST"; MemoryDO.pathname := "/append";
            MemoryDO.body := Some msg |} mem)
  = Normal (MemoryDO.RespAppended (Nat.min 20 (ConversationStore.stored_length user mem + 1)))
  ∧ ConversationStore.stored_length user (ConversationStore.append user mem msg)
    = Nat.min 20 (ConversationStore.stored_length user mem + 1).
Proof.
  assert (Hlen : ∀ l : list JSON, length (slice (l ++ [msg]) (-20) None)
                                  = Nat.min 20 (length l + 1)).
  { intros l. rewrite slice_last_20, length_drop, length_app. cbn [length]. lia. }
  split.
  - change (fst (MemoryDO.dispatch user _ mem))
      with (Normal (MemoryDO.RespAppended
                      (length (slice (default [] (ConversationStore.stored user mem) ++ [msg])
                                 (-20) None)))).
    rewrite Hlen. reflexivity.
  - unfold ConversationStore.stored_length. rewrite stored_append. cbn [default from_option id].
    apply Hlen.
Qed.

(** X2.  While fewer than 20 messages are stored, an append loses nothing:
    [get] then returns the former history followed by the new message. *)
Theorem append_below_bound_keeps_all (user : jsstring) (mem : MemoryDO.Namespace) (msg : JSON) :
  ConversationStore.stored_length user mem < 20 ->
  ConversationStore.get user (ConversationStore.append user mem msg)
  = Normal (MemoryDO.RespHistory (default [] (ConversationStore.stored user mem) ++ [msg])).
Proof.
  unfold ConversationStore.stored_length. intros Hlt.
  rewrite dispatch_get, stored_append. cbn [default from_option id].
  rewrite slice_last_20, length_app. cbn [length].
  replace (length (default [] (ConversationStore.stored user mem)) + 1 - 20) with 0 by lia.
  reflexivity.
Qed.

Lemma append_below_bound_keeps_all_witness :
  ConversationStore.stored_length (js "demo")
    (ConversationStore.append (js "demo") ∅ (JString (js "a"))) < 20
  ∧ ConversationStore.get (js "demo")
      (ConversationStore.append (js "demo")
         (ConversationStore.append (js "demo") ∅ (JString (js "a"))) (JString (js "b")))
    = Normal (MemoryDO.RespHistory [JString (js "a"); JString (js "b")]).
Proof.
  split; [vm_compute; lia|].
  rewrite (append_below_bound_keeps_all (js "demo")
             (ConversationStore.append (js "demo") ∅ (JString (js "a"))) (JString (js "b")))
    by (vm_compute; lia).
  vm_compute. reflexivity.
Defined.

(** X4.  Only an append that has a body and a clear write: any other request
    (a [get], an append whose body is not JSON, an unknown path or method)
    leaves the stored history as it is. *)
Theorem only_append_and_clear_write
    (user : jsstring) (req : MemoryDO.Request) (mem : MemoryDO.Namespace) :
  ¬ writes req ->
  ConversationStore.stored user (snd (MemoryDO.dispatch user req mem))
  = ConversationStore.stored user mem.
Proof.
  intros Hro. unfold ConversationStore.stored, MemoryDO.dispatch.
  destruct (MemoryDO.fetch req (MemoryDO.storage_of user mem)) as [r st] eqn:E. cbn [snd].
  unfold MemoryDO.storage_of at 1. rewrite lookup_insert_eq. cbn [default from_option id].
  unfold MemoryDO.fetch in E.
  repeat (destruct (decide _) as [[Hm Hp]|_] in E);
    try destruct (MemoryDO.body req) eqn:Hb;
    injection E as <- <-; try reflexivity;
    exfalso; apply Hro; (split; [exact Hm|]);
    first [left; split; [exact Hp|congruence] | right; exact Hp].
Qed.

Lemma only_append_and_clear_write_witness :
  ¬ writes {| MemoryDO.method := "GET"; MemoryDO.pathname := "/clear"; MemoryDO.body := None |}
  ∧ ConversationStore.stored (js "demo")
      (snd (MemoryDO.dispatch (js "demo")
              {| MemoryDO.method := "GET"; MemoryDO.pathname := "/clear";
                 MemoryDO.body := None |}
              (ConversationStore.append (js "demo") ∅ (JString (js "a")))))
    = Some [JString (js "a")].
Proof.
  assert (H : ¬ writes {| MemoryDO.method := "GET"; MemoryDO.pathname := "/clear";
                          MemoryDO.body := None |})
    by (intros [Hm _]; discriminate Hm).
  split; [exact H|].
  rewrite (only_append_and_clear_write (js "demo") _
             (ConversationStore.append (js "demo") ∅ (JString (js "a"))) H).
  reflexivity.
Defined.

(** X5.  From an empty namespace, whatever requests the objects handle and in
    whatever order, no identity ever has more than 20 messages stored. *)
Theorem bound_holds_under_any_traffic
    (calls : list (jsstring * MemoryDO.Request)) (user : jsstring) :
  ConversationStore.stored_length user (run_calls calls ∅) <= 20.
Proof.
  induction calls as [|[u req] calls IH] using rev_ind.
  - unfold ConversationStore.stored_length, ConversationStore.stored, MemoryDO.storage_of.
    cbn [run_calls foldl]. rewrite lookup_empty. cbn [default from_option id].
    rewrite lookup_empty. cbn. lia.
  - unfold run_calls in *. rewrite foldl_snoc. cbn [fst snd].
    destruct (decide (user = u)) as [->|Hne].
    + apply dispatch_keeps_bound. exact IH.
    + unfold ConversationStore.stored_length.
      rewrite dispatch_other by assumption. exact IH.
Qed.

(** X6.  After a clear the history starts afresh: an append then leaves
    exactly the appended message. *)
Theorem clear_then_append (user : jsstring) (mem : MemoryDO.Namespace) (msg : JSON) :
  ConversationStore.get user
    (ConversationStore.append user (ConversationStore.clear user mem) msg)
  = Normal (MemoryDO.RespHistory [msg]).
Proof.
  rewrite dispatch_get, stored_append, stored_clear. reflexivity.
Qed.

(** ** The stream relay *)

Lemma relay_transcript user cs e w :
  Worker.full (snd (Worker.relay None user
                      {| Worker.chunks := cs; Worker.ending := e |} w))
  = transcript (concat cs).
Proof.
  destruct (relay_spec None user {| Worker.chunks := cs; Worker.ending := e |} w) as (Hfull & _).
  destruct (read_loop_from_start cs e w) as (_ & _ & Hf).
  cbn [Worker.chunks Worker.ending] in *. rewrite Hfull, Hf. reflexivity.
Qed.

Lemma relay_forwards_every_chunk_aux user cs e w :
  Worker.queue (Worker.out (snd (Worker.relay None user
                                   {| Worker.chunks := cs; Worker.ending := e |} w))) = cs.
Proof.
  destruct (relay_spec None user {| Worker.chunks := cs; Worker.ending := e |} w)
    as (_ & _ & _ & _ & Hq).
  destruct (read_loop_from_start cs e w) as (Hq1 & _).
  cbn [Worker.chunks Worker.ending] in *. rewrite Hq. exact Hq1.
Qed.

(** X7.  With a client that stays, every chunk read from the upstream is
    enqueued on the outgoing stream as it is and in order, whatever the
    bytes are (not UTF-8, not JSON, no frames), however the upstream ends
    and whether or not the store fails. *)
Theorem relay_forwards_every_chunk
    (user : jsstring) (ups : Worker.Upstream) (w : Worker.World) :
  Worker.queue (Worker.out (snd (Worker.relay None user ups w))) = Worker.chunks ups.
Proof.
  destruct (relay_spec None user ups w) as (_ & _ & _ & _ & Hq).
  destruct (read_loop_from_start (Worker.chunks ups) (Worker.ending ups) w) as (Hq1 & _).
  rewrite Hq. exact Hq1.
Qed.

(** X8.  When the call on the store does not fail, [controller.close()] is
    called exactly once on every run: after a normal end of the upstream,
    after a failed read, and after the client has left. *)
Theorem close_called_once_when_store_works
    (cancel : option nat) (user : jsstring) (ups : Worker.Upstream) (w : Worker.World) :
  next_call_fails w = false ->
  close_calls (Worker.trace (snd (Worker.relay cancel user ups w)))
  = close_calls (Worker.trace w) + 1.
Proof.
  intros Hok. pose proof (relay_close_calls cancel user ups w) as H. cbn zeta in H.
  rewrite H, Hok, andb_false_r. reflexivity.
Qed.

Lemma close_called_once_when_store_works_witness :
  next_call_fails Sample.world = false
  ∧ close_calls (Worker.trace
       (snd (Worker.relay (Some 1) (js "demo")
               {| Worker.chunks := [Sample.frame1; Sample.frame2];
                  Worker.ending := Worker.EndError |} Sample.world)))
    = close_calls (Worker.trace Sample.world) + 1.
Proof.
  split; [reflexivity|].
  apply (close_called_once_when_store_works (Some 1) (js "demo")
           {| Worker.chunks := [Sample.frame1; Sample.frame2];
              Worker.ending := Worker.EndError |} Sample.world).
  reflexivity.
Defined.

Lemma read_loop_ending cs w :
  snd (Worker.read_loop cs Worker.EndError w) = snd (Worker.read_loop cs Worker.EndDone w).
Proof.
  revert w. induction cs as [|v cs IH]; intros w; [reflexivity|].
  cbn [Worker.read_loop]. unfold Worker.bind.
  destruct (Worker.controller_enqueue v w) as [[[]|] w1]; [|reflexivity].
  destruct (Worker.feed v w1) as [[[]|] w2]; [|reflexivity].
  apply IH.
Qed.

(** X9.  A read of the upstream that fails costs nothing of what was
    received: the chunks enqueued on the outgoing stream, the transcript,
    the calls made on the store and what the store holds are the same as if
    the upstream had ended normally after the same chunks. *)
Theorem failed_read_keeps_partial_transcript
    (cancel : option nat) (user : jsstring) (cs : list (list byte)) (w : Worker.World) :
  let w1 := snd (Worker.relay cancel user
                   {| Worker.chunks := cs; Worker.ending := Worker.EndError |} w) in
  let w2 := snd (Worker.relay cancel user
                   {| Worker.chunks := cs; Worker.ending := Worker.EndDone |} w) in
  Worker.queue (Worker.out w1) = Worker.queue (Worker.out w2)
  ∧ Worker.full w1 = Worker.full w2
  ∧ Worker.trace w1 = Worker.trace w2
  ∧ Worker.memory w1 = Worker.memory w2.
Proof.
  cbn zeta.
  destruct (relay_spec cancel user
              {| Worker.chunks := cs; Worker.ending := Worker.EndError |} w)
    as (Hf1 & Ht1 & Hm1 & _ & Hq1).
  destruct (relay_spec cancel user
              {| Worker.chunks := cs; Worker.ending := Worker.EndDone |} w)
    as (Hf2 & Ht2 & Hm2 & _ & Hq2).
  cbn [Worker.chunks Worker.ending] in *.
  rewrite Hf1, Ht1, Hm1, Hq1, Hf2, Ht2, Hm2, Hq2, read_loop_ending. auto.
Qed.

(** A chunk more never takes text back: the accumulator only grows. *)
Lemma process_line_grows full line : full `prefix_of` Worker.process_line full line.
Proof.
  unfold Worker.process_line.
  destruct (negb _); [reflexivity|]. destruct (_ || _); [reflexivity|].
  destruct (Json.parse _) as [obj|]; [|reflexivity].
  destruct (Json.get obj _) as [[[]|]|]; try reflexivity.
  apply prefix_app_r. reflexivity.
Qed.

Lemma process_frame_grows full frame : full `prefix_of` Worker.process_frame full frame.
Proof.
  unfold Worker.process_frame. generalize (split_on 10%N frame). intros lines.
  revert full. induction lines as [|line lines IH]; intros full; [reflexivity|].
  cbn [foldl]. etransitivity; [apply process_line_grows|apply IH].
Qed.

Lemma drain_grows full buffer : full `prefix_of` fst (Worker.drain full buffer).
Proof.
  remember (length buffer) as n eqn:Hn.
  revert full buffer Hn. induction n as [n IH] using lt_wf_ind. intros full buffer ->.
  rewrite drain_step. cbn zeta.
  destruct (indexOf buffer Worker.delimiter =? -1)%Z eqn:E; [reflexivity|].
  apply Z.eqb_neq in E.
  destruct (indexOf_bounds buffer Worker.delimiter) as [H|[H0 H2]]; [congruence|].
  simpl length in H2.
  etransitivity; [apply process_frame_grows|].
  eapply IH; [|reflexivity].
  rewrite slice_suffix, length_drop by lia. lia.
Qed.

Lemma transcript_grows (bytes more : list byte) :
  transcript bytes `prefix_of` transcript (bytes ++ more).
Proof.
  unfold transcript. rewrite decode_app.
  destruct (TextDecoder.decode bytes TextDecoder.init) as [t1 st1].
  destruct (TextDecoder.decode more st1) as [t2 st2]. cbn [fst].
  change (t1 ++ t2) with ([] ++ t1 ++ t2). rewrite app_assoc, drain_app.
  cbn [app]. destruct (Worker.drain [] t1) as [f b]. cbn [fst].
  apply drain_grows.
Qed.

(** X10.  What the relay has accumulated after some chunks is a prefix of
    what it has accumulated after more chunks: text is only ever added at the
    end of the transcript, never taken back or changed. *)
Theorem transcript_only_grows
    (user : jsstring) (cs more : list (list byte)) (e e' : Worker.ReadEnd) (w : Worker.World) :
  Worker.full (snd (Worker.relay None user
                      {| Worker.chunks := cs; Worker.ending := e |} w))
  `prefix_of`
  Worker.full (snd (Worker.relay None user
                      {| Worker.chunks := cs ++ more; Worker.ending := e' |} w)).
Proof.
  rewrite !relay_transcript, concat_app. apply transcript_grows.
Qed.

(** Once the client has left, the loop stops at the next chunk and leaves
    the world as it is. *)
Lemma read_loop_closed cs e w :
  Worker.state (Worker.out w) ≠ Worker.Readable ->
  snd (Worker.read_loop cs e w) = w.
Proof.
  intros Hst. destruct cs as [|v cs]; [destruct e; reflexivity|].
  cbn [Worker.read_loop]. unfold Worker.bind, Worker.controller_enqueue.
  destruct (Worker.state (Worker.out w)); [congruence|reflexivity..].
Qed.

(** With a client that leaves after [c] chunks in all, the loop forwards and
    feeds the chunks up to that count and no more. *)
Lemma read_loop_cancel cs e w c :
  Worker.state (Worker.out w) = Worker.Readable ->
  Worker.cancel_after (Worker.out w) = Some c ->
  length (Worker.queue (Worker.out w)) < c ->
  settled w ->
  let n := c - length (Worker.queue (Worker.out w)) in
  let w1 := snd (Worker.read_loop cs e w) in
  text_state w1 = text_state (snd (Worker.feed (concat (take n cs)) w))
  ∧ Worker.queue (Worker.out w1) = Worker.queue (Worker.out w) ++ take n cs.
Proof.
  revert w. induction cs as [|v cs IH]; intros w Hst Hc Hlt Hs; cbn zeta.
  - rewrite take_nil. cbn [concat]. rewrite feed_nil, app_nil_r by assumption.
    destruct e; auto.
  - set (q := Worker.queue (Worker.out w) ++ [v]).
    set (w2 := Worker.set_out
                 {| Worker.state := if decide (Some c = Some (length q))
                                    then Worker.Closed else Worker.Readable;
                    Worker.queue := q; Worker.cancel_after := Some c |}
                 (snd (Worker.feed v w))).
    assert (Hstep : snd (Worker.read_loop (v :: cs) e w) = snd (Worker.read_loop cs e w2)).
    { cbn [Worker.read_loop]. unfold Worker.bind at 1, Worker.controller_enqueue.
      rewrite Hst, Hc. unfold Worker.bind at 1.
      rewrite (surjective_pairing (Worker.feed v _)), feed_normal, feed_set_out.
      reflexivity. }
    rewrite Hstep. clear Hstep.
    assert (Hs2 : settled w2) by (unfold settled, w2; cbn; apply feed_settled).
    assert (Hq2 : Worker.queue (Worker.out w2) = q) by reflexivity.
    assert (Hc2 : Worker.cancel_after (Worker.out w2) = Some c) by reflexivity.
    assert (Hlen : length q = length (Worker.queue (Worker.out w)) + 1)
      by (unfold q; rewrite length_app; reflexivity).
    assert (Htake : take (c - length (Worker.queue (Worker.out w))) (v :: cs)
                    = v :: take (c - length q) cs).
    { rewrite Hlen.
      replace (c - length (Worker.queue (Worker.out w)))
        with (S (c - (length (Worker.queue (Worker.out w)) + 1))) by lia.
      reflexivity. }
    rewrite Htake. cbn [concat]. rewrite feed_app.
    assert (Hstate : Worker.state (Worker.out w2)
                     = if decide (Some c = Some (length q))
                       then Worker.Closed else Worker.Readable) by reflexivity.
    destruct (decide (c = length q)) as [Heq|Hne].
    + assert (Hst2 : Worker.state (Worker.out w2) ≠ Worker.Readable).
      { rewrite Hstate, decide_True by congruence. discriminate. }
      rewrite read_loop_closed by assumption.
      rewrite <- Heq, Nat.sub_diag, take_0. cbn [concat].
      rewrite feed_nil by apply feed_settled. split; [reflexivity|].
      rewrite Hq2. reflexivity.
    + assert (Hst2 : Worker.state (Worker.out w2) = Worker.Readable).
      { rewrite Hstate, decide_False by congruence. reflexivity. }
      assert (Hlt2 : length (Worker.queue (Worker.out w2)) < c).
      { rewrite Hq2. lia. }
      destruct (IH w2 Hst2 Hc2 Hlt2 Hs2) as (Ht & Hq). cbn zeta in Ht, Hq.
      rewrite Ht, Hq, Hq2. split; [apply feed_text; reflexivity|].
      unfold q. rewrite <- app_assoc. reflexivity.
Qed.

(** X11.  When the client leaves after [k] chunks, exactly the first [k]
    chunks have been enqueued, and the transcript, the calls on the store
    and what the store holds are those of an upstream that had sent those [k]
    chunks only: the partial transcript is still stored. *)
Theorem client_leaving_keeps_partial_transcript
    (k : nat) (user : jsstring) (cs : list (list byte)) (e : Worker.ReadEnd)
    (w : Worker.World) :
  let w1 := snd (Worker.relay (Some k) user
                   {| Worker.chunks := cs; Worker.ending := e |} w) in
  let w2 := snd (Worker.relay None user
                   {| Worker.chunks := take k cs; Worker.ending := e |} w) in
  Worker.queue (Worker.out w1) = take k cs
  ∧ Worker.full w1 = Worker.full w2
  ∧ Worker.trace w1 = Worker.trace w2
  ∧ Worker.memory w1 = Worker.memory w2.
Proof.
  cbn zeta.
  destruct (relay_spec (Some k) user {| Worker.chunks := cs; Worker.ending := e |} w)
    as (Hf1 & Ht1 & Hm1 & _ & Hq1).
  destruct (relay_spec None user {| Worker.chunks := take k cs; Worker.ending := e |} w)
    as (Hf2 & Ht2 & Hm2 & _ & _).
  destruct (read_loop_from_start (take k cs) e w) as (_ & _ & Hfull2).
  fold (transcript (concat (take k cs))) in Hfull2.
  cbn [Worker.chunks Worker.ending] in *.
  assert (Hloop : Worker.full (snd (Worker.read_loop cs e (relay_start (Some k) w)))
                  = transcript (concat (take k cs))
                  ∧ Worker.queue (Worker.out (snd (Worker.read_loop cs e
                                                     (relay_start (Some k) w))))
                    = take k cs).
  { destruct k as [|k].
    - rewrite read_loop_closed by discriminate. rewrite take_0. split; reflexivity.
    - destruct (read_loop_cancel cs e (relay_start (Some (S k)) w) (S k))
        as (Ht & Hq); try reflexivity; [cbn; lia|].
      cbn zeta in Ht, Hq. cbn [relay_start Worker.out Worker.set_out Worker.new_controller
                                 Worker.queue length] in Ht, Hq.
      rewrite Nat.sub_0_r in Ht, Hq. split; [|exact Hq].
      apply (f_equal (fun t => fst (fst t))) in Ht. cbn [text_state fst] in Ht.
      rewrite Ht. apply feed_from_start. }
  destruct Hloop as (Hl & Hlq).
  rewrite Hq1, Hlq, Hf1, Ht1, Hm1, Hf2, Ht2, Hm2, Hl, Hfull2. auto.
Qed.

(** X12.  Text that has no blank line in it is enqueued but accumulates
    nothing: a last frame that the upstream does not end with a blank line
    is not part of the transcript, and with no other frame nothing is
    stored. *)
Theorem unterminated_frame_is_dropped
    (user : jsstring) (cs : list (list byte)) (e : Worker.ReadEnd) (w : Worker.World) :
  indexOf (fst (TextDecoder.decode (concat cs) TextDecoder.init)) Worker.delimiter = (-1)%Z ->
  let w' := snd (Worker.relay None user {| Worker.chunks := cs; Worker.ending := e |} w) in
  Worker.queue (Worker.out w') = cs
  ∧ Worker.full w' = []
  ∧ store_calls (Worker.trace w') = store_calls (Worker.trace w)
  ∧ Worker.memory w' = Worker.memory w.
Proof.
  intros Hno. cbn zeta.
  pose proof (relay_forwards_every_chunk_aux user cs e w) as Hq.
  pose proof (relay_transcript user cs e w) as Hfull.
  assert (Hnil : transcript (concat cs) = []).
  { unfold transcript. rewrite drain_step. cbn zeta. rewrite Hno. reflexivity. }
  rewrite Hnil in Hfull.
  destruct (relay_spec None user {| Worker.chunks := cs; Worker.ending := e |} w)
    as (Hf & Htr & Hmem & _).
  rewrite <- Hf, Hfull in Htr, Hmem.
  change (worth_storing []) with false in *. cbn [andb] in *.
  rewrite Htr, Hmem, Hfull, store_calls_app. cbn. rewrite app_nil_r. auto.
Qed.

Lemma unterminated_frame_is_dropped_witness :
  indexOf (fst (TextDecoder.decode (concat [Sample.unfinished_frame]) TextDecoder.init))
    Worker.delimiter = (-1)%Z
  ∧ let w' := snd (Worker.relay None (js "demo")
                     {| Worker.chunks := [Sample.unfinished_frame];
                        Worker.ending := Worker.EndDone |} Sample.world) in
    Worker.queue (Worker.out w') = [Sample.unfinished_frame]
    ∧ Worker.full w' = []
    ∧ store_calls (Worker.trace w') = store_calls (Worker.trace Sample.world)
    ∧ Worker.memory w' = Worker.memory Sample.world.
Proof.
  split; [vm_compute; reflexivity|].
  apply (unterminated_frame_is_dropped (js "demo") [Sample.unfinished_frame]
           Worker.EndDone Sample.world).
  vm_compute. reflexivity.
Defined.

(** ** The handler: routes *)

Section Routes.

Variable JSON_stringify : JSON -> jsstring.
Variable env : Worker.Env.

Lemma fetch_chat req :
  Worker.method req = "POST"%string -> Worker.pathname req = "/api/chat"%string ->
  Worker.fetch JSON_stringify env req = Worker.chat JSON_stringify env req.
Proof.
  intros Hm Hp. unfold Worker.fetch. rewrite Hm, Hp. cbn [String.prefix negb].
  destruct (decide _) as [_|Hn]; [reflexivity|]. exfalso. apply Hn. auto.
Qed.

Lemma fetch_task_start req :
  Worker.method req = "POST"%string -> Worker.pathname req = "/api/task"%string ->
  Worker.fetch JSON_stringify env req = Worker.task_start env req.
Proof.
  intros Hm Hp. unfold Worker.fetch. rewrite Hm, Hp. cbn [String.prefix negb].
  destruct (decide _) as [[_ H]|_]; [discriminate H|].
  destruct (decide _) as [_|Hn]; [reflexivity|]. exfalso. apply Hn. auto.
Qed.

Lemma fetch_task_poll req :
  Worker.method req = "GET"%string -> Worker.pathname req = "/api/task"%string ->
  Worker.fetch JSON_stringify env req = Worker.task_poll env req.
Proof.
  intros Hm Hp. unfold Worker.fetch. rewrite Hm, Hp. cbn [String.prefix negb].
  do 2 (destruct (decide _) as [[H _]|_]; [discriminate H|]).
  destruct (decide _) as [_|Hn]; [reflexivity|]. exfalso. apply Hn. auto.
Qed.

Lemma fetch_clear req :
  Worker.method req = "POST"%string -> Worker.pathname req = "/api/clear"%string ->
  Worker.fetch JSON_stringify env req = Worker.clear req.
Proof.
  intros Hm Hp. unfold Worker.fetch. rewrite Hm, Hp. cbn [String.prefix negb].
  do 2 (destruct (decide _) as [[_ H]|_]; [discriminate H|]).
  destruct (decide _) as [[H _]|_]; [discriminate H|].
  destruct (decide _) as [_|Hn]; [reflexivity|]. exfalso. apply Hn. auto.
Qed.

Lemma fetch_chat_stream req :
  Worker.method req = "POST"%string -> Worker.pathname req = "/api/chat/stream"%string ->
  Worker.fetch JSON_stringify env req = Worker.chat_stream env req.
Proof.
  intros Hm Hp. unfold Worker.fetch. rewrite Hm, Hp. cbn [String.prefix negb].
  do 2 (destruct (decide _) as [[_ H]|_]; [discriminate H|]).
  destruct (decide _) as [[H _]|_]; [discriminate H|].
  destruct (decide _) as [[_ H]|_]; [discriminate H|].
  destruct (decide _) as [_|Hn]; [reflexivity|]. exfalso. apply Hn. auto.
Qed.

End Routes.

(** A call on the store that does not fail. *)
Lemma stub_fetch_ok user req w :
  Worker.stub_faults w = [] ->
  Worker.stub_fetch user req w
  = (fst (MemoryDO.dispatch user req (Worker.memory w)),
     Worker.set_memory (fun _ => snd (MemoryDO.dispatch user req (Worker.memory w)))
       (Worker.log (Worker.EvStubFetch user req) w)).
Proof.
  destruct w as [mem faults tr full buffer dec out]. cbn [Worker.stub_faults].
  intros ->. unfold Worker.stub_fetch. cbn.
  destruct (MemoryDO.dispatch user req mem) as [r mem']. reflexivity.
Qed.

(** The world after a [get]: the object exists, and stores what it stored. *)
Lemma stored_after_get user mem :
  ConversationStore.stored user (snd (MemoryDO.dispatch user Worker.get_request mem))
  = ConversationStore.stored user mem.
Proof.
  unfold ConversationStore.stored, MemoryDO.dispatch.
  change (MemoryDO.fetch Worker.get_request (MemoryDO.storage_of user mem))
    with (Normal (MemoryDO.RespHistory (MemoryDO.load_history (MemoryDO.storage_of user mem))),
          MemoryDO.storage_of user mem).
  cbn [snd]. unfold MemoryDO.storage_of at 1. rewrite lookup_insert_eq. reflexivity.
Qed.

(** X13.  A chat request that goes through stores the turn in order: the
    user message first, then (after the model has seen the history that ends
    with that message) the reply as the assistant message; the reply is what
    the response carries.  The reply is the [response] of the model's result,
    else its [output_text], else the result as JSON text.  Each message is
    stored as it reads back from the JSON text it is sent in, and the model
    sees the history as it reads back from the store's answer. *)
Theorem chat_stores_the_turn
    (JSON_stringify : JSON -> jsstring) (env : Worker.Env) (req : Worker.Request)
    (w : Worker.World) (v : JSON) (m result : option JSON) :
  Worker.method req = "POST"%string -> Worker.pathname req = "/api/chat"%string ->
  Worker.body req = Some v -> Json.get v (js "message") = Normal m ->
  Worker.stub_faults w = [] ->
  let user := Worker.userId req in
  let history := slice (default [] (ConversationStore.stored user (Worker.memory w))
                        ++ [Json.wire (Worker.message "user" m)]) (-20) None in
  Worker.AI_run env (Worker.system :: (Json.wire <$> history)) = Normal result ->
  let reply :=
    Json.nullish (Json.nullish (Json.get_opt result (js "response"))
                               (Json.get_opt result (js "output_text")))
                 (JString <$> (JSON_stringify <$> result)) in
  let r := Worker.fetch JSON_stringify env req w in
  fst r = Normal (Worker.Response_json [(js "reply", reply)])
  ∧ store_calls (Worker.trace (snd r))
    = store_calls (Worker.trace w)
      ++ [(user, Worker.append_request "user" m); (user, Worker.get_request);
          (user, Worker.append_request "assistant" reply)]
  ∧ ConversationStore.stored user (Worker.memory (snd r))
    = Some (slice (history ++ [Json.wire (Worker.message "assistant" reply)]) (-20) None).
Proof.
  intros Hm Hp Hb Hmsg Hf user history Hai reply r. subst r.
  rewrite fetch_chat by assumption.
  set (mem1 := ConversationStore.append user (Worker.memory w)
                 (Json.wire (Worker.message "user" m))).
  assert (Hh : default [] (ConversationStore.stored user mem1) = history)
    by (unfold mem1; rewrite stored_append; reflexivity).
  assert (E : ∃ wf,
    Worker.chat JSON_stringify env req w
    = (Normal (Worker.Response_json [(js "reply", reply)]), wf)
    ∧ Worker.trace wf
      = Worker.trace w
        ++ [Worker.EvStubFetch user (Worker.append_request "user" m);
            Worker.EvStubFetch user Worker.get_request;
            Worker.EvAIRun (Worker.system :: (Json.wire <$> history)) false;
            Worker.EvStubFetch user (Worker.append_request "assistant" reply)]
    ∧ Worker.memory wf
      = ConversationStore.append user
          (snd (MemoryDO.dispatch user Worker.get_request mem1))
          (Json.wire (Worker.message "assistant" reply))).
  { eexists. split; [|split].
    - unfold Worker.chat, Worker.request_field. rewrite Hb. fold user.
      unfold Worker.bind at 1. unfold Worker.lift at 1. rewrite Hmsg.
      unfold Worker.bind at 1. rewrite stub_fetch_ok by exact Hf.
      rewrite dispatch_append. cbn [fst snd].
      unfold Worker.bind at 1. rewrite stub_fetch_ok by exact Hf.
      cbn [Worker.memory Worker.set_memory Worker.log]. fold mem1.
      change (fst (MemoryDO.dispatch user Worker.get_request mem1))
        with (Normal (MemoryDO.RespHistory (default [] (ConversationStore.stored user mem1)))).
      cbn [fst snd Worker.history_of].
      unfold Worker.bind at 1. unfold Worker.ret at 1. rewrite Hh.
      unfold Worker.bind at 1, Worker.ai_run, Worker.bind at 1, Worker.emit, Worker.lift.
      rewrite Hai. fold reply.
      unfold Worker.bind at 1. rewrite stub_fetch_ok by exact Hf.
      rewrite dispatch_append. cbn [fst snd Worker.ret]. reflexivity.
    - cbn. rewrite <- !app_assoc. reflexivity.
    - reflexivity. }
  destruct E as (wf & -> & Htr & Hmem). cbn [fst snd].
  split; [reflexivity|]. split.
  - rewrite Htr, store_calls_app. reflexivity.
  - rewrite Hmem, stored_append, stored_after_get, Hh. reflexivity.
Qed.

Lemma chat_stores_the_turn_witness :
  Worker.method Sample.chat_hi = "POST"%string
  ∧ Worker.pathname Sample.chat_hi = "/api/chat"%string
  ∧ Worker.body Sample.chat_hi = Some (JObject [(js "message", JString (js "hi"))])
  ∧ Json.get (JObject [(js "message", JString (js "hi"))]) (js "message")
    = Normal (Some (JString (js "hi")))
  ∧ Worker.stub_faults Sample.world = []
  ∧ ConversationStore.stored (js "demo")
      (Worker.memory (snd (Worker.fetch Sample.stringify Sample.env Sample.chat_hi
                             Sample.world)))
    = Some [Worker.message "user" (Some (JString (js "hi")));
            Worker.message "assistant" (Some (JString (js "Hi")))].
Proof.
  do 5 (split; [reflexivity|]).
  destruct (chat_stores_the_turn Sample.stringify Sample.env Sample.chat_hi Sample.world
              (JObject [(js "message", JString (js "hi"))]) (Some (JString (js "hi")))
              (Some (JObject [(js "response", JString (js "Hi"))]))
              eq_refl eq_refl eq_refl eq_refl eq_refl eq_refl) as (_ & _ & H).
  refine (eq_trans H _). vm_compute. reflexivity.
Defined.

(** X14.  When the model fails, the chat request fails with it, after the
    user message has been stored (as it reads back from the JSON text it is
    sent in): the history then ends with a user message that has no reply,
    and no assistant message is written. *)
Theorem chat_model_failure_keeps_user_message
    (JSON_stringify : JSON -> jsstring) (env : Worker.Env) (req : Worker.Request)
    (w : Worker.World) (v : JSON) (m : option JSON) :
  Worker.method req = "POST"%string -> Worker.pathname req = "/api/chat"%string ->
  Worker.body req = Some v -> Json.get v (js "message") = Normal m ->
  Worker.stub_faults w = [] ->
  let user := Worker.userId req in
  let history := slice (default [] (ConversationStore.stored user (Worker.memory w))
                        ++ [Json.wire (Worker.message "user" m)]) (-20) None in
  Worker.AI_run env (Worker.system :: (Json.wire <$> history)) = Throw ->
  let r := Worker.fetch JSON_stringify env req w in
  fst r = Throw
  ∧ store_calls (Worker.trace (snd r))
    = store_calls (Worker.trace w)
      ++ [(user, Worker.append_request "user" m); (user, Worker.get_request)]
  ∧ ConversationStore.stored user (Worker.memory (snd r)) = Some history.
Proof.
  intros Hm Hp Hb Hmsg Hf user history Hai r. subst r.
  rewrite fetch_chat by assumption.
  set (mem1 := ConversationStore.append user (Worker.memory w)
                 (Json.wire (Worker.message "user" m))).
  assert (Hh : ConversationStore.stored user mem1 = Some history)
    by (unfold mem1; rewrite stored_append; reflexivity).
  assert (E : ∃ wf,
    Worker.chat JSON_stringify env req w = (Throw, wf)
    ∧ Worker.trace wf
      = Worker.trace w
        ++ [Worker.EvStubFetch user (Worker.append_request "user" m);
            Worker.EvStubFetch user Worker.get_request;
            Worker.EvAIRun (Worker.system :: (Json.wire <$> history)) false]
    ∧ Worker.memory wf = snd (MemoryDO.dispatch user Worker.get_request mem1)).
  { eexists. split; [|split].
    - unfold Worker.chat, Worker.request_field. rewrite Hb. fold user.
      unfold Worker.bind at 1. unfold Worker.lift at 1. rewrite Hmsg.
      unfold Worker.bind at 1. rewrite stub_fetch_ok by exact Hf.
      rewrite dispatch_append. cbn [fst snd].
      unfold Worker.bind at 1. rewrite stub_fetch_ok by exact Hf.
      cbn [Worker.memory Worker.set_memory Worker.log]. fold mem1.
      change (fst (MemoryDO.dispatch user Worker.get_request mem1))
        with (Normal (MemoryDO.RespHistory (default [] (ConversationStore.stored user mem1)))).
      cbn [fst snd Worker.history_of].
      unfold Worker.bind at 1. unfold Worker.ret at 1. rewrite Hh. cbn [default from_option id].
      unfold Worker.bind at 1, Worker.ai_run, Worker.bind at 1, Worker.emit, Worker.lift.
      rewrite Hai. reflexivity.
    - cbn. rewrite <- !app_assoc. reflexivity.
    - reflexivity. }
  destruct E as (wf & -> & Htr & Hmem). cbn [fst snd].
  split; [reflexivity|]. split.
  - rewrite Htr, store_calls_app. reflexivity.
  - rewrite Hmem, stored_after_get. exact Hh.
Qed.

Lemma chat_model_failure_keeps_user_message_witness :
  Worker.method Sample.chat_hi = "POST"%string
  ∧ Worker.pathname Sample.chat_hi = "/api/chat"%string
  ∧ Worker.body Sample.chat_hi = Some (JObject [(js "message", JString (js "hi"))])
  ∧ Json.get (JObject [(js "message", JString (js "hi"))]) (js "message")
    = Normal (Some (JString (js "hi")))
  ∧ Worker.stub_faults Sample.world = []
  ∧ fst (Worker.fetch Sample.stringify Sample.failing_env Sample.chat_hi Sample.world) = Throw
  ∧ ConversationStore.stored (js "demo")
      (Worker.memory (snd (Worker.fetch Sample.stringify Sample.failing_env Sample.chat_hi
                             Sample.world)))
    = Some [Worker.message "user" (Some (JString (js "hi")))].
Proof.
  do 5 (split; [reflexivity|]).
  destruct (chat_model_failure_keeps_user_message Sample.stringify Sample.failing_env
              Sample.chat_hi Sample.world
              (JObject [(js "message", JString (js "hi"))]) (Some (JString (js "hi")))
              eq_refl eq_refl eq_refl eq_refl eq_refl eq_refl) as (H1 & _ & H).
  split; [exact H1|]. refine (eq_trans H _). vm_compute. reflexivity.
Defined.

(** X15.  On the three routes that read a JSON body, a body that is not
    JSON, or that is [null], makes the handler throw at once: no call has been
    made on any binding and nothing has changed. *)
Theorem unreadable_body_throws_before_any_effect
    (JSON_stringify : JSON -> jsstring) (env : Worker.Env) (req : Worker.Request)
    (w : Worker.World) :
  Worker.method req = "POST"%string -> Worker.pathname req ∈ body_routes ->
  Worker.body req = None ∨ Worker.body req = Some JNull ->
  Worker.fetch JSON_stringify env req w = (Throw, w).
Proof.
  intros Hm Hp Hb. unfold body_routes in Hp.
  assert (Hfield : ∀ key, Worker.request_field req key w = (Throw, w))
    by (intros key; unfold Worker.request_field; destruct Hb as [-> | ->]; reflexivity).
  apply elem_of_cons in Hp as [Hp|Hp]; [|apply elem_of_cons in Hp as [Hp|Hp]];
    [| |apply list_elem_of_singleton in Hp].
  - rewrite fetch_chat by assumption. unfold Worker.chat, Worker.bind.
    rewrite Hfield. reflexivity.
  - rewrite fetch_task_start by assumption. unfold Worker.task_start, Worker.bind.
    rewrite Hfield. reflexivity.
  - rewrite fetch_chat_stream by assumption. unfold Worker.chat_stream, Worker.bind.
    rewrite Hfield. reflexivity.
Qed.

Lemma unreadable_body_throws_before_any_effect_witness :
  Worker.method Sample.chat_not_json = "POST"%string
  ∧ Worker.pathname Sample.chat_not_json ∈ body_routes
  ∧ (Worker.body Sample.chat_not_json = None ∨ Worker.body Sample.chat_not_json = Some JNull)
  ∧ Worker.fetch Sample.stringify Sample.env Sample.chat_not_json Sample.world
    = (Throw, Sample.world).
Proof.
  assert (Hp : Worker.pathname Sample.chat_not_json ∈ body_routes)
    by apply list_elem_of_here.
  split; [reflexivity|]. split; [exact Hp|]. split; [left; reflexivity|].
  exact (unreadable_body_throws_before_any_effect Sample.stringify Sample.env
           Sample.chat_not_json Sample.world eq_refl Hp (or_introl eq_refl)).
Defined.

Lemma storeless_ret {A} (a : A) : storeless (Worker.ret a).
Proof. intros w. split; reflexivity. Qed.

Lemma storeless_throw {A} : storeless (@Worker.throw A).
Proof. intros w. split; reflexivity. Qed.

Lemma storeless_lift {A} (c : Completion A) : storeless (Worker.lift c).
Proof. intros w. split; reflexivity. Qed.

Lemma storeless_emit ev : store_calls [ev] = [] -> storeless (Worker.emit ev).
Proof.
  intros Hev w. split; [reflexivity|]. cbn. rewrite store_calls_app, Hev. apply app_nil_r.
Qed.

Lemma storeless_bind {A B} (m : Worker.M A) (k : A -> Worker.M B) :
  storeless m -> (∀ a, storeless (k a)) -> storeless (Worker.bind m k).
Proof.
  intros Hm Hk w. unfold Worker.bind. destruct (Hm w) as (Hm1 & Hm2).
  destruct (m w) as [[a|] w1]; cbn [snd] in *; [|auto].
  destruct (Hk a w1) as (Hk1 & Hk2). rewrite Hk1, Hk2. auto.
Qed.

Lemma storeless_request_field req key : storeless (Worker.request_field req key).
Proof.
  unfold Worker.request_field. destruct (Worker.body req);
    [apply storeless_lift|apply storeless_throw].
Qed.

Create HintDb storeless.
#[local] Hint Resolve storeless_ret storeless_throw storeless_lift
  storeless_request_field : storeless.

Ltac storeless_steps :=
  repeat first
    [ solve [auto with storeless]
    | apply storeless_emit; reflexivity
    | apply storeless_bind; [|intros ?]
    | progress cbn beta iota zeta ].

(** X16.  Starting a task and polling one never touch the Conversation
    Store: whatever the method, the body, the parameters and the workflow
    binding's answers, a request for [/api/task] makes no call on the store
    and leaves every history as it is. *)
Theorem task_routes_leave_store_alone
    (JSON_stringify : JSON -> jsstring) (env : Worker.Env) (req : Worker.Request)
    (w : Worker.World) :
  Worker.pathname req = "/api/task"%string ->
  Worker.memory (snd (Worker.fetch JSON_stringify env req w)) = Worker.memory w
  ∧ store_calls (Worker.trace (snd (Worker.fetch JSON_stringify env req w)))
    = store_calls (Worker.trace w).
Proof.
  intros Hp. revert w. change (storeless (Worker.fetch JSON_stringify env req)).
  unfold Worker.fetch. rewrite Hp.
  change (negb (String.prefix "/api/" "/api/task")) with false. cbn iota.
  destruct (decide _) as [[_ H]|_]; [discriminate H|].
  destruct (decide _) as [_|_].
  { unfold Worker.task_start, Worker.instance_status_of. storeless_steps. }
  destruct (decide _) as [_|_].
  { unfold Worker.task_poll, Worker.instance_status_of.
    destruct (Worker.search_get _ _) as [[|]|]; storeless_steps. }
  do 2 (destruct (decide _) as [[_ H]|_]; [discriminate H|]).
  apply storeless_ret.
Qed.

Lemma task_routes_leave_store_alone_witness :
  Worker.pathname Sample.task_without_goal = "/api/task"%string
  ∧ Worker.memory (snd (Worker.fetch Sample.stringify Sample.env Sample.task_without_goal
                          Sample.world)) = Worker.memory Sample.world.
Proof.
  split; [reflexivity|].
  exact (proj1 (task_routes_leave_store_alone Sample.stringify Sample.env
                  Sample.task_without_goal Sample.world eq_refl)).
Defined.

(** X17.  A clear request that goes through empties the history of the
    request's identity (a [get] then answers with no message) and answers
    with ok; the one call it makes is the clear. *)
Theorem clear_route_empties_history
    (JSON_stringify : JSON -> jsstring) (env : Worker.Env) (req : Worker.Request)
    (w : Worker.World) :
  Worker.method req = "POST"%string -> Worker.pathname req = "/api/clear"%string ->
  Worker.stub_faults w = [] ->
  let r := Worker.fetch JSON_stringify env req w in
  fst r = Normal (Worker.Response_json [(js "ok", Some (JBool true))])
  ∧ store_calls (Worker.trace (snd r))
    = store_calls (Worker.trace w) ++ [(Worker.userId req, Worker.clear_request)]
  ∧ ConversationStore.get (Worker.userId req) (Worker.memory (snd r))
    = Normal (MemoryDO.RespHistory []).
Proof.
  intros Hm Hp Hf. cbn zeta. rewrite fetch_clear by assumption.
  unfold Worker.clear, Worker.bind. rewrite stub_fetch_ok by exact Hf.
  change (fst (MemoryDO.dispatch (Worker.userId req) Worker.clear_request (Worker.memory w)))
    with (@Normal MemoryDO.Response MemoryDO.RespOk).
  cbn [fst snd Worker.ret Worker.trace Worker.memory Worker.set_memory Worker.log].
  split; [reflexivity|]. split.
  - rewrite store_calls_app. reflexivity.
  - rewrite dispatch_get.
    change (snd (MemoryDO.dispatch (Worker.userId req) Worker.clear_request (Worker.memory w)))
      with (ConversationStore.clear (Worker.userId req) (Worker.memory w)).
    rewrite stored_clear. reflexivity.
Qed.

Lemma clear_route_empties_history_witness :
  Worker.method Sample.clear_alice = "POST"%string
  ∧ Worker.pathname Sample.clear_alice = "/api/clear"%string
  ∧ Worker.stub_faults Sample.world = []
  ∧ ConversationStore.get (Worker.userId Sample.clear_alice)
      (Worker.memory (snd (Worker.fetch Sample.stringify Sample.env Sample.clear_alice
                             Sample.world)))
    = Normal (MemoryDO.RespHistory []).
Proof.
  do 3 (split; [reflexivity|]).
  exact (proj2 (proj2 (clear_route_empties_history Sample.stringify Sample.env
                         Sample.clear_alice Sample.world eq_refl eq_refl eq_refl))).
Defined.

(** X18.  The [user] parameter names the identity: with [user=u] (the first
    such parameter, and also when [u] is empty) every call on the store goes
    to [u], and the history of every other identity, that of [demo] included,
    stays as it is. *)
Theorem user_parameter_selects_identity
    (JSON_stringify : JSON -> jsstring) (env : Worker.Env)
    (req : Worker.Request) (w : Worker.World) (u : jsstring) :
  Worker.search_get (js "user") (Worker.searchParams req) = Some u ->
  let w' := snd (Worker.fetch JSON_stringify env req w) in
  (∃ calls, store_calls (Worker.trace w') = store_calls (Worker.trace w) ++ calls
            ∧ Forall (fun c => fst c = u) calls)
  ∧ ∀ other, other ≠ u -> Worker.memory w' !! other = Worker.memory w !! other.
Proof.
  intros Hu. cbn zeta.
  assert (Hid : Worker.userId req = u) by (unfold Worker.userId; rewrite Hu; reflexivity).
  rewrite <- Hid. apply (fetch_confined JSON_stringify env req w).
Qed.

Lemma user_parameter_selects_identity_witness :
  Worker.search_get (js "user") (Worker.searchParams Sample.stream_hi_alice) = Some (js "alice")
  ∧ let w' := snd (Worker.fetch Sample.stringify Sample.env Sample.stream_hi_alice
                     Sample.world) in
    (∃ calls, store_calls (Worker.trace w') = store_calls (Worker.trace Sample.world) ++ calls
              ∧ Forall (fun c => fst c = js "alice") calls)
    ∧ ∀ other, other ≠ js "alice" ->
        Worker.memory w' !! other = Worker.memory Sample.world !! other.
Proof.
  split; [reflexivity|].
  apply (user_parameter_selects_identity Sample.stringify Sample.env Sample.stream_hi_alice
           Sample.world (js "alice")).
  reflexivity.
Defined.

(** A rejection inside [start] does not reach the handler. *)
Lemma relay_normal cancel user ups w : fst (Worker.relay cancel user ups w) = Normal tt.
Proof.
  unfold Worker.relay, Worker.bind, Worker.new_ReadableStream.
  destruct (Worker.start user ups _) as [[[]|] w']; reflexivity.
Qed.

(** X19.  A stream request that goes through, with a client that stays:
    the user message is stored (as it reads back from the JSON text it is
    sent in) before the model is asked, every chunk of the model's stream is
    enqueued, and after the stream the transcript, if it is worth storing, is
    stored as the assistant message right after the user message; otherwise
    the history ends with the user message. *)
Theorem stream_stores_the_turn
    (JSON_stringify : JSON -> jsstring) (env : Worker.Env) (req : Worker.Request)
    (w : Worker.World) (v : JSON) (m : option JSON) (ups : Worker.Upstream) :
  Worker.method req = "POST"%string -> Worker.pathname req = "/api/chat/stream"%string ->
  Worker.body req = Some v -> Json.get v (js "message") = Normal m ->
  Worker.stub_faults w = [] -> Worker.client_cancel env = None ->
  let user := Worker.userId req in
  let history := slice (default [] (ConversationStore.stored user (Worker.memory w))
                        ++ [Json.wire (Worker.message "user" m)]) (-20) None in
  Worker.AI_run_stream env (Worker.system :: (Json.wire <$> history)) = Normal ups ->
  let text := transcript (concat (Worker.chunks ups)) in
  let r := Worker.fetch JSON_stringify env req w in
  fst r = Normal {| Worker.status := 200; Worker.content := Worker.BodyStream |}
  ∧ Worker.queue (Worker.out (snd r)) = Worker.chunks ups
  ∧ store_calls (Worker.trace (snd r))
    = store_calls (Worker.trace w)
      ++ [(user, Worker.append_request "user" m); (user, Worker.get_request)]
      ++ (if worth_storing text
          then [(user, Worker.append_request "assistant" (Some (JString text)))]
          else [])
  ∧ ConversationStore.stored user (Worker.memory (snd r))
    = Some (if worth_storing text
            then slice (history ++ [Worker.message "assistant" (Some (JString text))])
                   (-20) None
            else history).
Proof.
  intros Hm Hp Hb Hmsg Hf Hc user history Hai text r. subst r.
  rewrite fetch_chat_stream by assumption.
  set (mem1 := ConversationStore.append user (Worker.memory w)
                 (Json.wire (Worker.message "user" m))).
  assert (Hh : ConversationStore.stored user mem1 = Some history)
    by (unfold mem1; rewrite stored_append; reflexivity).
  assert (E : ∃ w3,
    Worker.chat_stream env req w
    = (Normal {| Worker.status := 200; Worker.content := Worker.BodyStream |},
       snd (Worker.relay None user ups w3))
    ∧ Worker.trace w3
      = Worker.trace w
        ++ [Worker.EvStubFetch user (Worker.append_request "user" m);
            Worker.EvStubFetch user Worker.get_request;
            Worker.EvAIRun (Worker.system :: (Json.wire <$> history)) true]
    ∧ Worker.memory w3 = snd (MemoryDO.dispatch user Worker.get_request mem1)
    ∧ Worker.stub_faults w3 = []).
  { eexists. split; [|split; [|split]].
    - unfold Worker.chat_stream, Worker.request_field. rewrite Hb, Hc. fold user.
      unfold Worker.bind at 1. unfold Worker.lift at 1. rewrite Hmsg.
      unfold Worker.bind at 1. rewrite stub_fetch_ok by exact Hf.
      rewrite dispatch_append. cbn [fst snd].
      unfold Worker.bind at 1. rewrite stub_fetch_ok by exact Hf.
      cbn [Worker.memory Worker.set_memory Worker.log]. fold mem1.
      change (fst (MemoryDO.dispatch user Worker.get_request mem1))
        with (Normal (MemoryDO.RespHistory (default [] (ConversationStore.stored user mem1)))).
      cbn [fst snd Worker.history_of].
      unfold Worker.bind at 1. unfold Worker.ret at 1. rewrite Hh. cbn [default from_option id].
      unfold Worker.bind at 1, Worker.ai_run_stream, Worker.bind at 1, Worker.emit,
        Worker.lift.
      rewrite Hai.
      unfold Worker.bind at 1.
      rewrite (surjective_pairing (Worker.relay None user ups _)), relay_normal.
      reflexivity.
    - cbn. rewrite <- !app_assoc. reflexivity.
    - reflexivity.
    - exact Hf. }
  destruct E as (w3 & -> & Htr & Hmem & Hf3). cbn [fst snd].
  destruct (relay_spec None user ups w3) as (Hfull & Htr' & Hmem' & _).
  pose proof (relay_forwards_every_chunk_aux user (Worker.chunks ups) (Worker.ending ups) w3)
    as Hq.
  pose proof (relay_transcript user (Worker.chunks ups) (Worker.ending ups) w3) as Ht.
  replace {| Worker.chunks := Worker.chunks ups; Worker.ending := Worker.ending ups |}
    with ups in Hq, Ht by (destruct ups; reflexivity).
  fold text in Ht. rewrite <- Hfull, Ht in Htr', Hmem'.
  assert (Hnf : next_call_fails w3 = false) by (unfold next_call_fails; rewrite Hf3; reflexivity).
  rewrite Hnf, andb_false_r in Htr', Hmem'. cbn [negb] in Hmem'. rewrite andb_true_r in Hmem'.
  split; [reflexivity|]. split; [exact Hq|]. split.
  - rewrite Htr', Htr, !store_calls_app. cbn [store_calls].
    destruct (worth_storing text); cbn [store_calls app];
      rewrite ?app_nil_r, <- ?app_assoc; reflexivity.
  - rewrite Hmem', Hmem. destruct (worth_storing text).
    + rewrite stored_append, stored_after_get, Hh. reflexivity.
    + rewrite stored_after_get. exact Hh.
Qed.

Lemma stream_stores_the_turn_witness :
  Worker.method Sample.stream_hi_alice = "POST"%string
  ∧ Worker.pathname Sample.stream_hi_alice = "/api/chat/stream"%string
  ∧ Worker.body Sample.stream_hi_alice = Some (JObject [(js "message", JString (js "hi"))])
  ∧ Json.get (JObject [(js "message", JString (js "hi"))]) (js "message")
    = Normal (Some (JString (js "hi")))
  ∧ Worker.stub_faults Sample.world = []
  ∧ Worker.client_cancel Sample.env = None
  ∧ ConversationStore.stored (js "alice")
      (Worker.memory (snd (Worker.fetch Sample.stringify Sample.env Sample.stream_hi_alice
                             Sample.world)))
    = Some [Worker.message "user" (Some (JString (js "hi")));
            Worker.message "assistant" (Some (JString (js "Hello")))].
Proof.
  do 6 (split; [reflexivity|]).
  destruct (stream_stores_the_turn Sample.stringify Sample.env Sample.stream_hi_alice
              Sample.world (JObject [(js "message", JString (js "hi"))])
              (Some (JString (js "hi")))
              {| Worker.chunks := [Sample.frame1; Sample.frame2; Sample.frame3];
                 Worker.ending := Worker.EndDone |}
              eq_refl eq_refl eq_refl eq_refl eq_refl eq_refl eq_refl) as (_ & _ & _ & H).
  refine (eq_trans H _). vm_compute. reflexivity.
Defined.

(** ** The planning step, further *)

Section PlanMore.

Variable Number_toString : jsstring -> jsstring.
Variable Number_truthy : jsstring -> bool.

Let plan_of_text := TaskWorkflow.plan_of_text Number_toString Number_truthy.
Let ToString := TaskWorkflow.ToString Number_toString.

(** X20.  The three generic steps are the plan whenever the model's output
    is not JSON for an object with a [plan] array: not JSON at all, JSON
    for something that is not an object, or an object whose [plan] is
    missing or not an array. *)
Theorem fallback_without_plan_array (text : jsstring) :
  parsed_plan text = None -> plan_of_text text = Normal TaskWorkflow.fallback.
Proof.
  unfold parsed_plan. intros H.
  destruct (Json.parse text) as [v|] eqn:E;
    [|apply fallback_when_not_json; exact E].
  apply (fallback_when_no_plan_array _ _ text v E).
  intros members l -> Hl. rewrite Hl in H. discriminate H.
Qed.

Lemma map_String_strings (ss : list jsstring) :
  TaskWorkflow.map_String Number_toString (JString <$> ss) = Normal ss.
Proof.
  induction ss as [|t ss IH]; cbn; [reflexivity|].
  change (TaskWorkflow.map_String Number_toString (JString <$> ss)) with
    (TaskWorkflow.map_String Number_toString (JString <$> ss)).
  cbn in IH. rewrite IH. reflexivity.
Qed.

(** X21.  When the model's output has a [plan] array of texts, the plan is
    its first three texts, in order and unchanged; further items are
    dropped. *)
Theorem plan_is_first_three_texts (text : jsstring) (steps : list jsstring) :
  parsed_plan text = Some (JString <$> steps) ->
  plan_of_text text = Normal (take 3 steps).
Proof.
  unfold parsed_plan, plan_of_text, TaskWorkflow.plan_of_text, TaskWorkflow.safeJsonParse.
  destruct (Json.parse text) as [[| | | | |members]|]; try discriminate.
  cbn [TaskWorkflow.truthy Json.get].
  destruct (Json.own (js "plan") members) as [[| | | |items|]|]; try discriminate.
  intros [= ->]. rewrite map_String_strings.
  unfold slice, rel_index. cbn [Z.ltb Z.compare Z.to_nat Pos.to_nat Pos.iter_op Nat.add].
  rewrite drop_0, Nat.sub_0_r.
  destruct steps as [|a [|b [|c [|d rest]]]]; reflexivity.
Qed.

(** [String] throws exactly on the values that are, or hold in their arrays,
    an object with a member [toString]. *)
Lemma ToString_throws : ∀ v, ToString v = Throw <-> unconvertible v = true.
Proof.
  unfold ToString.
  fix IH 1. intros [|[]|lx|t|elems|members];
    cbn [TaskWorkflow.ToString unconvertible]; try (split; discriminate).
  - induction elems as [|e elems IHl]; [split; discriminate|].
    assert (He : (match e with JNull => Normal [] | _ => TaskWorkflow.ToString Number_toString e end)
                 = Throw <-> unconvertible e = true).
    { rewrite <- (IH e). destruct e; try reflexivity. split; discriminate. }
    rewrite orb_true_iff, <- He, <- IHl. clear IH IHl He.
    destruct (match e with JNull => Normal [] | _ => TaskWorkflow.ToString Number_toString e end)
      as [t|].
    + destruct elems as [|e' elems']; [split; [discriminate|intros [H|H]; discriminate H]|].
      match goal with |- context [_ ∨ ?j = Throw] => destruct j end;
        split; try discriminate; auto.
      intros [H|H]; discriminate H.
    + split; auto.
  - destruct (Json.own (js "toString") members) as [x|].
    + split; [intros _; apply bool_decide_eq_true; eauto|reflexivity].
    + split; [discriminate|]. intros H. apply bool_decide_eq_true in H.
      destruct H as [x H]. discriminate H.
Qed.

Lemma map_String_throws items :
  TaskWorkflow.map_String Number_toString items = Throw
  <-> Exists (fun item => unconvertible item = true) items.
Proof.
  induction items as [|item items IH]; cbn [TaskWorkflow.map_String].
  - split; [discriminate|inversion 1].
  - pose proof (ToString_throws item) as Hi. unfold ToString in Hi.
    destruct (TaskWorkflow.ToString Number_toString item) as [t|].
    + destruct (TaskWorkflow.map_String Number_toString items) as [ts|].
      * split; [discriminate|]. inversion 1; subst.
        -- apply Hi in H1. discriminate H1.
        -- apply IH in H1. discriminate H1.
      * split; [intros _; right; apply IH; reflexivity|reflexivity].
    + split; [intros _; left; apply Hi; reflexivity|reflexivity].
Qed.

(** X22.  The planning step throws exactly when the model's output has a
    [plan] array in which some item (among the first three or not) is, or
    holds in its arrays, an object with a member [toString]; on every other
    output it gives a plan. *)
Theorem plan_throws_exactly_on_unconvertible_item (text : jsstring) :
  plan_of_text text = Throw
  <-> ∃ items, parsed_plan text = Some items
               ∧ Exists (fun item => unconvertible item = true) items.
Proof.
  unfold parsed_plan, plan_of_text, TaskWorkflow.plan_of_text, TaskWorkflow.safeJsonParse.
  destruct (Json.parse text) as [[|[]|lx|t|l|members]|]; cbn [TaskWorkflow.truthy Json.get];
    try (split; [discriminate|intros (items & H & _); discriminate H]).
  - destruct (Number_truthy lx);
      (split; [discriminate|intros (items & H & _); discriminate H]).
  - destruct (negb _); (split; [discriminate|intros (items & H & _); discriminate H]).
  - destruct (Json.own (js "plan") members) as [[| | | |items|]|];
      try (split; [discriminate|intros (items' & H & _); discriminate H]).
    pose proof (map_String_throws items) as Hm.
    destruct (TaskWorkflow.map_String Number_toString items) as [ts|].
    + split; [discriminate|]. intros (items' & [= <-] & Hex).
      apply Hm in Hex. discriminate Hex.
    + split; [intros _; exists items; split; [reflexivity|apply Hm; reflexivity]|reflexivity].
Qed.

(** X23.  Whenever the planning step gives a plan, the plan has at most
    three items. *)
Theorem plan_has_at_most_three_items (text : jsstring) (steps : list jsstring) :
  plan_of_text text = Normal steps -> length steps <= 3.
Proof. apply plan_at_most_3. Qed.

End PlanMore.

Lemma fallback_without_plan_array_witness :
  parsed_plan (js Sample.no_plan) = None
  ∧ parsed_plan (js "Sure! Here is a plan.") = None
  ∧ TaskWorkflow.plan_of_text (fun lexeme => lexeme) (fun _ => true) (js Sample.no_plan)
    = Normal TaskWorkflow.fallback.
Proof.
  split; [vm_compute; reflexivity|]. split; [vm_compute; reflexivity|].
  apply (fallback_without_plan_array (fun lexeme => lexeme) (fun _ => true)
           (js Sample.no_plan)).
  vm_compute. reflexivity.
Defined.

Lemma plan_is_first_three_texts_witness :
  parsed_plan (js Sample.five_steps)
  = Some (JString <$> [js "a"; js "b"; js "c"; js "d"; js "e"])
  ∧ TaskWorkflow.plan_of_text (fun lexeme => lexeme) (fun _ => true) (js Sample.five_steps)
    = Normal [js "a"; js "b"; js "c"].
Proof.
  split; [vm_compute; reflexivity|].
  apply (plan_is_first_three_texts (fun lexeme => lexeme) (fun _ => true)
           (js Sample.five_steps) [js "a"; js "b"; js "c"; js "d"; js "e"]).
  vm_compute. reflexivity.
Defined.

Lemma plan_has_at_most_three_items_witness :
  TaskWorkflow.plan_of_text (fun lexeme => lexeme) (fun _ => true) (js Sample.five_steps)
  = Normal [js "a"; js "b"; js "c"]
  ∧ length [js "a"; js "b"; js "c"] <= 3.
Proof.
  assert (H : TaskWorkflow.plan_of_text (fun lexeme => lexeme) (fun _ => true)
                (js Sample.five_steps) = Normal [js "a"; js "b"; js "c"])
    by (vm_compute; reflexivity).
  split; [exact H|].
  exact (plan_has_at_most_three_items (fun lexeme => lexeme) (fun _ => true)
           (js Sample.five_steps) [js "a"; js "b"; js "c"] H).
Defined.

Section PlanStep.

Variable Number_toString : jsstring -> jsstring.
Variable Number_truthy : jsstring -> bool.
Variable AI_run : list JSON -> Completion (option JSON).

(** X24.  When the model's answer to the planning request carries no text,
    its [response] and its [output_text] both missing or [null], the plan
    is the three generic steps. *)
Theorem silent_model_gives_fallback (goal r : option JSON) :
  AI_run (TaskWorkflow.plan_messages goal) = Normal r ->
  nullish_value (Json.get_opt r (js "response")) ->
  nullish_value (Json.get_opt r (js "output_text")) ->
  TaskWorkflow.plan_step Number_toString Number_truthy AI_run goal
  = Normal TaskWorkflow.fallback.
Proof.
  intros Hr H1 H2. unfold TaskWorkflow.plan_step, TaskWorkflow.text_of. rewrite Hr.
  assert (E : Json.nullish
                (Json.nullish (Json.get_opt r (js "response"))
                              (Json.get_opt r (js "output_text")))
                (Some (JString [])) = Some (JString [])).
  { destruct H1 as [-> | ->], H2 as [-> | ->]; reflexivity. }
  rewrite E. cbn [TaskWorkflow.String_ TaskWorkflow.ToString].
  apply fallback_when_not_json. vm_compute. reflexivity.
Qed.

End PlanStep.

Lemma plan_throws_exactly_on_unconvertible_item_witness :
  TaskWorkflow.plan_of_text (fun lexeme => lexeme) (fun _ => true) (js Sample.bad_plan)
  = Throw.
Proof.
  apply (proj2 (plan_throws_exactly_on_unconvertible_item
                  (fun lexeme => lexeme) (fun _ => true) (js Sample.bad_plan))).
  exists [JObject [(js "toString", JNumber (js "0"))]].
  split; [vm_compute; reflexivity|].
  apply Exists_cons_hd. vm_compute. reflexivity.
Defined.

Lemma silent_model_gives_fallback_witness :
  TaskWorkflow.plan_step (fun lexeme => lexeme) (fun _ => true) Sample.silent_model
    (Some (JString (js "ship it")))
  = Normal TaskWorkflow.fallback.
Proof.
  apply (silent_model_gives_fallback (fun lexeme => lexeme) (fun _ => true)
           Sample.silent_model (Some (JString (js "ship it")))
           (Some (JObject [(js "usage", JObject [])]))).
  - reflexivity.
  - left. vm_compute. reflexivity.
  - left. vm_compute. reflexivity.
Defined.

(** ** The chat page *)

(** One turn of the page's [while] loop. *)
Lemma page_drain_step r buffer :
  App.drain r buffer
  = let idx := indexOf buffer Worker.delimiter in
    if (idx =? -1)%Z then (r, buffer)
    else App.drain (App.process_frame r (slice buffer 0 (Some idx)))
                   (slice buffer (idx + 2) None).
Proof.
  simp drain. unfold inspect at 1. simp drain. cbn zeta.
  generalize (inspect (indexOf buffer Worker.delimiter =? -1)%Z).
  intros [b Hb]. destruct b; simp drain; rewrite Hb; reflexivity.
Qed.

Lemma follows_refl r : follows r r (App.full r).
Proof. split; [reflexivity|]. exists 0%nat. rewrite app_nil_r. auto. Qed.

Lemma follows_trans r1 r2 r3 f2 f3 :
  follows r1 r2 f2 -> follows r2 r3 f3 -> follows r1 r3 f3.
Proof.
  intros (H2 & k & Hp & Hk) (H3 & j & Hq & Hj). split; [exact H3|].
  exists (k + j)%nat. rewrite Hq, Hp, <- app_assoc, replicate_add. split; [reflexivity|].
  intros E. assert (k = 0%nat) by lia. assert (j = 0%nat) by lia.
  rewrite Hj, H2 by assumption. auto.
Qed.

Lemma page_process_line r line :
  follows r (App.process_line r line) (Worker.process_line (App.full r) line).
Proof.
  unfold App.process_line, Worker.process_line.
  destruct (negb _); [apply follows_refl|].
  destruct (_ || _); [apply follows_refl|].
  destruct (Json.parse _) as [obj|]; [|apply follows_refl].
  destruct (Json.get obj (js "response")) as [[[| | |response| |]|]|]; try apply follows_refl.
  split; [reflexivity|]. exists 1%nat. split; [reflexivity|discriminate].
Qed.

Lemma page_process_frame r frame :
  follows r (App.process_frame r frame) (Worker.process_frame (App.full r) frame).
Proof.
  unfold App.process_frame, Worker.process_frame.
  generalize (split_on 10%N frame). intros lines.
  induction lines as [|line lines IH] using rev_ind; [apply follows_refl|].
  rewrite !foldl_snoc.
  eapply follows_trans; [exact IH|].
  destruct IH as (<- & _). apply page_process_line.
Qed.

Lemma page_drain r buffer :
  follows r (fst (App.drain r buffer)) (fst (Worker.drain (App.full r) buffer))
  ∧ snd (App.drain r buffer) = snd (Worker.drain (App.full r) buffer).
Proof.
  remember (length buffer) as n eqn:Hn.
  revert r buffer Hn. induction n as [n IH] using lt_wf_ind. intros r buffer ->.
  rewrite page_drain_step, drain_step. cbn zeta.
  destruct (indexOf buffer Worker.delimiter =? -1)%Z eqn:E;
    [split; [apply follows_refl|reflexivity]|].
  apply Z.eqb_neq in E.
  destruct (indexOf_bounds buffer Worker.delimiter) as [H|[H0 H2]]; [congruence|].
  simpl length in H2.
  pose proof (page_process_frame r (slice buffer 0 (Some (indexOf buffer Worker.delimiter))))
    as Hf.
  set (r1 := App.process_frame r _) in *.
  destruct (IH (length (slice buffer (indexOf buffer Worker.delimiter + 2) None)))
    with (r := r1) (buffer := slice buffer (indexOf buffer Worker.delimiter + 2) None)
    as [Hd Hb]; [|reflexivity|].
  { unfold slice, rel_index. rewrite length_take, length_drop.
    destruct (indexOf buffer Worker.delimiter + 2 <? 0)%Z eqn:E2;
      [apply Z.ltb_lt in E2; lia|]. lia. }
  destruct Hf as (Hfull & Hrest). rewrite Hfull in Hd, Hb.
  split; [|exact Hb].
  eapply follows_trans; [split; [exact Hfull|exact Hrest]|exact Hd].
Qed.

Lemma page_feed_text value p bytes :
  page_text p = text_after bytes ->
  page_text (App.feed value p) = text_after (bytes ++ value).
Proof.
  unfold page_text, text_after, App.feed. rewrite decode_app.
  destruct (TextDecoder.decode bytes TextDecoder.init) as [t1 st1].
  destruct (Worker.drain [] t1) as [f b] eqn:E1.
  intros [= Hf Hb Hd]. rewrite Hd.
  destruct (TextDecoder.decode value st1) as [t2 st2].
  pose proof (page_drain (App.reply p) (App.buffer p ++ t2)) as [(Hfull & _) Hbuf].
  destruct (App.drain (App.reply p) (App.buffer p ++ t2)) as [r' b'].
  cbn [fst snd App.reply App.buffer App.decoder] in *.
  change (t1 ++ t2) with ([] ++ t1 ++ t2). rewrite app_assoc, drain_app.
  cbn [app]. rewrite E1, Hfull, Hbuf, Hf, Hb.
  destruct (Worker.drain f (b ++ t2)). reflexivity.
Qed.

Lemma page_render_text p : page_text (App.render p) = page_text p.
Proof. reflexivity. Qed.

Lemma page_read_loop_text chunks : ∀ renders p bytes,
  page_text p = text_after bytes ->
  page_text (App.read_loop chunks renders p) = text_after (bytes ++ concat chunks).
Proof.
  induction chunks as [|value chunks IH]; intros renders p bytes Hp; cbn [App.read_loop concat].
  - rewrite app_nil_r. exact Hp.
  - rewrite app_assoc. apply IH. apply page_feed_text.
    destruct (hd false renders); [rewrite page_render_text|]; exact Hp.
Qed.

Lemma page_full text m chunks renders :
  App.full (App.reply (App.read_loop chunks renders (App.start text m)))
  = transcript (concat chunks).
Proof.
  assert (H0 : page_text (App.start text m) = text_after []).
  { unfold page_text, text_after. cbn [TextDecoder.decode]. rewrite drain_step. reflexivity. }
  pose proof (page_read_loop_text chunks renders (App.start text m) [] H0) as H.
  rewrite app_nil_l in H. unfold page_text, text_after, transcript in *.
  destruct (TextDecoder.decode (concat chunks) TextDecoder.init) as [t st]. cbn [fst].
  destruct (Worker.drain [] t) as [f b]. cbn [fst].
  injection H as -> _ _. reflexivity.
Qed.

Lemma show_reply_last full m text c :
  App.apply_updater full (m ++ turn text c) App.ShowReply = m ++ turn text full.
Proof.
  unfold App.apply_updater, turn. cbn zeta.
  set (u := {| App.role := "user"; App.content := text |}).
  set (a := {| App.role := "assistant"; App.content := c |}).
  assert (Hlast : Z.to_nat (Z.of_nat (length (m ++ [u; a])) - 1) = (length m + 1)%nat)
    by (rewrite length_app; simpl; lia).
  rewrite Hlast.
  assert (H0 : (0 <=? Z.of_nat (length (m ++ [u; a])) - 1)%Z = true)
    by (apply Z.leb_le; rewrite length_app; simpl; lia).
  rewrite H0.
  rewrite lookup_app_r by lia.
  replace (length m + 1 - length m)%nat with 1%nat by lia.
  cbn [lookup list_lookup a App.role String.eqb Ascii.eqb Bool.eqb andb].
  change (String.eqb "assistant" "assistant") with true. cbn iota.
  rewrite (insert_app_r_alt m [u; a] (length m + 1)) by lia.
  replace (length m + 1 - length m)%nat with 1%nat by lia. reflexivity.
Qed.

Lemma show_reply_repeated full m text c k :
  foldl (App.apply_updater full) (m ++ turn text c) (replicate k App.ShowReply)
  = m ++ turn text (if k is 0%nat then c else full).
Proof.
  revert c. induction k as [|k IH]; intros c; [reflexivity|].
  cbn [replicate foldl]. rewrite show_reply_last, IH. destruct k; reflexivity.
Qed.

Lemma render_mid_turn text m p :
  mid_turn text m p ->
  App.messages (App.render p) = m ++ turn text (App.full (App.reply p)).
Proof.
  intros [k [(Hm & Hp & Hk) | (c & Hm & Hp & Hk)]];
    unfold App.render; cbn [App.messages]; rewrite Hm, Hp.
  - cbn [foldl App.apply_updater]. fold (turn text []).
    rewrite show_reply_repeated. destruct k; [rewrite Hk|]; reflexivity.
  - rewrite show_reply_repeated. destruct k; [rewrite Hk|]; reflexivity.
Qed.

Lemma render_keeps_mid_turn text m p : mid_turn text m p -> mid_turn text m (App.render p).
Proof.
  intros H. pose proof (render_mid_turn text m p H) as Hm.
  exists 0%nat. right. exists (App.full (App.reply p)). repeat split; assumption.
Qed.

Lemma feed_keeps_mid_turn text m value p : mid_turn text m p -> mid_turn text m (App.feed value p).
Proof.
  unfold App.feed. destruct (TextDecoder.decode value (App.decoder p)) as [t st].
  pose proof (page_drain (App.reply p) (App.buffer p ++ t)) as [(Hfull & j & Hpend & Hj) _].
  destruct (App.drain (App.reply p) (App.buffer p ++ t)) as [r' b'].
  cbn [fst] in *.
  intros [k [(Hm & Hp & Hk) | (c & Hm & Hp & Hk)]]; exists (k + j)%nat; [left|right].
  - cbn [App.messages App.reply]. rewrite Hpend, Hp, replicate_add.
    repeat split; [exact Hm|].
    intros E. rewrite Hfull, Hj by lia. apply Hk. lia.
  - exists c. cbn [App.messages App.reply]. rewrite Hpend, Hp, replicate_add.
    repeat split; [exact Hm|].
    intros E. rewrite Hfull, Hj by lia. apply Hk. lia.
Qed.

Lemma read_loop_keeps_mid_turn text m chunks : ∀ renders p,
  mid_turn text m p -> mid_turn text m (App.read_loop chunks renders p).
Proof.
  induction chunks as [|value chunks IH]; intros renders p Hp; cbn [App.read_loop];
    [exact Hp|].
  apply IH, feed_keeps_mid_turn.
  destruct (hd false renders); [apply render_keeps_mid_turn|]; exact Hp.
Qed.

Lemma start_mid_turn text m : mid_turn text m (App.start text m).
Proof. exists 0%nat. left. repeat split. Qed.

(** X25.  When a streamed reply is over, the page shows the messages it
    showed before, then the user's text, then one assistant message holding
    the whole transcript of the bytes received: whatever the chunks the
    bytes arrived in, and whenever React rendered in between. *)
Theorem page_shows_whole_transcript (text : jsstring) (m : list App.Msg)
    (chunks : list (list byte)) (renders : list bool) :
  App.messages (App.sendStream text m chunks renders)
  = m ++ turn text (transcript (concat chunks)).
Proof.
  unfold App.sendStream.
  rewrite (render_mid_turn text m)
    by apply read_loop_keeps_mid_turn, start_mid_turn.
  rewrite page_full. reflexivity.
Qed.

(** X26.  The page and the worker agree: for the bytes of one upstream
    reply, however they are cut into chunks on the way to the page, the
    text the page ends up showing is the text the worker's relay has
    accumulated for the store. *)
Theorem page_and_worker_agree (text user : jsstring) (m : list App.Msg)
    (upstream : Worker.Upstream) (w : Worker.World)
    (chunks : list (list byte)) (renders : list bool) :
  concat chunks = concat (Worker.chunks upstream) ->
  App.full (App.reply (App.sendStream text m chunks renders))
  = Worker.full (snd (Worker.relay None user upstream w)).
Proof.
  intros H. destruct upstream as [cs e]. cbn [Worker.chunks] in H.
  rewrite relay_transcript, <- H.
  unfold App.sendStream. cbn [App.render App.reply App.full].
  apply page_full.
Qed.

Lemma page_and_worker_agree_witness :
  concat Sample.rechunked = concat [Sample.frame1; Sample.frame2; Sample.frame3]
  ∧ App.full (App.reply (App.sendStream (js "hi") [] Sample.rechunked [true; false; true]))
    = Worker.full (snd (Worker.relay None (js "demo")
                          {| Worker.chunks := [Sample.frame1; Sample.frame2; Sample.frame3];
                             Worker.ending := Worker.EndDone |} Sample.world)).
Proof.
  split; [reflexivity|].
  apply (page_and_worker_agree (js "hi") (js "demo") []
           {| Worker.chunks := [Sample.frame1; Sample.frame2; Sample.frame3];
              Worker.ending := Worker.EndDone |} Sample.world
           Sample.rechunked [true; false; true]).
  reflexivity.
Defined.

(** The example reply, rendered once while it arrives, ends up as [Hello]. *)
Example page_shows_hello :
  App.messages (App.sendStream (js "hi") [] Sample.rechunked [false; true])
  = turn (js "hi") (js "Hello").
Proof. vm_compute. reflexivity. Qed.
